(** * build.py of discord-rpc: the build orchestrator, embedded and verified

    The file follows [src/build.py].  Part I models what the script relies
    on (paths, the file system, the process environment, external commands);
    Part II is the script itself, function by function, under the names it
    has in the source; Part III states and proves its properties.

    Every function of the script is there, and the block that runs when
    the file is started as a program ([main]). *)

From Stdlib Require Import ZArith Ascii Permutation.
From stdpp Require Import gmap strings list.


(* ===================================================================== *)
(** * Part I.  The host: strings, paths, files, processes                *)
(* ===================================================================== *)

(** ** Strings *)

Module Str.

(** [s.startswith(p)] *)
Definition startswith (s p : string) : bool := String.prefix p s.

(** [s.endswith(p)] *)
Definition endswith (s p : string) : bool :=
  (String.length p <=? String.length s)
  && String.eqb
       (String.substring (String.length s - String.length p) (String.length p) s)
       p.

(** [s.rfind(c)]: the greatest index holding [c], or -1. *)
Fixpoint rfind_from (c : ascii) (s : string) (i acc : Z) : Z :=
  match s with
  | EmptyString => acc
  | String a s' => rfind_from c s' (i + 1) (if Ascii.eqb a c then i else acc)
  end.

Definition rfind (c : ascii) (s : string) : Z := rfind_from c s 0 (-1).

(** [s[i:]] and [s[:i]] for an index within the string. *)
Definition drop (i : nat) (s : string) : string :=
  String.substring i (String.length s - i) s.

Definition take (i : nat) (s : string) : string := String.substring 0 i s.

(** [s.split(c)] *)
Fixpoint split (c : ascii) (s : string) : list string :=
  match s with
  | EmptyString => [EmptyString]
  | String a s' =>
      if Ascii.eqb a c then EmptyString :: split c s'
      else match split c s' with
           | [] => [String a EmptyString]
           | w :: ws => String a w :: ws
           end
  end.

(** [sep.join(parts)] *)
Fixpoint join (sep : string) (parts : list string) : string :=
  match parts with
  | [] => ""
  | [p] => p
  | p :: ps => p +:+ sep +:+ join sep ps
  end.

End Str.

(** ** Paths

    The script builds every path with [os.path.join] from [SCRIPT_PATH],
    literal names and directory-entry names, and [os.path] is [posixpath]
    on macOS and Linux but [ntpath] on Windows.  A path is therefore kept
    as its parts (the way [pathlib] exposes them) and only turned into text
    for a command line, a log line or an archive member name. *)

Record path := Path { absolute : bool; parts : list string }.

(** A relative path written as a literal, e.g. ['builds'] or ['.']. *)
Definition rel (ps : list string) : path := Path false ps.

(** [os.path.join(a, b)]: an absolute [b] wins, otherwise [b] is appended. *)
Definition join2 (a b : path) : path :=
  if absolute b then b else Path (absolute a) (parts a ++ parts b).

(** [os.path.join(a, *p)]: the loop over the remaining arguments. *)
Definition os_path_join (a : path) (p : list path) : path :=
  foldl join2 a p.

(** One round of the loop of [normpath] over the components. *)
Definition normpath_step (is_abs : bool) (new_comps : list string)
    (comp : string) : list string :=
  if String.eqb comp "" || String.eqb comp "." then new_comps
  else if negb (String.eqb comp "..")
          || (negb is_abs && bool_decide (new_comps = []))
          || (negb (bool_decide (new_comps = []))
              && String.eqb (List.last new_comps "") "..")
       then new_comps ++ [comp]
       else removelast new_comps.

Definition normparts (is_abs : bool) (comps : list string) : list string :=
  foldl (normpath_step is_abs) [] comps.

(** [os.path.normpath(p)]; the empty relative path normalises to ['.']. *)
Definition normpath (p : path) : path :=
  let comps := normparts (absolute p) (parts p) in
  if negb (absolute p) && bool_decide (comps = []) then Path false ["."]
  else Path (absolute p) comps.

(** [if new_dir:] on a path: the empty string is the only false one. *)
Definition nonempty (p : path) : bool :=
  absolute p || negb (bool_decide (parts p = [])).

(** [genericpath._splitext(p, sep, altsep, extsep)], second component:
    the extension starts at the last dot of the last component, unless that
    component has nothing but dots before it. *)
Fixpoint only_dots (p : string) (filenameIndex : nat) (n : nat) : bool :=
  match n with
  | O => true
  | S n' =>
      match String.get filenameIndex p with
      | Some c =>
          if Ascii.eqb c "." then only_dots p (S filenameIndex) n' else false
      | None => true
      end
  end.

Definition splitext (sep : ascii) (altsep : option ascii) (p : string)
    : string * string :=
  let sepIndex :=
    match altsep with
    | Some a => Z.max (Str.rfind sep p) (Str.rfind a p)
    | None => Str.rfind sep p
    end in
  let dotIndex := Str.rfind "." p in
  if (sepIndex <? dotIndex)%Z then
    let filenameIndex := Z.to_nat (sepIndex + 1) in
    if only_dots p filenameIndex (Z.to_nat dotIndex - filenameIndex)
    then (p, "")
    else (Str.take (Z.to_nat dotIndex) p, Str.drop (Z.to_nat dotIndex) p)
  else (p, "").

(** ** Files *)

Definition bytes := list Byte.byte.

(** What a file holds: plain bytes, or a zip archive seen as its members
    in the order they were written (member name, member contents).  The
    encoding of an archive into bytes is the zip library's. *)
#[local] Unset Elimination Schemes.

Inductive content :=
| Raw (b : bytes)
| Zip (members : list (string * content)).

Inductive node :=
| File (data : content)
| Dir (entries : list (string * node)).

#[local] Set Elimination Schemes.

Definition is_dir (n : node) : bool :=
  match n with Dir _ => true | File _ => false end.

Fixpoint dir_lookup (name : string) (entries : list (string * node))
    : option node :=
  match entries with
  | [] => None
  | (n, x) :: es => if String.eqb n name then Some x else dir_lookup name es
  end.

(** Replace the entry [name], or add it at the end. *)
Fixpoint dir_set (name : string) (x : node) (entries : list (string * node))
    : list (string * node) :=
  match entries with
  | [] => [(name, x)]
  | (n, y) :: es =>
      if String.eqb n name then (n, x) :: es else (n, y) :: dir_set name x es
  end.

Fixpoint dir_remove (name : string) (entries : list (string * node))
    : list (string * node) :=
  match entries with
  | [] => []
  | (n, y) :: es =>
      if String.eqb n name then es else (n, y) :: dir_remove name es
  end.

(** The node a normalised absolute path names. *)
Fixpoint node_at (n : node) (ps : list string) : option node :=
  match ps with
  | [] => Some n
  | p :: ps' =>
      match n with
      | Dir es =>
          match dir_lookup p es with
          | Some c => node_at c ps'
          | None => None
          end
      | File _ => None
      end
  end.

(** Put [x] at [ps]; the parent must be an existing directory. *)
Fixpoint node_put (n : node) (ps : list string) (x : node) : option node :=
  match ps with
  | [] => Some x
  | p :: ps' =>
      match n with
      | Dir es =>
          match ps' with
          | [] => Some (Dir (dir_set p x es))
          | _ :: _ =>
              match dir_lookup p es with
              | Some c =>
                  match node_put c ps' x with
                  | Some c' => Some (Dir (dir_set p c' es))
                  | None => None
                  end
              | None => None
              end
          end
      | File _ => None
      end
  end.

(** [mkdir -p]: create the directories of [ps] that are missing; fails
    when a file is in the way. *)
Fixpoint mkdirs (ps : list string) (n : node) : option node :=
  match n with
  | File _ => None
  | Dir es =>
      match ps with
      | [] => Some n
      | p :: ps' =>
          match mkdirs ps' (default (Dir []) (dir_lookup p es)) with
          | Some c => Some (Dir (dir_set p c es))
          | None => None
          end
      end
  end.

(** Remove the directory at [ps], whatever it holds; anything else
    (nothing there, a file there, the root) is left alone. *)
Fixpoint rmdir_tree (ps : list string) (n : node) : node :=
  match ps, n with
  | [p], Dir es =>
      match dir_lookup p es with
      | Some (Dir _) => Dir (dir_remove p es)
      | _ => n
      end
  | p :: ps', Dir es =>
      match dir_lookup p es with
      | Some c => Dir (dir_set p (rmdir_tree ps' c) es)
      | None => n
      end
  | _, _ => n
  end.

Definition dirnames (entries : list (string * node)) : list string :=
  (filter (fun e => is_dir e.2) entries).*1.

Definition filenames (entries : list (string * node)) : list string :=
  (filter (fun e => negb (is_dir e.2)) entries).*1.

(** [os.walk(top)], top-down: the directory itself, then each of its
    sub-directories in turn.  What is not a directory yields nothing. *)
Fixpoint walk_node (top : path) (n : node)
    : list (path * list string * list string) :=
  match n with
  | File _ => []
  | Dir entries =>
      (top, dirnames entries, filenames entries)
      :: flat_map (fun '(name, child) => walk_node (join2 top (rel [name])) child)
                  entries
  end.

(** ** Exceptions, the world, and the monad the script runs in *)

Inductive exn :=
| Exception (msg : string)
| KeyError (key : string)
| OSError (p : path)
| CalledProcessError (returncode : Z) (cmd : list string).

Inductive result (A : Type) :=
| Ok (a : A)
| Raise (e : exn).

Arguments Ok {A} a.
Arguments Raise {A} e.

(** What a run leaves behind for an observer, in order: the lines printed
    with [click.echo] / [click.secho], the argument vectors handed to
    [subprocess.check_call], and the commands started with [ctx.invoke]. *)
Inductive event :=
| Echo (line : string)
| Exec (argv : list string)
| Invoke (command : string).

Record world := World {
  fs : node;              (* the volume that holds the checkout *)
  cwd : list string;      (* os.getcwd(), normalised, from the root *)
  trace : list event
}.

(** A computation either returns or raises; either way the world it has
    reached stays observable (a raised exception ends the run, it does not
    undo what was done). *)
Definition M (A : Type) : Type := world -> result A * world.

#[global] Instance M_ret : MRet M := fun A a w => (Ok a, w).

#[global] Instance M_bind : MBind M := fun A B k m w =>
  match m w with
  | (Ok a, w') => k a w'
  | (Raise e, w') => (Raise e, w')
  end.

Definition raise {A} (e : exn) : M A := fun w => (Raise e, w).

(** [for x in xs: body] *)
Fixpoint for_ {A} (xs : list A) (body : A -> M unit) : M unit :=
  match xs with
  | [] => mret tt
  | x :: xs' => body x ;; for_ xs' body
  end.

Definition log (e : event) : M unit :=
  fun w => (Ok tt, World (fs w) (cwd w) (trace w ++ [e])).

Definition echo (line : string) : M unit := log (Echo line).

(** [click.secho(line, fg=...)]: the colour is not part of the line. *)
Definition secho (line : string) : M unit := log (Echo line).

(** Where a path points, from the root: relative paths start at the
    current directory; [.] and [..] are resolved on the way, on the text
    of the path (the system looks each part up instead, so that [a/..]
    with no [a] is an error there).  A path without parts stands for the
    directory it starts at, not for the empty text, which the functions
    of [os] refuse.  The paths the script builds are joined from names
    and from [..] after a directory it has entered; what is proved of an
    arbitrary path is proved of one that has parts, all of them names. *)
Definition resolve (w : world) (p : path) : list string :=
  normparts true ((if absolute p then [] else cwd w) ++ parts p).

Definition isdir (p : path) : M bool := fun w =>
  (Ok (from_option is_dir false (node_at (fs w) (resolve w p))), w).

(** [os.makedirs(p)]: refuses an existing target. *)
Definition makedirs (p : path) : M unit := fun w =>
  let ps := resolve w p in
  match node_at (fs w) ps with
  | Some _ => (Raise (OSError p), w)
  | None =>
      match mkdirs ps (fs w) with
      | Some fs' => (Ok tt, World fs' (cwd w) (trace w))
      | None => (Raise (OSError p), w)
      end
  end.

(** [shutil.rmtree(p, ignore_errors=True)] *)
Definition rmtree (p : path) : M unit := fun w =>
  (Ok tt, World (rmdir_tree (resolve w p) (fs w)) (cwd w) (trace w)).

Definition getcwd : M path := fun w => (Ok (Path true (cwd w)), w).

Definition chdir (p : path) : M unit := fun w =>
  let ps := resolve w p in
  match node_at (fs w) ps with
  | Some (Dir _) => (Ok tt, World (fs w) ps (trace w))
  | _ => (Raise (OSError p), w)
  end.

(** [os.walk(top)].  The generator of Python lists a directory when the
    loop reaches it; here the listing is the one of the tree as it stands
    when the loop starts.  The two agree as long as the body of the loop
    leaves the names under [top] as they are: in [archive] it writes
    outside the tree it reads; in [sign] it runs the signing tool, which
    rewrites a file in place, and what is proved of the commands of
    [sign] for an arbitrary tool assumes as much of it ([keeps_listing]
    below). *)
Definition walk (top : path) : M (list (path * list string * list string)) :=
  fun w =>
    (Ok (from_option (walk_node top) [] (node_at (fs w) (resolve w top))), w).

(** The member name [zipfile] stores for [arcname]: normalised, relative,
    and with [/] between the parts on every platform. *)
Definition zip_member_name (arcname : path) : string :=
  Str.join "/" (parts (normpath arcname)).

(** [zipfile.ZipFile(file, 'w', ZIP_DEFLATED)]: the file is created, or
    emptied when it exists.  The result stands for the open archive.  The
    script never closes it; what has been written counts as in the archive,
    as it is once the object is finalised. *)
Definition ZipFile_w (file : path) : M (list string) := fun w =>
  let ps := resolve w file in
  match node_at (fs w) ps with
  | Some (Dir _) => (Raise (OSError file), w)
  | _ =>
      match node_put (fs w) ps (File (Zip [])) with
      | Some fs' => (Ok ps, World fs' (cwd w) (trace w))
      | None => (Raise (OSError file), w)
      end
  end.

(** [archive_file.write(filename, arcname)]: one more member, holding what
    the file holds now (deflate gives back the bytes it was given). *)
Definition ZipFile_write (archive_file : list string) (filename arcname : path)
    : M unit := fun w =>
  match node_at (fs w) (resolve w filename),
        node_at (fs w) archive_file with
  | Some n, Some (File (Zip members)) =>
      let member :=
        match n with
        | File data => (zip_member_name arcname, data)
        | Dir _ => (zip_member_name arcname +:+ "/", Raw [])
        end in
      match node_put (fs w) archive_file (File (Zip (members ++ [member]))) with
      | Some fs' => (Ok tt, World fs' (cwd w) (trace w))
      | None => (Raise (OSError filename), w)
      end
  | _, _ => (Raise (OSError filename), w)
  end.

(** [os.path.basename(p)] *)
Definition basename (p : path) : string := List.last (parts p) "".

(** [shutil.copy(src, dst)]: a [dst] that is a directory stands for the
    file of the same name in it; [src] has to be a file, other than the
    target; the target is created, or overwritten when it is a file.  Every
    failure is an [OSError] ([SameFileError] is one). *)
Definition shutil_copy (src dst : path) : M unit := fun w =>
  let dst :=
    if from_option is_dir false (node_at (fs w) (resolve w dst))
    then os_path_join dst [rel [basename src]]
    else dst in
  let source := resolve w src in
  let target := resolve w dst in
  match node_at (fs w) source with
  | Some (File data) =>
      if bool_decide (source = target) then (Raise (OSError src), w)
      else
        match node_at (fs w) target with
        | Some (Dir _) => (Raise (OSError dst), w)
        | _ =>
            match node_put (fs w) target (File data) with
            | Some fs' => (Ok tt, World fs' (cwd w) (trace w))
            | None => (Raise (OSError dst), w)
            end
        end
  | _ => (Raise (OSError src), w)
  end.

(** ** Option dictionaries

    [options] of [build_lib] is a [dict] from option name to a [bool] or a
    [str]; iteration follows insertion order (as it does since Python 3.7),
    and the order decides the order of the [-D] arguments on the command
    line. *)

Inductive value :=
| VBool (b : bool)
| VStr (s : string).

Definition dict := list (string * value).

(** [d[key] = v] *)
Fixpoint setitem (key : string) (v : value) (d : dict) : dict :=
  match d with
  | [] => [(key, v)]
  | (k, x) :: d' =>
      if String.eqb k key then (k, v) :: d' else (k, x) :: setitem key v d'
  end.

(** [d.get(key)] *)
Fixpoint getitem (key : string) (d : dict) : option value :=
  match d with
  | [] => None
  | (k, x) :: d' => if String.eqb k key then Some x else getitem key d'
  end.

(** [key in d] *)
Definition has_key (key : string) (d : dict) : bool :=
  existsb (fun kv => String.eqb kv.1 key) d.

(** ** Platforms *)

Inductive platform := win | osx | linux.

#[global] Instance platform_eq_dec : EqDecision platform.
Proof. solve_decision. Defined.

(** The string the script uses for a platform. *)
Definition platform_name (p : platform) : string :=
  match p with win => "win" | osx => "osx" | linux => "linux" end.

(* ===================================================================== *)
(** * Part II.  build.py                                                  *)
(* ===================================================================== *)

(** [get_platform()], as a function of [sys.platform]. *)
Definition get_platform (sys_platform : string) : result platform :=
  if Str.startswith sys_platform "win" then Ok win
  else if String.eqb sys_platform "darwin" then Ok osx
  else if Str.startswith sys_platform "linux" then Ok linux
  else Raise (Exception ("Unsupported platform " +:+ sys_platform)).

(** One call [build_lib(build_name, generator, options, just_release)]. *)
Record variant := Variant {
  build_name : string;
  generator : option string;
  options : dict;
  just_release : bool
}.

Section Script.

(** The process the script runs in.  [PLATFORM] is what [get_platform()]
    returned when the module was loaded (the module body stops there when
    it raises), and [get_platform()] returns the same later on. *)
Variable PLATFORM : platform.
Variable environ : gmap string string.          (* os.environ *)
Variable script_dir : list string.              (* parts of SCRIPT_PATH *)
Variable anchor : string.                       (* text of the root: "/", "C:\" *)

(** [os.path.expanduser]: the host's own, which looks the home directory
    up ([HOME], [USERPROFILE] or the password database); it is a thing
    the program reads next to [environ], not a function of it. *)
Variable expanduser : string -> string.

(** [os.path.join] on text that comes from outside the script (the value
    of an environment variable): the host's own, with its rules for
    drives, roots and separators. *)
Variable join_text : string -> list string -> string.

(** An external command: from its arguments, the directory it is started
    in and the files it finds, its exit status and the files it leaves. *)
Variable proc : list string -> list string -> node -> Z * node.

Definition os_sep : ascii :=
  match PLATFORM with win => "\" | _ => "/" end%char.

Definition os_altsep : option ascii :=
  match PLATFORM with win => Some "/"%char | _ => None end.

(** The text of a path, as it appears in a log line or a command line. *)
Definition fspath (p : path) : string :=
  (if absolute p then anchor else "")
  +:+ Str.join (String os_sep "") (parts p).

Definition os_path_splitext (p : string) : string * string :=
  splitext os_sep os_altsep p.

(** [subprocess.check_call(argv)] *)
Definition check_call (argv : list string) : M unit := fun w =>
  let '(returncode, fs') := proc argv (cwd w) (fs w) in
  let w' := World fs' (cwd w) (trace w ++ [Exec argv]) in
  if (returncode =? 0)%Z then (Ok tt, w')
  else (Raise (CalledProcessError returncode argv), w').

(** [os.environ[key]] *)
Definition environ_getitem (key : string) : M string :=
  match environ !! key with
  | Some v => mret v
  | None => raise (KeyError key)
  end.

(** [ctx.invoke(command, ...)]: click runs the command's callback. *)
Definition ctx_invoke (name : string) (callback : M unit) : M unit :=
  log (Invoke name) ;; callback.

(** *** Module constants (lines 23-27) *)

Definition SCRIPT_PATH : path := Path true script_dir.

Definition IS_BUILD_MACHINE : bool :=
  String.eqb (default "" (environ !! "CI")) "true".

Definition INSTALL_ROOT : path :=
  os_path_join SCRIPT_PATH [rel ["builds"]; rel ["install"]].

(** *** [get_signtool] (lines 30-36) *)

Definition get_signtool : M (option string) :=
  match PLATFORM with
  | win =>
      sdk_dir ← environ_getitem "WindowsSdkDir";
      mret (Some (join_text sdk_dir ["bin"; "x86"; "signtool.exe"]))
  | osx => mret (Some "/usr/bin/codesign")
  | linux => mret None
  end.

(** *** [cd] (lines 39-47): [with cd(new_dir): body] *)

Definition cd (new_dir : path) (body : M unit) : M unit :=
  if nonempty new_dir then
    old_dir ← getcwd;
    chdir new_dir ;;
    body ;;
    chdir old_dir
  else body.

(** *** [mkdir_p] (lines 50-54) *)

Definition mkdir_p (p : path) : M unit :=
  d ← isdir p;
  if negb d then
    secho ("Making " +:+ fspath p) ;;
    makedirs p
  else mret tt.

(** *** [build_lib] (lines 120-143) *)

(** The value of an option as it is printed into [-D<key>=<val>]. *)
Definition option_text (val : value) : string :=
  match val with
  | VBool b => if b then "ON" else "OFF"
  | VStr s => s
  end.

Definition define_token (kv : string * value) : string :=
  "-D" +:+ kv.1 +:+ "=" +:+ option_text kv.2.

(** The configure command: lines 127-138.  [build_name] is taken as one
    part of a path, which the six names [libs] passes are. *)
Definition initial_cmake (build_name : string) (generator : option string)
    (options : dict) : list string :=
  let initial_cmake :=
    ["cmake";
     fspath SCRIPT_PATH;
     "-DCMAKE_INSTALL_PREFIX="
       +:+ fspath (os_path_join (rel [".."]) [rel ["install"]; rel [build_name]])] in
  let initial_cmake :=
    match generator with
    | Some g => if String.eqb g "" then initial_cmake
                else initial_cmake ++ ["-G"; g]
    | None => initial_cmake
    end in
  foldl (fun cmd kv => cmd ++ [define_token kv]) initial_cmake options.

Definition cmake_build_debug : list string :=
  ["cmake"; "--build"; "."; "--config"; "Debug"].

Definition cmake_build_release : list string :=
  ["cmake"; "--build"; "."; "--config"; "Release"; "--target"; "install"].

(** [build_name] is one part of the two paths, as in [initial_cmake]. *)
Definition build_lib (build_name : string) (generator : option string)
    (options : dict) (just_release : bool) : M unit :=
  let build_path := os_path_join SCRIPT_PATH [rel ["builds"]; rel [build_name]] in
  let install_path := os_path_join INSTALL_ROOT [rel [build_name]] in
  mkdir_p build_path ;;
  mkdir_p install_path ;;
  cd build_path (
    echo ("--- Building " +:+ build_name) ;;
    check_call (initial_cmake build_name generator options) ;;
    (if negb just_release then check_call cmake_build_debug else mret tt) ;;
    check_call cmake_build_release).

(** *** [archive] (lines 146-160) *)

Definition archive_file_path : path :=
  os_path_join SCRIPT_PATH
    [rel ["builds"]; rel ["discord-rpc-" +:+ platform_name PLATFORM +:+ ".zip"]].

Definition archive : M unit :=
  echo "--- Archiving" ;;
  archive_file ← ZipFile_w archive_file_path;
  let archive_src_base_path := INSTALL_ROOT in
  let archive_dst_base_path := rel ["discord-rpc"] in
  cd archive_src_base_path (
    listing ← walk (rel ["."]);
    for_ listing (fun '(path, _, filenames) =>
      for_ filenames (fun fname =>
        let fpath := os_path_join path [rel [fname]] in
        let dst_path := normpath (os_path_join archive_dst_base_path [fpath]) in
        echo ("Adding " +:+ fspath dst_path) ;;
        ZipFile_write archive_file fpath dst_path))).

(** *** [sign] (lines 163-203) *)

(** The loop of lines 194-203. *)
Definition sign_files (signable_extensions : gset string)
    (sign_command_base : list string) : M unit :=
  echo "--- Signing" ;;
  listing ← walk INSTALL_ROOT;
  for_ listing (fun '(path, _, filenames) =>
    for_ filenames (fun fname =>
      let ext := (os_path_splitext fname).2 in
      if bool_decide (ext ∉ signable_extensions) then mret tt
      else
        let fpath := os_path_join path [rel [fname]] in
        echo ("Sign " +:+ fspath fpath) ;;
        let sign_command := sign_command_base ++ [fspath fpath] in
        check_call sign_command)).

Definition sign_command_base_win (tool : string) : list string :=
  [tool; "sign";
   "/n"; "Hammer & Chisel Inc.";
   "/a";
   "/tr"; "http://timestamp.digicert.com/rfc3161";
   "/as";
   "/td"; "sha256";
   "/fd"; "sha256"].

Definition sign_command_base_osx (tool : string) : list string :=
  [tool;
   "--keychain"; expanduser "~/Library/Keychains/login.keychain";
   "-vvvv";
   "--deep";
   "--force";
   "--sign"; "Developer ID Application: Hammer & Chisel Inc. (53Q6R32WPB)"].

(** [tool] is a string on the two platforms that use it. *)
Definition sign : M unit :=
  tool ← get_signtool;
  let tool := default "" tool in
  let signable_extensions : gset string := ∅ in
  match PLATFORM with
  | win =>
      let signable_extensions := signable_extensions ∪ {[ ".dll" ]} in
      sign_files signable_extensions (sign_command_base_win tool)
  | osx =>
      let signable_extensions := signable_extensions ∪ {[ ".dylib" ]} in
      sign_files signable_extensions (sign_command_base_osx tool)
  | linux =>
      secho "Not signing things on this platform yet"
  end.

(** *** [libs] (lines 206-254) *)

Definition generator32 : string := "Visual Studio 14 2015".
Definition generator64 : string := "Visual Studio 14 2015 Win64".

(** Lines 219-221: with no link mode asked for, both are built. *)
Definition normalize_links (static shared : bool) : bool * bool :=
  if negb (static || shared) then (true, true) else (static, shared).

(** Lines 219-254 without their effects: the calls of [build_lib] the
    function makes, in order. *)
Definition lib_builds (static shared skip_formatter just_release : bool)
    : list variant :=
  let '(static, shared) := normalize_links static shared in
  let static_options : dict := [] in
  let dynamic_options : dict :=
    [("BUILD_SHARED_LIBS", VBool true); ("USE_STATIC_CRT", VBool true)] in
  let '(static_options, dynamic_options) :=
    if skip_formatter || IS_BUILD_MACHINE then
      (setitem "CLANG_FORMAT_SUFFIX" (VStr "none") static_options,
       setitem "CLANG_FORMAT_SUFFIX" (VStr "none") dynamic_options)
    else (static_options, dynamic_options) in
  let just_release := if IS_BUILD_MACHINE then true else just_release in
  match PLATFORM with
  | win =>
      (if static then
         [Variant "win32-static" (Some generator32) static_options just_release;
          Variant "win64-static" (Some generator64) static_options just_release]
       else [])
      ++
      (if shared then
         [Variant "win32-dynamic" (Some generator32) dynamic_options just_release;
          Variant "win64-dynamic" (Some generator64) dynamic_options just_release]
       else [])
  | osx =>
      (if static then [Variant "osx-static" None static_options just_release]
       else [])
      ++
      (if shared then [Variant "osx-dynamic" None dynamic_options just_release]
       else [])
  | linux =>
      (if static then [Variant "linux-static" None static_options just_release]
       else [])
      ++
      (if shared then [Variant "linux-dynamic" None dynamic_options just_release]
       else [])
  end.

Definition libs (clean static shared skip_formatter just_release : bool)
    : M unit :=
  (if clean then rmtree (rel ["builds"]) else mret tt) ;;
  mkdir_p (rel ["builds"]) ;;
  for_ (lib_builds static shared skip_formatter just_release)
    (fun '(Variant name gen opts release_only) =>
       build_lib name gen opts release_only).

(** *** [cli] (lines 57-66) and [for_unity] (lines 75-86) *)

(** [ctx.invoke(libs, clean=clean)]: click fills the parameters that are
    not given with their defaults, [False] for every flag. *)
Definition cli (invoked_subcommand : option string) (clean : bool) : M unit :=
  match invoked_subcommand with
  | None =>
      ctx_invoke "libs" (libs clean false false false false) ;;
      (if IS_BUILD_MACHINE then ctx_invoke "sign" sign else mret tt) ;;
      ctx_invoke "archive" archive
  | Some _ => mret tt
  end.

Definition for_unity : M unit :=
  ctx_invoke "libs" (libs false false true true true).

(** *** [unity] (lines 69-72) and [unreal] (lines 89-117) *)

Definition unity : M unit := mret tt.

Definition UNREAL_PROJECT_PATH : path :=
  os_path_join SCRIPT_PATH
    [rel ["examples"]; rel ["unrealstatus"]; rel ["plugins"]; rel ["discordrpc"]].

Definition BUILD_BASE_PATH : path :=
  os_path_join SCRIPT_PATH
    [rel ["builds"]; rel ["win64-dynamic"]; rel ["src"]; rel ["Release"]].

Definition UNREAL_DLL_PATH : path :=
  os_path_join UNREAL_PROJECT_PATH
    [rel ["Binaries"]; rel ["ThirdParty"]; rel ["discordrpcLibrary"];
     rel ["Win64"]].

Definition UNREAL_INCLUDE_PATH : path :=
  os_path_join UNREAL_PROJECT_PATH
    [rel ["Source"]; rel ["ThirdParty"]; rel ["discordrpcLibrary"];
     rel ["Include"]].

Definition UNREAL_LIB_PATH : path :=
  os_path_join UNREAL_PROJECT_PATH
    [rel ["Source"]; rel ["ThirdParty"]; rel ["discordrpcLibrary"];
     rel ["x64"]; rel ["Release"]].

(** Lines 102-117: the three copies into the example project. *)
Definition unreal_copy_files : M unit :=
  echo "--- Copying libs and header into unreal example" ;;
  mkdir_p UNREAL_DLL_PATH ;;
  shutil_copy (os_path_join BUILD_BASE_PATH [rel ["discord-rpc.dll"]])
              UNREAL_DLL_PATH ;;
  mkdir_p UNREAL_INCLUDE_PATH ;;
  shutil_copy (os_path_join SCRIPT_PATH [rel ["include"]; rel ["discord-rpc.h"]])
              UNREAL_INCLUDE_PATH ;;
  mkdir_p UNREAL_LIB_PATH ;;
  shutil_copy (os_path_join BUILD_BASE_PATH [rel ["discord-rpc.lib"]])
              UNREAL_LIB_PATH.

Definition unreal : M unit :=
  ctx_invoke "libs" (libs false false true true true) ;;
  unreal_copy_files.

(** *** The program (lines 257-259)

    [cli()] is click's entry point: it reads the command line, runs the
    callback of the group ([cli] above, which knows the name of the
    subcommand that follows) and then the subcommand named, if any. *)

Inductive command :=
| Unity
| ForUnity
| Unreal
| Archive
| Sign
| Libs (clean static shared skip_formatter just_release : bool).

(** The name of the function behind a subcommand.  (click 7 and later
    call [for_unity] [for-unity] on the command line; [cli] only tests
    whether a name follows, not which.) *)
Definition command_name (c : command) : string :=
  match c with
  | Unity => "unity"
  | ForUnity => "for_unity"
  | Unreal => "unreal"
  | Archive => "archive"
  | Sign => "sign"
  | Libs _ _ _ _ _ => "libs"
  end.

Definition run_command (c : command) : M unit :=
  match c with
  | Unity => unity
  | ForUnity => for_unity
  | Unreal => unreal
  | Archive => archive
  | Sign => sign
  | Libs clean static shared skip_formatter just_release =>
      libs clean static shared skip_formatter just_release
  end.

(** [python build.py [--clean] [<subcommand> [flags]]] *)
Definition main (clean : bool) (subcommand : option command) : M unit :=
  chdir SCRIPT_PATH ;;
  cli (command_name <$> subcommand) clean ;;
  from_option run_command (mret tt) subcommand.

End Script.

(* ===================================================================== *)
(** * Part III.  Properties                                               *)
(* ===================================================================== *)

(** ** Vocabulary *)

(** The variant is a shared-library build: it carries the option that
    asks for shared libraries. *)
Definition is_shared (v : variant) : bool :=
  has_key "BUILD_SHARED_LIBS" (options v).

(** The variant switches the source formatter off. *)
Definition formatter_disabled (v : variant) : bool :=
  has_key "CLANG_FORMAT_SUFFIX" (options v).

(** The arguments of the commands run, in order. *)
Definition execs (tr : list event) : list (list string) :=
  omap (fun e => match e with Exec argv => Some argv | _ => None end) tr.

(** The commands started through [ctx.invoke], in order. *)
Definition invoked (tr : list event) : list string :=
  omap (fun e => match e with Invoke c => Some c | _ => None end) tr.

Definition is_echo (e : event) : bool :=
  match e with Echo _ => true | _ => false end.

(** What a run does besides printing: the commands it runs and the
    commands it starts through [ctx.invoke], in order. *)
Definition steps (tr : list event) : list event :=
  filter (fun e => negb (is_echo e)) tr.

Definition is_ok {A} (r : result A) : bool :=
  match r with Ok _ => true | Raise _ => false end.

(** Started in [w], [m] only adds to the trace; its steps are [expected]
    when it returns, and the first few of [expected] when it raises. *)
Definition yields {A} (m : M A) (w : world) (expected : list event) : Prop :=
  exists d,
    trace (m w).2 = trace w ++ d
    /\ if is_ok (m w).1 then steps d = expected
       else steps d `prefix_of` expected.

(** [argv] is [cmake --build . --config <config> ...]. *)
Definition builds_config (config : string) (argv : list string) : bool :=
  bool_decide (take 5 argv = ["cmake"; "--build"; "."; "--config"; config]).

(** [argv] holds [--target <t>]. *)
Fixpoint has_target (t : string) (argv : list string) : bool :=
  match argv with
  | a :: rest =>
      match rest with
      | b :: _ => String.eqb a "--target" && String.eqb b t
      | [] => false
      end
      || has_target t rest
  | [] => false
  end.

(** A build step that also installs. *)
Definition build_install_step (config : string) (argv : list string) : bool :=
  builds_config config argv && has_target "install" argv.

(** Every file of a tree: the directory it is in (from the root of the
    tree), its name, and what it holds. *)
Fixpoint tree_files (n : node) : list (list string * string * content) :=
  match n with
  | File _ => []
  | Dir entries =>
      flat_map (fun '(name, child) =>
                  match child with
                  | File data => [([], name, data)]
                  | Dir _ =>
                      map (fun '(d, f, c) => (name :: d, f, c))
                          (tree_files child)
                  end)
               entries
  end.

(** The files an [os.walk] listing names: (directory, file name). *)
Definition listed_files (listing : list (path * list string * list string))
    : list (path * string) :=
  flat_map (fun '(path, _, filenames) =>
              map (fun fname => (path, fname)) filenames)
           listing.

Fixpoint has_char (c : ascii) (s : string) : bool :=
  match s with
  | EmptyString => false
  | String a s' => Ascii.eqb a c || has_char c s'
  end.

(** A name a directory entry can have: not empty, not [.] or [..], and
    without the separator zip uses. *)
Definition valid_name (s : string) : bool :=
  negb (String.eqb s "") && negb (String.eqb s ".")
  && negb (String.eqb s "..") && negb (has_char "/" s).

(** A tree as a file system holds it: valid names, and no name twice in
    one directory. *)
Fixpoint wf_node (n : node) : bool :=
  match n with
  | File _ => true
  | Dir entries =>
      forallb (fun '(name, child) => valid_name name && wf_node child) entries
      && bool_decide (NoDup entries.*1)
  end.

(** The name of the archive, and where it and the install tree are, from
    the root. *)
Definition zip_name (p : platform) : string :=
  "discord-rpc-" +:+ platform_name p +:+ ".zip".

Definition install_parts (script_dir : list string) : list string :=
  normparts true script_dir ++ ["builds"; "install"].

Definition archive_parts (p : platform) (script_dir : list string)
    : list string :=
  normparts true script_dir ++ ["builds"; zip_name p].

(** The member the archive is to hold for a file of the install tree:
    the fixed top-level folder, then the path below the install root, with
    [/] between the parts; and what the file holds. *)
Definition member_of (x : list string * string * content) : string * content :=
  (Str.join "/" ("discord-rpc" :: x.1.1 ++ [x.1.2]), x.2).

(** The extensions the platform signs. *)
Definition signable_extensions (p : platform) : gset string :=
  match p with
  | win => {[ ".dll" ]}
  | osx => {[ ".dylib" ]}
  | linux => ∅
  end.

(** A file the platform signs, by its name. *)
Definition signable (p : platform) (fname : string) : bool :=
  bool_decide ((os_path_splitext p fname).2 ∈ signable_extensions p).

Section Expected.

Variable PLATFORM : platform.
Variable script_dir : list string.
Variable anchor : string.

(** The commands of one [build_lib] that runs to its end. *)
Definition build_steps (v : variant) : list event :=
  [Exec (initial_cmake PLATFORM script_dir anchor
           (build_name v) (generator v) (options v))]
  ++ (if just_release v then [] else [Exec cmake_build_debug])
  ++ [Exec cmake_build_release].

(** The commands one call of [build_lib] runs when started in [w]. *)
Definition build_execs
    (proc : list string -> list string -> node -> Z * node)
    (v : variant) (w : world) : list (list string) :=
  execs (drop (length (trace w))
           (trace (build_lib PLATFORM script_dir anchor proc
                     (build_name v) (generator v) (options v)
                     (just_release v) w).2)).

Variable environ : gmap string string.
Variable expanduser : string -> string.
Variable join_text : string -> list string -> string.

(** The signing tool of the platform, when it has one and it can be
    located. *)
Definition sign_tool : option string :=
  match PLATFORM with
  | win =>
      (fun sdk_dir => join_text sdk_dir ["bin"; "x86"; "signtool.exe"])
      <$> environ !! "WindowsSdkDir"
  | osx => Some "/usr/bin/codesign"
  | linux => None
  end.

(** The command that signs one file, without the file. *)
Definition sign_command_base : list string :=
  match PLATFORM with
  | win => sign_command_base_win (default "" sign_tool)
  | osx => sign_command_base_osx expanduser (default "" sign_tool)
  | linux => []
  end.

(** The command that signs the file [fname] of the directory [dir]. *)
Definition sign_command (base : list string) (dir : path) (fname : string)
    : list string :=
  base ++ [fspath PLATFORM anchor (os_path_join dir [rel [fname]])].

(** The signing commands for an [os.walk] listing, in its order. *)
Definition sign_steps (exts : gset string) (base : list string)
    (listing : list (path * list string * list string)) : list event :=
  flat_map (fun '(path, _, filenames) =>
              flat_map (fun fname =>
                          if bool_decide ((os_path_splitext PLATFORM fname).2
                                          ∉ exts)
                          then []
                          else [Exec (sign_command base path fname)])
                       filenames)
           listing.

(** The steps of the whole pipeline, [sign_cmds] being the commands the
    signing stage runs. *)
Definition pipeline_steps (sign_cmds : list (list string)) : list event :=
  [Invoke "libs"]
  ++ flat_map build_steps (lib_builds PLATFORM environ true true false false)
  ++ (if IS_BUILD_MACHINE environ
      then Invoke "sign" :: (Exec <$> sign_cmds) else [])
  ++ [Invoke "archive"].

(** The commands started through [ctx.invoke] in a full run. *)
Definition pipeline_stages : list string :=
  ["libs"] ++ (if IS_BUILD_MACHINE environ then ["sign"] else [])
  ++ ["archive"].

(** The tree under [INSTALL_ROOT], and what [os.walk] lists of it. *)
Definition install_tree (w : world) : option node :=
  node_at (fs w) (resolve w (INSTALL_ROOT script_dir)).

Definition install_listing (w : world)
    : list (path * list string * list string) :=
  from_option (walk_node (INSTALL_ROOT script_dir)) [] (install_tree w).

End Expected.

(** Induction on a tree, with the property at hand for every entry of a
    directory. *)
Definition node_ind' (P : node -> Prop)
    (HFile : forall data, P (File data))
    (HDir : forall entries, Forall (fun e => P e.2) entries -> P (Dir entries))
    : forall n, P n :=
  fix go (n : node) : P n :=
    match n with
    | File data => HFile data
    | Dir entries =>
        HDir entries
          ((fix all (es : list (string * node)) : Forall (fun e => P e.2) es :=
              match es with
              | [] => List.Forall_nil _
              | e :: es' => List.Forall_cons _ e es' (go e.2) (all es')
              end) entries)
    end.

(** [m] returns when started in [w]. *)
Definition returns {A} (m : M A) (w : world) : Prop := is_ok (m w).1 = true.

(** A part that [normpath] keeps as it is. *)
Definition plain (s : string) : Prop := s <> "" /\ s <> "." /\ s <> "..".

Section Archiving.

Variable p : platform.
Variable script_dir : list string.
Variable anchor : string.
Variable t : list (string * node).    (* the install tree *)
Variable fs0 : node.                  (* the files when [archive] starts *)

(** What holds while the loop of [archive] runs, [ms] being the members
    written so far. *)
Definition archiving (ms : list (string * content)) (w : world) : Prop :=
  cwd w = install_parts script_dir
  /\ node_at (fs w) (archive_parts p script_dir) = Some (File (Zip ms))
  /\ node_at (fs w) (install_parts script_dir) = Some (Dir t)
  /\ (forall q es, node_at fs0 q = Some (Dir es) ->
                   exists es', node_at (fs w) q = Some (Dir es')).

(** A listed file that is where the listing says, holding [x.2]. *)
Definition readable (x : path * string * content) : Prop :=
  absolute x.1.1 = false
  /\ exists q,
       normparts true (install_parts script_dir ++ parts x.1.1 ++ [x.1.2])
       = install_parts script_dir ++ q
       /\ node_at (Dir t) q = Some (File x.2).

(** The member [archive] writes for a listed file holding [x.2]. *)
Definition written (x : path * string * content) : string * content :=
  (zip_member_name
     (normpath (os_path_join (rel ["discord-rpc"])
                  [os_path_join x.1.1 [rel [x.1.2]]])),
   x.2).

(** The body of the loops of [archive] (lines 157-160), for one file. *)
Definition add_file (archive_file : list string) (path : path)
    (fname : string) : M unit :=
  let fpath := os_path_join path [rel [fname]] in
  let dst_path := normpath (os_path_join (rel ["discord-rpc"]) [fpath]) in
  echo ("Adding " +:+ fspath p anchor dst_path) ;;
  ZipFile_write archive_file fpath dst_path.

End Archiving.

(** ** More vocabulary: directories, invariants, names *)

(** Where [build_lib] builds the variant [name], from the root. *)
Definition build_dir (script_dir : list string) (name : string) : list string :=
  normparts true script_dir ++ ["builds"; name].

(** The install prefix [build_lib] hands to cmake (line 130). *)
Definition install_prefix (name : string) : path :=
  os_path_join (rel [".."]) [rel ["install"]; rel [name]].

(** The commands of [build_lib], as run inside [with cd(build_path)]. *)
Definition build_body (p : platform) (script_dir : list string)
    (anchor : string)
    (proc : list string -> list string -> node -> Z * node)
    (name : string) (gen : option string) (opts : dict) (jr : bool) : M unit :=
  echo ("--- Building " +:+ name) ;;
  check_call proc (initial_cmake p script_dir anchor name gen opts) ;;
  (if negb jr then check_call proc cmake_build_debug else mret tt) ;;
  check_call proc cmake_build_release.

(** What lines 132-133 add to the configure command. *)
Definition generator_tokens (gen : option string) : list string :=
  match gen with
  | Some g => if String.eqb g "" then [] else ["-G"; g]
  | None => []
  end.

(** Where [unreal] copies from and to, from the root: (source, target). *)
Definition unreal_copies (script_dir : list string)
    : list (list string * list string) :=
  let checkout := normparts true script_dir in
  let plugin :=
    checkout ++ ["examples"; "unrealstatus"; "plugins"; "discordrpc"] in
  let release := checkout ++ ["builds"; "win64-dynamic"; "src"; "Release"] in
  [(release ++ ["discord-rpc.dll"],
    plugin ++ ["Binaries"; "ThirdParty"; "discordrpcLibrary"; "Win64";
               "discord-rpc.dll"]);
   (checkout ++ ["include"; "discord-rpc.h"],
    plugin ++ ["Source"; "ThirdParty"; "discordrpcLibrary"; "Include";
               "discord-rpc.h"]);
   (release ++ ["discord-rpc.lib"],
    plugin ++ ["Source"; "ThirdParty"; "discordrpcLibrary"; "x64"; "Release";
               "discord-rpc.lib"])].

(** [m] keeps the files in a state that satisfies [P]. *)
Definition preserves (P : node -> Prop) {A} (m : M A) : Prop :=
  forall w, P (fs w) -> P (fs (m w).2).

(** There is a file at [qs], holding [d]. *)
Definition file_at (qs : list string) (d : content) (n : node) : Prop :=
  node_at n qs = Some (File d).

(** There is no file at [qs]. *)
Definition no_file_at (qs : list string) (n : node) : Prop :=
  forall d, node_at n qs <> Some (File d).

(** An external command that removes no file and changes none. *)
Definition keeps_files
    (proc : list string -> list string -> node -> Z * node) : Prop :=
  forall argv cwd files qs d,
    file_at qs d files -> file_at qs d (proc argv cwd files).2.

(** An external command that never makes a file at [qs]. *)
Definition never_makes (qs : list string)
    (proc : list string -> list string -> node -> Z * node) : Prop :=
  forall argv cwd files,
    no_file_at qs files -> no_file_at qs (proc argv cwd files).2.

(** A name that [os.path.join] takes as one part of a path: not empty,
    not [.] or [..], without a separator and, where paths have drives,
    without a colon. *)
Definition single_name (p : platform) (s : string) : bool :=
  negb (String.eqb s "") && negb (String.eqb s ".")
  && negb (String.eqb s "..") && negb (has_char "/" s)
  && match p with
     | win => negb (has_char "\" s) && negb (has_char ":" s)
     | _ => true
     end.

(** What [os.walk(INSTALL_ROOT)] lists of the files [files]. *)
Definition listing_of (script_dir : list string) (files : node)
    : list (path * list string * list string) :=
  from_option (walk_node (INSTALL_ROOT script_dir)) []
    (node_at files (install_parts script_dir)).

(** External commands that leave the names under [INSTALL_ROOT] as they
    are: they add, remove and rename nothing there (what a file holds they
    may change).  Walking the tree while such commands run lists what
    walking it beforehand does. *)
Definition keeps_listing (script_dir : list string)
    (proc : list string -> list string -> node -> Z * node) : Prop :=
  forall argv cwd files,
    listing_of script_dir (proc argv cwd files).2 = listing_of script_dir files.

(** A command, as the directory it is started in and its arguments, can
    exit with the status [returncode]: it does in some state of the
    files. *)
Definition may_exit (proc : list string -> list string -> node -> Z * node)
    (c : list string * list string) (returncode : Z) : Prop :=
  exists files, (proc c.2 c.1 files).1 = returncode.

(** Started in [w], [m] runs the commands [items] in this order, as long
    as they succeed.  When it returns, it has run them all and each has
    exited with status 0.  When one exits with another status, that one
    is the last command run and [m] raises [CalledProcessError] with its
    status and arguments.  When [m] raises anything else, the commands
    run so far have all exited with status 0. *)
Definition stops_at_failure {A}
    (proc : list string -> list string -> node -> Z * node)
    (m : M A) (w : world) (items : list (list string * list string)) : Prop :=
  let ran (l : list (list string * list string)) :=
    execs (trace (m w).2) = execs (trace w) ++ l.*2 in
  let succeeded (c : list string * list string) := may_exit proc c 0%Z in
  match (m w).1 with
  | Ok _ => ran items /\ Forall succeeded items
  | Raise (CalledProcessError returncode cmd) =>
      exists before c after,
        items = before ++ c :: after
        /\ Forall succeeded before
        /\ may_exit proc c returncode /\ returncode <> 0%Z /\ cmd = c.2
        /\ ran (before ++ [c])
  | Raise _ =>
      exists before,
        before `prefix_of` items /\ Forall succeeded before /\ ran before
  end.


(** Nothing but dots (the empty string too). *)
Fixpoint all_dots (s : string) : bool :=
  match s with
  | EmptyString => true
  | String a s' => Ascii.eqb a "." && all_dots s'
  end.

(** ** Sample hosts, for the instances below *)

Module Sample.

Definition raw (s : string) : content := Raw (String.list_byte_of_string s).

Definition script_dir : list string := ["src"; "discord-rpc"].

(** An install tree: two variants and a stray file. *)
Definition install : list (string * node) :=
  [("osx-dynamic",
    Dir [("lib", Dir [("libdiscord-rpc.dylib", File (raw "dylib"))]);
         ("include", Dir [("discord-rpc.h", File (raw "header"))])]);
   ("win64-dynamic",
    Dir [("bin", Dir [("discord-rpc.dll", File (raw "dll"))]);
         ("lib", Dir [("discord-rpc.lib", File (raw "lib"))])]);
   ("notes.txt", File (raw "notes"))].

(** A checkout with that install tree. *)
Definition root : node :=
  Dir [("src",
        Dir [("discord-rpc", Dir [("builds", Dir [("install", Dir install)])])])].

(** A fresh checkout: nothing built yet. *)
Definition fresh : node := Dir [("src", Dir [("discord-rpc", Dir [])])].

Definition w_built : world := World root script_dir [].
Definition w_fresh : world := World fresh script_dir [].

(** Every external command succeeds and leaves the files alone. *)
Definition proc_ok (argv cwd : list string) (files : node) : Z * node :=
  (0%Z, files).

Definition ci : gmap string string := {[ "CI" := "true" ]}.

Definition ci_win : gmap string string :=
  {[ "CI" := "true"; "WindowsSdkDir" := "C:\Kits\10\" ]}.

Definition expanduser (s : string) : string :=
  "/Users/dev" +:+ String.substring 1 (String.length s - 1) s.

(** Joining names to a directory written with backslashes. *)
Definition join_text (a : string) (names : list string) : string :=
  foldl (fun acc name =>
           acc +:+ (if Str.endswith acc "\" then "" else "\") +:+ name)
        a names.


(** The commands succeed when started in [dir] and fail anywhere else. *)
Definition proc_in (dir : list string) (argv cwd : list string) (files : node)
    : Z * node :=
  (if bool_decide (cwd = dir) then 0%Z else 1%Z, files).

(** A checkout with the header and a 64-bit Windows build in it. *)
Definition windows_build : node :=
  Dir [("src",
        Dir [("discord-rpc",
              Dir [("include", Dir [("discord-rpc.h", File (raw "header"))]);
                   ("builds",
                    Dir [("win64-dynamic",
                          Dir [("src",
                                Dir [("Release",
                                      Dir [("discord-rpc.dll", File (raw "dll"));
                                           ("discord-rpc.lib", File (raw "lib"))])])])])])])].

Definition w_windows : world := World windows_build script_dir [].



(** A checkout with the archive of an earlier run and no install tree. *)
Definition stale_archive : node :=
  Dir [("src",
        Dir [("discord-rpc",
              Dir [("builds",
                    Dir [("discord-rpc-linux.zip",
                          File (Zip [("discord-rpc/old", Raw [])]))])])])].

Definition w_stale : world := World stale_archive script_dir [].

End Sample.

(** ** The unattended-run flag and the build matrix *)

Section Matrix.

Variable environ : gmap string string.

Lemma IS_BUILD_MACHINE_true :
  IS_BUILD_MACHINE environ = true <-> environ !! "CI" = Some "true".
Proof.
  unfold IS_BUILD_MACHINE. rewrite String.eqb_eq.
  destruct (environ !! "CI") as [v|]; simpl; split; intros H.
  - by subst.
  - by inversion H.
  - discriminate H.
  - discriminate H.
Qed.

Lemma IS_BUILD_MACHINE_other (v : string) :
  v <> "true" -> IS_BUILD_MACHINE (<["CI" := v]> environ) = false.
Proof.
  intros Hv. unfold IS_BUILD_MACHINE. rewrite lookup_insert_eq. simpl.
  by apply String.eqb_neq.
Qed.

Lemma IS_BUILD_MACHINE_unset : IS_BUILD_MACHINE (delete "CI" environ) = false.
Proof. unfold IS_BUILD_MACHINE. by rewrite lookup_delete_eq. Qed.

Lemma normalize_links_requested (static shared : bool) :
  static || shared = true -> normalize_links static shared = (static, shared).
Proof. unfold normalize_links. by intros ->. Qed.

Lemma normalize_links_some (static shared : bool) :
  (normalize_links static shared).1 || (normalize_links static shared).2 = true.
Proof. by destruct static, shared. Qed.

(** The matrix depends on the link flags only through their normal form. *)
Lemma lib_builds_normalized p static shared skip rel_only :
  lib_builds p environ static shared skip rel_only
  = lib_builds p environ (normalize_links static shared).1
      (normalize_links static shared).2 skip rel_only.
Proof. by destruct static, shared. Qed.

End Matrix.

(** C10.  A run is unattended exactly when the environment variable [CI]
    holds the string [true]; with ["1"], with ["True"] or with no [CI] at
    all the flag is off, and with the flag off the entry points that read
    it ([cli], [libs]) do what they do when [CI] is not set. *)
Theorem unattended_iff_CI_is_true (environ : gmap string string) :
  (IS_BUILD_MACHINE environ = true <-> environ !! "CI" = Some "true")
  /\ IS_BUILD_MACHINE (<["CI" := "1"]> environ) = false
  /\ IS_BUILD_MACHINE (<["CI" := "True"]> environ) = false
  /\ IS_BUILD_MACHINE (delete "CI" environ) = false
  /\ (environ !! "CI" <> Some "true" ->
      forall p script_dir anchor expanduser join_text proc,
        (forall clean static shared skip rel_only,
           libs p environ script_dir anchor proc
                clean static shared skip rel_only
           = libs p (delete "CI" environ) script_dir anchor proc
                  clean static shared skip rel_only)
        /\ (forall sub clean,
              cli p environ script_dir anchor expanduser join_text proc sub clean
              = cli p (delete "CI" environ) script_dir anchor expanduser join_text proc
                    sub clean)).
Proof.
  split; [apply IS_BUILD_MACHINE_true|].
  split; [by apply IS_BUILD_MACHINE_other|].
  split; [by apply IS_BUILD_MACHINE_other|].
  split; [apply IS_BUILD_MACHINE_unset|].
  intros Hci p script_dir anchor expanduser join_text proc.
  assert (Hoff : IS_BUILD_MACHINE environ = false).
  { destruct (IS_BUILD_MACHINE environ) eqn:E; [|done].
    by apply IS_BUILD_MACHINE_true in E. }
  assert (Hlibs : forall clean static shared skip rel_only,
    libs p environ script_dir anchor proc clean static shared skip rel_only
    = libs p (delete "CI" environ) script_dir anchor proc
           clean static shared skip rel_only).
  { intros. unfold libs, lib_builds.
    by rewrite Hoff, IS_BUILD_MACHINE_unset. }
  split; [exact Hlibs|].
  intros [sub|] clean; [done|]. unfold cli.
  by rewrite Hoff, IS_BUILD_MACHINE_unset, Hlibs.
Qed.

Lemma unattended_iff_CI_is_true_witness :
  let environ : gmap string string := {[ "CI" := "1" ]} in
  environ !! "CI" <> Some "true"
  /\ IS_BUILD_MACHINE environ = false
  /\ (forall clean,
        cli linux environ Sample.script_dir "/" Sample.expanduser Sample.join_text
            Sample.proc_ok None clean
        = cli linux (delete "CI" environ) Sample.script_dir "/"
              Sample.expanduser Sample.join_text Sample.proc_ok None clean).
Proof.
  assert (Hne : ({[ "CI" := "1" ]} : gmap string string) !! "CI"
                <> Some "true") by (by vm_compute).
  split; [exact Hne|]. split; [by vm_compute|].
  intros clean.
  destruct (unattended_iff_CI_is_true {[ "CI" := "1" ]})
    as (_ & _ & _ & _ & Hsame).
  destruct (Hsame Hne linux Sample.script_dir "/" Sample.expanduser Sample.join_text
              Sample.proc_ok) as [_ Hcli].
  apply Hcli.
Defined.

(** C4.  With neither link mode asked for, both are taken: the matrix is
    the one of a request for both, and it is not empty.  (It is not empty
    for any request.) *)
Theorem no_link_mode_means_both (environ : gmap string string)
    (p : platform) (static shared skip rel_only : bool) :
  static = false -> shared = false ->
  normalize_links static shared = (true, true)
  /\ lib_builds p environ static shared skip rel_only
     = lib_builds p environ true true skip rel_only
  /\ lib_builds p environ static shared skip rel_only <> []
  /\ (forall s d, lib_builds p environ s d skip rel_only <> []).
Proof.
  intros -> ->. split; [reflexivity|]. split; [reflexivity|].
  assert (Hne : forall s d, lib_builds p environ s d skip rel_only <> []).
  { intros s d. rewrite lib_builds_normalized.
    pose proof (normalize_links_some s d) as Hsome.
    destruct (normalize_links s d) as [s' d']; simpl in *.
    unfold lib_builds.
    destruct p, s', d'; simpl in *; try discriminate Hsome;
      destruct (skip || IS_BUILD_MACHINE environ); discriminate. }
  split; [apply Hne | exact Hne].
Qed.

Lemma no_link_mode_means_both_witness :
  normalize_links false false = (true, true)
  /\ lib_builds linux ∅ false false false false
     = lib_builds linux ∅ true true false false
  /\ lib_builds linux ∅ false false false false <> []
  /\ (forall s d, lib_builds linux ∅ s d false false <> []).
Proof.
  exact (no_link_mode_means_both ∅ linux false false false false
           eq_refl eq_refl).
Defined.

(** C5.  In an unattended run every variant of the matrix is release-only,
    whatever the caller asked for. *)
Theorem unattended_forces_release (environ : gmap string string)
    (p : platform) (static shared skip rel_only : bool) :
  IS_BUILD_MACHINE environ = true ->
  Forall (fun v => just_release v = true)
         (lib_builds p environ static shared skip rel_only).
Proof.
  intros Hci. rewrite lib_builds_normalized.
  destruct (normalize_links static shared) as [s d]; simpl.
  unfold lib_builds. rewrite Hci, orb_true_r.
  destruct p, s, d; simpl; repeat constructor.
Qed.

Lemma unattended_forces_release_witness :
  IS_BUILD_MACHINE {[ "CI" := "true" ]} = true
  /\ Forall (fun v => just_release v = true)
            (lib_builds win {[ "CI" := "true" ]} true true false false).
Proof.
  split; [reflexivity|].
  apply (unattended_forces_release {[ "CI" := "true" ]} win true true
           false false).
  reflexivity.
Defined.

(** C8.  Every variant of the matrix switches the formatter off exactly
    when [skip_formatter] is set or the run is unattended (and then with
    the value [none]); with both off no variant carries the option. *)
Theorem formatter_option_on_every_variant (environ : gmap string string)
    (p : platform) (static shared skip rel_only : bool) :
  Forall (fun v =>
            formatter_disabled v = skip || IS_BUILD_MACHINE environ
            /\ getitem "CLANG_FORMAT_SUFFIX" (options v)
               = if skip || IS_BUILD_MACHINE environ
                 then Some (VStr "none") else None)
         (lib_builds p environ static shared skip rel_only).
Proof.
  rewrite lib_builds_normalized.
  destruct (normalize_links static shared) as [s d]; simpl.
  unfold lib_builds, formatter_disabled.
  destruct (skip || IS_BUILD_MACHINE environ);
    destruct p, s, d; simpl; repeat constructor.
Qed.

(** C2.  On Windows a request for both link modes gives four variants, two
    per link mode, one for each bitness, and the two bitnesses name
    different generators.  On macOS and on Linux the matrix has one variant
    per link mode of the normalised request, [want_static + want_shared] in
    all.  (On Windows, in general, twice that number.) *)
Theorem matrix_size_per_platform (environ : gmap string string)
    (skip rel_only : bool) :
  let m := lib_builds win environ true true skip rel_only in
  length m = 4
  /\ map build_name m
     = ["win32-static"; "win64-static"; "win32-dynamic"; "win64-dynamic"]
  /\ map generator (filter (fun v => negb (is_shared v)) m)
     = [Some generator32; Some generator64]
  /\ map generator (filter (fun v => is_shared v) m)
     = [Some generator32; Some generator64]
  /\ generator32 <> generator64
  /\ forall static shared : bool,
       let n := Nat.b2n (normalize_links static shared).1
                + Nat.b2n (normalize_links static shared).2 in
       let count p := length (lib_builds p environ static shared skip rel_only) in
       let shared_count p :=
         length (filter (fun v => is_shared v)
                        (lib_builds p environ static shared skip rel_only)) in
       count osx = n /\ count linux = n /\ count win = 2 * n
       /\ shared_count osx = Nat.b2n (normalize_links static shared).2
       /\ shared_count linux = Nat.b2n (normalize_links static shared).2
       /\ (static || shared = true ->
           count osx = Nat.b2n static + Nat.b2n shared
           /\ count linux = Nat.b2n static + Nat.b2n shared).
Proof.
  intros m. subst m. unfold lib_builds, is_shared.
  destruct (skip || IS_BUILD_MACHINE environ) eqn:Hfmt; simpl.
  - repeat (split; [reflexivity || discriminate|]).
    intros static shared.
    destruct static, shared; simpl; repeat split; try reflexivity;
      discriminate.
  - repeat (split; [reflexivity || discriminate|]).
    intros static shared.
    destruct static, shared; simpl; repeat split; try reflexivity;
      discriminate.
Qed.

(** What a static variant carries: nothing, or just the formatter switch. *)
Lemma static_variant_options (environ : gmap string string) (p : platform)
    (static shared skip rel_only : bool) :
  Forall (fun v =>
            is_shared v = false ->
            options v = if skip || IS_BUILD_MACHINE environ
                        then [("CLANG_FORMAT_SUFFIX", VStr "none")] else [])
         (lib_builds p environ static shared skip rel_only).
Proof.
  rewrite lib_builds_normalized.
  destruct (normalize_links static shared) as [s d]; simpl.
  unfold lib_builds, is_shared.
  destruct (skip || IS_BUILD_MACHINE environ);
    destruct p, s, d; simpl; repeat constructor; simpl; congruence.
Qed.

(** C9.  Shared only, release only, attended, formatter kept, on macOS or
    Linux: one variant; its name ends in [dynamic]; its options are the two
    booleans [BUILD_SHARED_LIBS] and [USE_STATIC_CRT], both true; the
    configure command ends with their two [-D...=ON] tokens and has no
    other option token; it is release-only, so its build runs the configure
    command and the Release step only.  A static variant of such a run has
    no option at all. *)
Theorem shared_release_scenario (environ : gmap string string) (p : platform) :
  IS_BUILD_MACHINE environ = false ->
  p = osx \/ p = linux ->
  exists v,
    lib_builds p environ false true false true = [v]
    /\ Str.endswith (build_name v) "dynamic" = true
    /\ options v
       = [("BUILD_SHARED_LIBS", VBool true); ("USE_STATIC_CRT", VBool true)]
    /\ just_release v = true
    /\ (forall script_dir anchor,
          initial_cmake p script_dir anchor
                        (build_name v) (generator v) (options v)
          = ["cmake";
             fspath p anchor (SCRIPT_PATH script_dir);
             "-DCMAKE_INSTALL_PREFIX="
               +:+ fspath p anchor (rel [".."; "install"; build_name v]);
             "-DBUILD_SHARED_LIBS=ON";
             "-DUSE_STATIC_CRT=ON"]
          /\ build_steps p script_dir anchor v
             = [Exec (initial_cmake p script_dir anchor
                        (build_name v) (generator v) (options v));
                Exec cmake_build_release])
    /\ (forall static shared rel_only,
          Forall (fun v' => is_shared v' = false -> options v' = [])
                 (lib_builds p environ static shared false rel_only)).
Proof.
  intros Hci Hp.
  assert (Hstatic : forall static shared rel_only,
            Forall (fun v' => is_shared v' = false -> options v' = [])
                   (lib_builds p environ static shared false rel_only)).
  { intros static shared rel_only.
    pose proof (static_variant_options environ p static shared false rel_only)
      as H.
    rewrite Hci in H. exact H. }
  pose (dynamic_options :=
          [("BUILD_SHARED_LIBS", VBool true); ("USE_STATIC_CRT", VBool true)]).
  destruct Hp as [-> | ->].
  - exists (Variant "osx-dynamic" None dynamic_options true).
    split; [unfold lib_builds; by rewrite Hci|].
    do 3 (split; [reflexivity|]).
    split; [intros; split; reflexivity | exact Hstatic].
  - exists (Variant "linux-dynamic" None dynamic_options true).
    split; [unfold lib_builds; by rewrite Hci|].
    do 3 (split; [reflexivity|]).
    split; [intros; split; reflexivity | exact Hstatic].
Qed.

Lemma shared_release_scenario_witness :
  exists v,
    lib_builds linux ∅ false true false true = [v]
    /\ Str.endswith (build_name v) "dynamic" = true
    /\ options v
       = [("BUILD_SHARED_LIBS", VBool true); ("USE_STATIC_CRT", VBool true)]
    /\ just_release v = true
    /\ (forall script_dir anchor,
          initial_cmake linux script_dir anchor
                        (build_name v) (generator v) (options v)
          = ["cmake";
             fspath linux anchor (SCRIPT_PATH script_dir);
             "-DCMAKE_INSTALL_PREFIX="
               +:+ fspath linux anchor (rel [".."; "install"; build_name v]);
             "-DBUILD_SHARED_LIBS=ON";
             "-DUSE_STATIC_CRT=ON"]
          /\ build_steps linux script_dir anchor v
             = [Exec (initial_cmake linux script_dir anchor
                        (build_name v) (generator v) (options v));
                Exec cmake_build_release])
    /\ (forall static shared rel_only,
          Forall (fun v' => is_shared v' = false -> options v' = [])
                 (lib_builds linux ∅ static shared false rel_only)).
Proof.
  apply (shared_release_scenario ∅ linux); [reflexivity | by right].
Defined.

(** ** Running the script: what each function adds to the trace *)

Section Yields.

Lemma steps_app (a b : list event) : steps (a ++ b) = steps a ++ steps b.
Proof. apply filter_app. Qed.

Lemma yields_ret {A} (a : A) w : yields (mret a) w [].
Proof. exists []. simpl. by rewrite app_nil_r. Qed.

Lemma yields_raise {A} (e : exn) w : yields (@raise A e) w [].
Proof. exists []. simpl. by rewrite app_nil_r. Qed.

(** A computation that returns or raises without touching the trace. *)
Lemma yields_silent {A} (m : M A) w :
  trace (m w).2 = trace w -> yields m w [].
Proof.
  intros H. exists []. rewrite H, app_nil_r. split; [done|].
  by destruct (is_ok (m w).1).
Qed.

Lemma yields_bind {A B} (m : M A) (k : A -> M B) w e1 e2 :
  yields m w e1 ->
  (forall a, (m w).1 = Ok a -> yields (k a) (m w).2 e2) ->
  yields (m ≫= k) w (e1 ++ e2).
Proof.
  intros (d1 & Ht1 & Hs1) Hk. unfold yields, mbind, M_bind in *.
  destruct (m w) as [[a|e] w1] eqn:Hm; simpl in *.
  - destruct (Hk a eq_refl) as (d2 & Ht2 & Hs2).
    exists (d1 ++ d2). rewrite Ht2, Ht1, steps_app, Hs1, app_assoc.
    split; [done|].
    destruct (is_ok (k a w1).1); [by rewrite Hs2|].
    by apply prefix_app.
  - exists d1. split; [done|]. by apply prefix_app_r.
Qed.

(** The same, for a continuation whose steps do not depend on the world
    it starts in. *)
Lemma yields_seq {A B} (m : M A) (k : A -> M B) w e1 e2 :
  yields m w e1 ->
  (forall a w', yields (k a) w' e2) ->
  yields (m ≫= k) w (e1 ++ e2).
Proof. intros Hm Hk. apply yields_bind; [done|]. intros a _. apply Hk. Qed.

Lemma yields_for {A} (xs : list A) (body : A -> M unit)
    (e : A -> list event) w :
  (forall x w', yields (body x) w' (e x)) ->
  yields (for_ xs body) w (flat_map e xs).
Proof.
  intros Hbody. revert w. induction xs as [|x xs IH]; intros w; simpl.
  - apply yields_ret.
  - apply yields_seq; [apply Hbody|]. intros _ w'. apply IH.
Qed.

Lemma yields_log (e : event) w :
  yields (log e) w (if is_echo e then [] else [e]).
Proof.
  exists [e]. split; [done|]. simpl. by destruct e.
Qed.

Lemma yields_echo line w : yields (echo line) w [].
Proof. apply (yields_log (Echo line)). Qed.

Lemma yields_secho line w : yields (secho line) w [].
Proof. apply (yields_log (Echo line)). Qed.

Lemma yields_isdir p w : yields (isdir p) w [].
Proof. by apply yields_silent. Qed.

Lemma yields_makedirs p w : yields (makedirs p) w [].
Proof.
  apply yields_silent. unfold makedirs.
  destruct (node_at _ _); [done|]. by destruct (mkdirs _ _).
Qed.

Lemma yields_rmtree p w : yields (rmtree p) w [].
Proof. by apply yields_silent. Qed.

Lemma yields_getcwd w : yields getcwd w [].
Proof. by apply yields_silent. Qed.

Lemma yields_chdir p w : yields (chdir p) w [].
Proof.
  apply yields_silent. unfold chdir.
  by destruct (node_at _ _) as [[|]|].
Qed.

Lemma yields_walk top w : yields (walk top) w [].
Proof. by apply yields_silent. Qed.

Lemma yields_ZipFile_w file w : yields (ZipFile_w file) w [].
Proof.
  apply yields_silent. unfold ZipFile_w.
  destruct (node_at _ _) as [[|]|]; try done; by destruct (node_put _ _ _).
Qed.

Lemma yields_ZipFile_write a f n w : yields (ZipFile_write a f n) w [].
Proof.
  apply yields_silent. unfold ZipFile_write.
  destruct (node_at _ (resolve _ _)); [|done].
  destruct (node_at _ a) as [[[|]|]|]; try done.
  by destruct (node_put _ _ _).
Qed.

Variable PLATFORM : platform.
Variable environ : gmap string string.
Variable script_dir : list string.
Variable anchor : string.
Variable expanduser : string -> string.
Variable join_text : string -> list string -> string.
Variable proc : list string -> list string -> node -> Z * node.

Lemma yields_check_call argv w : yields (check_call proc argv) w [Exec argv].
Proof.
  exists [Exec argv]. unfold check_call.
  destruct (proc argv (cwd w) (fs w)) as [rc files].
  destruct (rc =? 0)%Z; simpl; (split; [done|]); reflexivity.
Qed.

Lemma yields_environ_getitem key w : yields (environ_getitem environ key) w [].
Proof.
  apply yields_silent. unfold environ_getitem. by destruct (environ !! key).
Qed.

Lemma yields_cd new_dir body w e :
  (forall w', yields body w' e) -> yields (cd new_dir body) w e.
Proof.
  intros Hbody. unfold cd. destruct (nonempty new_dir); [|apply Hbody].
  change e with ([] ++ e).
  apply yields_seq; [apply yields_getcwd|]. intros old_dir w1.
  change e with ([] ++ e).
  apply yields_seq; [apply yields_chdir|]. intros _ w2.
  rewrite <- (app_nil_r e).
  apply yields_seq; [apply Hbody|]. intros _ w3. apply yields_chdir.
Qed.

Lemma yields_mkdir_p p w : yields (mkdir_p PLATFORM anchor p) w [].
Proof.
  unfold mkdir_p. change (@nil event) with (@nil event ++ []).
  apply yields_seq; [apply yields_isdir|]. intros d w1.
  destruct d; simpl; [apply yields_ret|].
  change (@nil event) with (@nil event ++ []).
  apply yields_seq; [apply yields_secho|]. intros _ w2.
  apply yields_makedirs.
Qed.

End Yields.

(** ** [build_lib] and [libs] *)

Lemma yields_eq {A} (m : M A) w e e' : yields m w e -> e = e' -> yields m w e'.
Proof. by intros H <-. Qed.

Ltac yields_auto :=
  repeat first
    [ apply yields_ret | apply yields_echo | apply yields_secho
    | apply yields_isdir | apply yields_makedirs | apply yields_rmtree
    | apply yields_getcwd | apply yields_chdir | apply yields_walk
    | apply yields_ZipFile_w | apply yields_ZipFile_write
    | apply yields_check_call | apply yields_environ_getitem
    | apply yields_mkdir_p
    | apply yields_cd; intros
    | eapply yields_seq; [ | intros ] ].

Section BuildLib.

Variable PLATFORM : platform.
Variable environ : gmap string string.
Variable script_dir : list string.
Variable anchor : string.
Variable proc : list string -> list string -> node -> Z * node.

Lemma yields_build_lib (v : variant) w :
  yields (build_lib PLATFORM script_dir anchor proc
            (build_name v) (generator v) (options v) (just_release v))
         w (build_steps PLATFORM script_dir anchor v).
Proof.
  unfold build_lib, build_steps.
  destruct (just_release v); simpl negb; cbv iota.
  - eapply yields_eq; [yields_auto|]. reflexivity.
  - eapply yields_eq; [yields_auto|]. reflexivity.
Qed.

(** The configure command is no build step. *)
Lemma initial_cmake_not_a_build config name gen opts :
  builds_config config (initial_cmake PLATFORM script_dir anchor name gen opts)
  = false.
Proof.
  unfold builds_config. apply bool_decide_eq_false. intros H.
  assert (Hthird :
    initial_cmake PLATFORM script_dir anchor name gen opts !! 2
    = Some ("-DCMAKE_INSTALL_PREFIX="
            +:+ fspath PLATFORM anchor
                  (os_path_join (rel [".."]) [rel ["install"]; rel [name]]))).
  { unfold initial_cmake.
    set (base := [_; _; _]).
    assert (Hgrow : forall (l : list (string * value)) (cmd : list string),
              cmd !! 2 = base !! 2 ->
              foldl (fun cmd kv => cmd ++ [define_token kv]) cmd l !! 2
              = base !! 2).
    { induction l as [|kv l IH]; intros cmd Hcmd; simpl; [done|].
      apply IH. rewrite lookup_app_l; [done|].
      by apply lookup_lt_is_Some; rewrite Hcmd. }
    rewrite Hgrow; [done|].
    destruct gen as [g|]; [|done].
    destruct (String.eqb g ""); [done|].
    by rewrite lookup_app_l by (simpl; lia). }
  assert (Htake : take 5 (initial_cmake PLATFORM script_dir anchor name gen opts)
                  !! 2 = Some ".") by (by rewrite H).
  rewrite lookup_take_lt in Htake by lia.
  rewrite Hthird in Htake. discriminate Htake.
Qed.

Lemma yields_libs clean static shared skip rel_only w :
  yields (libs PLATFORM environ script_dir anchor proc
            clean static shared skip rel_only)
         w (flat_map (build_steps PLATFORM script_dir anchor)
              (lib_builds PLATFORM environ static shared skip rel_only)).
Proof.
  unfold libs.
  eapply yields_eq.
  - eapply yields_seq; [destruct clean; yields_auto|]. intros _ w1.
    eapply yields_seq; [yields_auto|]. intros _ w2.
    apply yields_for with (e := build_steps PLATFORM script_dir anchor).
    intros [name gen opts r] w3.
    apply (yields_build_lib (Variant name gen opts r)).
  - reflexivity.
Qed.

End BuildLib.

(** C6, as the specification words it, fails: the step run for a variant
    that is not release-only builds the Debug configuration and installs
    nothing.  Here a static Linux variant with [just_release = False] is
    built in a fresh checkout, every command succeeding: no command run is
    a Debug build with the [install] target. *)
Lemma debug_step_has_no_install_target :
  let v := Variant "linux-static" None [] false in
  (build_lib linux Sample.script_dir "/" Sample.proc_ok
     (build_name v) (generator v) (options v) (just_release v)
     Sample.w_fresh).1 = Ok tt
  /\ just_release v = false
  /\ ~ (exists argv,
          argv ∈ build_execs linux Sample.script_dir "/" Sample.proc_ok
                   v Sample.w_fresh
          /\ build_install_step "Debug" argv = true).
Proof.
  split; [by vm_compute|]. split; [reflexivity|].
  intros (argv & Hin & Hstep).
  assert (Hrun :
    build_execs linux Sample.script_dir "/" Sample.proc_ok
      (Variant "linux-static" None [] false) Sample.w_fresh
    = [ ["cmake"; "/src/discord-rpc";
         "-DCMAKE_INSTALL_PREFIX=../install/linux-static"];
        cmake_build_debug;
        cmake_build_release ]) by (by vm_compute).
  rewrite Hrun in Hin.
  repeat (apply elem_of_cons in Hin as [-> | Hin]);
    [discriminate Hstep .. | by apply elem_of_nil in Hin].
Qed.

(** C6, as the code has it.  A call of [build_lib] that runs to its end
    runs the configure command, then -- exactly when the variant is not
    release-only -- one build of the Debug configuration, which names no
    target and so installs nothing, and last, in every case, the build of
    the Release configuration with the explicit target [install].  A call
    that is cut short by a failing command has run the first few of
    these. *)
Theorem build_lib_debug_build_then_release_install
    (p : platform) (script_dir : list string) (anchor : string)
    (proc : list string -> list string -> node -> Z * node)
    (v : variant) (w : world) :
  yields (build_lib p script_dir anchor proc
            (build_name v) (generator v) (options v) (just_release v))
         w (build_steps p script_dir anchor v)
  /\ (Exec cmake_build_debug ∈ build_steps p script_dir anchor v
      <-> just_release v = false)
  /\ (forall argv,
        Exec argv ∈ build_steps p script_dir anchor v ->
        builds_config "Debug" argv = true -> argv = cmake_build_debug)
  /\ builds_config "Debug" cmake_build_debug = true
  /\ has_target "install" cmake_build_debug = false
  /\ last (build_steps p script_dir anchor v) = Some (Exec cmake_build_release)
  /\ build_install_step "Release" cmake_build_release = true.
Proof.
  split; [apply yields_build_lib|].
  assert (Hcfg : Exec cmake_build_debug
                 <> Exec (initial_cmake p script_dir anchor
                            (build_name v) (generator v) (options v))).
  { intros H. injection H as H.
    pose proof (initial_cmake_not_a_build p script_dir anchor "Debug"
                  (build_name v) (generator v) (options v)) as Hno.
    by rewrite <- H in Hno. }
  split.
  { unfold build_steps. destruct (just_release v); simpl.
    - split; [|discriminate]. intros Hin.
      apply elem_of_cons in Hin as [Hin | Hin]; [by destruct Hcfg|].
      apply elem_of_cons in Hin as [Hin | Hin]; [discriminate Hin|].
      by apply elem_of_nil in Hin.
    - split; [done|]. intros _. apply elem_of_cons. right.
      apply elem_of_cons. by left. }
  split.
  { intros argv Hin Hdebug. unfold build_steps in Hin.
    apply elem_of_app in Hin as [Hin | Hin].
    - apply list_elem_of_singleton in Hin. injection Hin as ->.
      by rewrite initial_cmake_not_a_build in Hdebug.
    - apply elem_of_app in Hin as [Hin | Hin].
      + destruct (just_release v); [by apply elem_of_nil in Hin|].
        apply list_elem_of_singleton in Hin. by injection Hin.
      + apply list_elem_of_singleton in Hin. injection Hin as ->.
        discriminate Hdebug. }
  split; [reflexivity|]. split; [reflexivity|].
  split; [|reflexivity].
  unfold build_steps. by destruct (just_release v).
Qed.

(** ** Trees: induction, lookup, and what [os.walk] lists *)

Lemma join2_name (top : path) (name : string) :
  join2 top (rel [name]) = Path (absolute top) (parts top ++ [name]).
Proof. reflexivity. Qed.

Lemma listed_files_app l1 l2 :
  listed_files (l1 ++ l2) = listed_files l1 ++ listed_files l2.
Proof. unfold listed_files. apply flat_map_app. Qed.

(** [os.walk] lists every file of the tree once: its listing is the files
    of the tree, in another order. *)
Lemma walk_lists_tree_files (n : node) : forall top,
  listed_files (walk_node top n)
  ≡ₚ map (fun '(d, f, _) => (Path (absolute top) (parts top ++ d), f))
         (tree_files n).
Proof.
  induction n as [data | entries IH] using node_ind'; intros top; [done|].
  simpl walk_node. simpl tree_files.
  change (listed_files (?x :: ?l))
    with ((let '(path, _, filenames) := x in
           map (fun fname => (path, fname)) filenames) ++ listed_files l).
  cbv beta iota.
  induction entries as [|[name child] entries IHes]; [done|].
  apply Forall_cons_1 in IH as [Hchild IH]. specialize (IHes IH).
  simpl flat_map. rewrite listed_files_app, !map_app.
  destruct child as [data | es].
  - unfold filenames. rewrite filter_cons_True by done. simpl.
    rewrite app_nil_r. destruct top as [a ps]. simpl. f_equiv.
    exact IHes.
  - unfold filenames. rewrite filter_cons_False by (by intros []).
    fold (filenames entries).
    rewrite (Hchild (join2 top (rel [name]))).
    rewrite Permutation_app_swap_app. apply Permutation_app; [|exact IHes].
    rewrite map_map.
    erewrite map_ext; [reflexivity|].
    intros [[d f] c]. simpl. by rewrite <- app_assoc.
Qed.

(** ** [sign] *)

Lemma returns_bind {A B} (m : M A) (k : A -> M B) w :
  returns m w ->
  (forall a, (m w).1 = Ok a -> returns (k a) (m w).2) ->
  returns (m ≫= k) w.
Proof.
  unfold returns, mbind, M_bind. intros Hm Hk.
  destruct (m w) as [[a|e] w1]; [by apply Hk | discriminate Hm].
Qed.

Lemma returns_for {A} (xs : list A) (body : A -> M unit) w :
  (forall x w', returns (body x) w') -> returns (for_ xs body) w.
Proof.
  intros Hbody. revert w. induction xs as [|x xs IH]; intros w; [done|].
  simpl. apply returns_bind; [apply Hbody|]. intros _ _. apply IH.
Qed.

Section Sign.

Variable environ : gmap string string.
Variable script_dir : list string.
Variable anchor : string.
Variable expanduser : string -> string.
Variable join_text : string -> list string -> string.
Variable proc : list string -> list string -> node -> Z * node.

Lemma returns_check_call argv w :
  (proc argv (cwd w) (fs w)).1 = 0%Z -> returns (check_call proc argv) w.
Proof.
  unfold returns, check_call. intros H.
  destruct (proc argv (cwd w) (fs w)) as [rc files]. simpl in H.
  by rewrite H.
Qed.

Lemma yields_sign_files (PLATFORM : platform) (exts : gset string) (base : list string) w :
  yields (sign_files PLATFORM script_dir anchor proc exts base) w
         (sign_steps PLATFORM anchor exts base (install_listing script_dir w)).
Proof.
  unfold sign_files.
  eapply yields_eq.
  - apply yields_bind; [apply yields_echo|]. intros _ _.
    apply yields_bind; [apply yields_walk|]. intros listing Hwalk.
    injection Hwalk as <-.
    apply yields_for with
      (e := fun '(path, _, filenames) =>
              flat_map (fun fname =>
                          if bool_decide ((os_path_splitext PLATFORM fname).2
                                          ∉ exts)
                          then []
                          else [Exec (sign_command PLATFORM anchor base
                                        path fname)])
                       filenames).
    intros [[path dirs] filenames] w1.
    apply yields_for. intros fname w2. cbv zeta.
    destruct (bool_decide _); [apply yields_ret|].
    eapply yields_eq; [yields_auto|]. reflexivity.
  - reflexivity.
Qed.

Lemma returns_sign_files (PLATFORM : platform) (exts : gset string) (base : list string) w :
  (forall argv dir files, (proc argv dir files).1 = 0%Z) ->
  returns (sign_files PLATFORM script_dir anchor proc exts base) w.
Proof.
  intros Hproc. unfold sign_files.
  apply returns_bind; [done|]. intros _ _.
  apply returns_bind; [done|]. intros listing _.
  apply returns_for. intros [[path dirs] filenames] w1.
  apply returns_for. intros fname w2. cbv zeta.
  destruct (bool_decide _); [done|].
  apply returns_bind; [done|]. intros _ _. by apply returns_check_call.
Qed.

(** [get_signtool] returns the tool described above, or raises for want
    of [WindowsSdkDir]; it leaves the world alone. *)
Lemma get_signtool_result (PLATFORM : platform) w :
  get_signtool PLATFORM environ join_text w
  = (match PLATFORM, sign_tool PLATFORM environ join_text with
     | win, None => Raise (KeyError "WindowsSdkDir")
     | _, tool => Ok tool
     end, w).
Proof.
  unfold get_signtool, sign_tool, environ_getitem.
  destruct PLATFORM; [|done..].
  unfold mbind, M_bind. by destruct (environ !! "WindowsSdkDir").
Qed.

Lemma yields_sign (PLATFORM : platform) w :
  yields (sign PLATFORM environ script_dir anchor expanduser join_text proc) w
         (sign_steps PLATFORM anchor (signable_extensions PLATFORM)
            (sign_command_base PLATFORM environ expanduser join_text)
            (install_listing script_dir w)).
Proof.
  unfold sign.
  rewrite <- (app_nil_l (sign_steps _ _ _ _ _)).
  apply yields_bind.
  { apply yields_silent. by rewrite get_signtool_result. }
  intros tool Htool. rewrite get_signtool_result in *. cbn [fst snd] in *.
  unfold sign_command_base, signable_extensions.
  destruct PLATFORM.
  - destruct (sign_tool win environ join_text) as [t|] eqn:Ht; [|done].
    injection Htool as <-. simpl.
    replace (∅ ∪ {[".dll"]} : gset string) with ({[".dll"]} : gset string)
      by (by rewrite (left_id_L ∅ (∪))).
    apply yields_sign_files.
  - injection Htool as <-. simpl.
    replace (∅ ∪ {[".dylib"]} : gset string)
      with ({[".dylib"]} : gset string)
      by (by rewrite (left_id_L ∅ (∪))).
    apply yields_sign_files.
  - unfold install_listing.
    assert (Hnone : forall l, sign_steps linux anchor ∅ [] l = []).
    { induction l as [|[[path dirs] filenames] l IH]; [done|].
      simpl. rewrite IH, app_nil_r.
      induction filenames as [|f fs IHf]; [done|]. simpl.
      rewrite IHf. by rewrite bool_decide_eq_true_2 by set_solver. }
    rewrite Hnone. apply yields_secho.
Qed.

Lemma returns_sign (PLATFORM : platform) w :
  (PLATFORM = win -> is_Some (environ !! "WindowsSdkDir")) ->
  (forall argv dir files, (proc argv dir files).1 = 0%Z) ->
  returns (sign PLATFORM environ script_dir anchor expanduser join_text proc) w.
Proof.
  intros Htool Hproc. unfold sign.
  apply returns_bind.
  { unfold returns. rewrite get_signtool_result. simpl.
    unfold sign_tool. destruct PLATFORM; [|done..].
    by destruct (Htool eq_refl) as [sdk ->]. }
  intros tool _. rewrite get_signtool_result. simpl.
  destruct PLATFORM; [by apply returns_sign_files..|done].
Qed.

End Sign.

Lemma execs_steps (d : list event) : execs (steps d) = execs d.
Proof.
  induction d as [|[line|argv|c] d IH]; [done|..]; unfold steps in *.
  - by rewrite filter_cons_False by (by intros []).
  - rewrite filter_cons_True by done. simpl. by rewrite <- IH.
  - rewrite filter_cons_True by done. exact IH.
Qed.

Lemma execs_Exec (l : list (list string)) : execs (Exec <$> l) = l.
Proof. induction l as [|x l IH]; [done|]. simpl. f_equal. exact IH. Qed.

Lemma invoked_Exec (l : list (list string)) : invoked (Exec <$> l) = [].
Proof. by induction l. Qed.

(** The signing commands of a listing: one for each listed file with a
    signable extension, in the order of the listing. *)
Lemma sign_steps_listed p anchor (exts : gset string) base listing :
  sign_steps p anchor exts base listing
  = Exec <$> ((fun x => sign_command p anchor base x.1 x.2)
              <$> filter (fun x => (os_path_splitext p x.2).2 ∈ exts)
                         (listed_files listing)).
Proof.
  induction listing as [|[[dir dirs] filenames] listing IH]; [done|].
  unfold sign_steps, listed_files in *. simpl flat_map.
  rewrite IH, filter_app, !fmap_app. f_equal.
  induction filenames as [|f filenames IHf]; [done|].
  simpl. rewrite IHf. rewrite filter_cons. simpl.
  destruct (decide ((os_path_splitext p f).2 ∈ exts)) as [Hin | Hout].
  - by rewrite bool_decide_eq_false_2 by (by intros Hn).
  - by rewrite bool_decide_eq_true_2.
Qed.

(** What counts as the extension: the text from the last dot of the name,
    a name made of leading dots and no other dot having none. *)
Lemma os_path_splitext_examples :
  os_path_splitext osx "libdiscord-rpc.dylib" = ("libdiscord-rpc", ".dylib")
  /\ os_path_splitext win "discord-rpc.dll" = ("discord-rpc", ".dll")
  /\ os_path_splitext win "discord-rpc.dll.bak" = ("discord-rpc.dll", ".bak")
  /\ os_path_splitext win ".dll" = (".dll", "")
  /\ os_path_splitext win "README" = ("README", "")
  /\ signable win "discord-rpc.dll" = true
  /\ signable win "discord-rpc.DLL" = false
  /\ signable osx "discord-rpc.dll" = false
  /\ signable linux "libdiscord-rpc.so" = false.
Proof. repeat split; by vm_compute. Qed.

(** C7.  With the signing tool at hand, every invocation of it succeeding
    and leaving the names under [INSTALL_ROOT] as they are (it signs a file
    in place), [sign] returns having run the signing command once for each
    file under [INSTALL_ROOT] whose extension the platform signs, and for
    no other file: N commands for N such files, whatever the number M of
    the others.  On Linux, which has no signing tool, it runs nothing,
    prints one line and returns. *)
Theorem sign_runs_once_per_signable_file
    (p : platform) (environ : gmap string string) (script_dir : list string)
    (anchor : string) (expanduser : string -> string)
    (join_text : string -> list string -> string)
    (proc : list string -> list string -> node -> Z * node) (w : world) :
  (p = win -> is_Some (environ !! "WindowsSdkDir")) ->
  (forall argv dir files, (proc argv dir files).1 = 0%Z) ->
  keeps_listing script_dir proc ->
  let files := from_option tree_files [] (install_tree script_dir w) in
  let signed := filter (fun x => signable p x.1.2) files in
  let others := filter (fun x => ~ signable p x.1.2) files in
  let run := sign p environ script_dir anchor expanduser join_text proc w in
  exists d,
    run.1 = Ok tt
    /\ trace run.2 = trace w ++ d
    /\ execs d
       ≡ₚ (fun x =>
             sign_command p anchor
               (sign_command_base p environ expanduser join_text)
               (Path true (parts (INSTALL_ROOT script_dir) ++ x.1.1)) x.1.2)
          <$> signed
    /\ length (execs d) = length signed
    /\ length signed + length others = length files
    /\ (p = linux ->
        d = [Echo "Not signing things on this platform yet"]
        /\ execs d = []).
Proof.
  intros Htool Hproc _ files signed others run.
  pose proof (returns_sign environ script_dir anchor expanduser join_text proc p w
                Htool Hproc) as Hret.
  destruct (yields_sign environ script_dir anchor expanduser join_text proc p w)
    as (d & Htrace & Hsteps).
  subst run. unfold returns in Hret.
  rewrite Hret in Hsteps. exists d.
  split; [by destruct (sign _ _ _ _ _ _ _ _).1 as [[]|]|].
  split; [exact Htrace|].
  assert (Hexecs :
    execs d
    ≡ₚ (fun x =>
          sign_command p anchor
            (sign_command_base p environ expanduser join_text)
            (Path true (parts (INSTALL_ROOT script_dir) ++ x.1.1)) x.1.2)
       <$> signed).
  { rewrite <- execs_steps, Hsteps, sign_steps_listed, execs_Exec.
    unfold signed, files, install_listing.
    destruct (install_tree script_dir w) as [n|]; simpl; [|done].
    rewrite (walk_lists_tree_files n (INSTALL_ROOT script_dir)).
    clear. induction (tree_files n) as [|[[dd f] c] l IH]; [done|].
    simpl. rewrite !filter_cons. simpl. unfold signable at 1.
    destruct (decide ((os_path_splitext p f).2 ∈ signable_extensions p))
      as [Hin | Hout].
    - rewrite decide_True by (by apply bool_decide_pack).
      simpl. by rewrite IH.
    - rewrite decide_False by (by intros H%bool_decide_unpack).
      exact IH. }
  split; [exact Hexecs|].
  split; [by rewrite Hexecs, length_fmap|].
  split.
  { unfold signed, others. clear.
    induction files as [|x l IH]; [done|].
    rewrite !filter_cons. destruct (decide (signable p x.1.2)) as [Hs | Hs].
    - rewrite decide_False by (by intros Hn). simpl. by rewrite IH.
    - rewrite decide_True by done. simpl. rewrite <- IH. lia. }
  intros ->.
  assert (Hd : trace (sign linux environ script_dir anchor expanduser join_text
                            proc w).2
               = trace w ++ [Echo "Not signing things on this platform yet"])
    by reflexivity.
  rewrite Htrace in Hd. apply app_inv_head in Hd. by subst d.
Qed.

Lemma sign_runs_once_per_signable_file_witness :
  let p := win in
  let w := Sample.w_built in
  let files := from_option tree_files [] (install_tree Sample.script_dir w) in
  let signed := filter (fun x => signable p x.1.2) files in
  let others := filter (fun x => ~ signable p x.1.2) files in
  let run := sign p Sample.ci_win Sample.script_dir "C:\" Sample.expanduser Sample.join_text
                  Sample.proc_ok w in
  (length signed = 1 /\ length others = 4)
  /\ exists d,
    run.1 = Ok tt
    /\ trace run.2 = trace w ++ d
    /\ execs d
       ≡ₚ (fun x =>
             sign_command p "C:\"
               (sign_command_base p Sample.ci_win Sample.expanduser Sample.join_text)
               (Path true (parts (INSTALL_ROOT Sample.script_dir) ++ x.1.1))
               x.1.2)
          <$> signed
    /\ length (execs d) = length signed
    /\ length signed + length others = length files
    /\ (p = linux ->
        d = [Echo "Not signing things on this platform yet"]
        /\ execs d = []).
Proof.
  split; [by vm_compute|].
  apply (sign_runs_once_per_signable_file win Sample.ci_win Sample.script_dir
           "C:\" Sample.expanduser Sample.join_text Sample.proc_ok Sample.w_built).
  - intros _. by eexists.
  - reflexivity.
  - by intros argv cwd files.
Defined.

(** ** [archive] and [cli]: the order of the stages *)

Lemma yields_for_silent {A} (xs : list A) (body : A -> M unit) w :
  (forall x w', yields (body x) w' []) -> yields (for_ xs body) w [].
Proof.
  intros Hbody.
  apply (yields_eq _ _ (flat_map (fun _ => []) xs)).
  - apply yields_for. exact Hbody.
  - by induction xs.
Qed.

Lemma invoked_steps (d : list event) : invoked (steps d) = invoked d.
Proof.
  induction d as [|[line|argv|c] d IH]; [done|..]; unfold steps in *.
  - by rewrite filter_cons_False by (by intros []).
  - rewrite filter_cons_True by done. exact IH.
  - rewrite filter_cons_True by done. simpl. by rewrite <- IH.
Qed.

Lemma steps_Invoke (c : string) (d : list event) :
  steps (Invoke c :: d) = Invoke c :: steps d.
Proof. reflexivity. Qed.

Lemma invoked_app (a b : list event) : invoked (a ++ b) = invoked a ++ invoked b.
Proof. apply omap_app. Qed.

Lemma invoked_prefix (a b : list event) :
  a `prefix_of` b -> invoked a `prefix_of` invoked b.
Proof. intros [k ->]. rewrite invoked_app. by apply prefix_app_r. Qed.

Lemma invoked_build_steps p script_dir anchor (l : list variant) :
  invoked (flat_map (build_steps p script_dir anchor) l) = [].
Proof.
  induction l as [|v l IH]; [done|]. cbn [flat_map].
  rewrite invoked_app, IH, app_nil_r.
  unfold build_steps. by destruct (just_release v).
Qed.

Section Cli.

Variable environ : gmap string string.
Variable script_dir : list string.
Variable anchor : string.
Variable expanduser : string -> string.
Variable join_text : string -> list string -> string.
Variable proc : list string -> list string -> node -> Z * node.

Lemma yields_archive (p : platform) w :
  yields (archive p script_dir anchor) w [].
Proof.
  unfold archive.
  eapply yields_eq.
  - eapply yields_seq; [apply yields_echo|]. intros _ w1.
    eapply yields_seq; [apply yields_ZipFile_w|]. intros archive_file w2.
    apply yields_cd. intros w3.
    eapply yields_seq; [apply yields_walk|]. intros listing w4.
    apply yields_for_silent. intros [[path dirs] filenames] w5.
    apply yields_for_silent. intros fname w6. cbv zeta.
    eapply yields_eq; [yields_auto|]. reflexivity.
  - reflexivity.
Qed.

(** The stages of [cli] after the first [ctx.invoke] has been noted. *)
Lemma yields_pipeline (p : platform) clean w :
  exists sign_cmds,
    yields
      (libs p environ script_dir anchor proc clean false false false false ;;
       (if IS_BUILD_MACHINE environ
        then ctx_invoke "sign"
               (sign p environ script_dir anchor expanduser join_text proc)
        else mret tt) ;;
       ctx_invoke "archive" (archive p script_dir anchor))
      w
      (flat_map (build_steps p script_dir anchor)
         (lib_builds p environ true true false false)
       ++ (if IS_BUILD_MACHINE environ
           then Invoke "sign" :: (Exec <$> sign_cmds) else [])
       ++ [Invoke "archive"]).
Proof.
  set (w1 := (libs p environ script_dir anchor proc
                clean false false false false w).2).
  pose proof (yields_sign environ script_dir anchor expanduser join_text proc p
                (log (Invoke "sign") w1).2) as Hsign.
  rewrite sign_steps_listed in Hsign.
  eexists.
  apply yields_bind; [by eapply yields_eq; [apply yields_libs|]|].
  intros _ _. fold w1.
  apply yields_bind.
  - destruct (IS_BUILD_MACHINE environ); [|apply yields_ret].
    unfold ctx_invoke.
    apply (yields_bind _ _ _ [Invoke "sign"]);
      [apply (yields_log (Invoke "sign"))|].
    intros _ _. exact Hsign.
  - intros _ _. unfold ctx_invoke.
    eapply yields_eq.
    + eapply yields_seq; [apply (yields_log (Invoke "archive"))|].
      intros _ w3. apply yields_archive.
    + reflexivity.
Qed.

End Cli.

(** Every run of the default entry point, also one that a failing stage
    cuts short: [libs] is started first, the stages started are the first
    few of [libs], [sign] (unattended runs only), [archive], and every
    command run is one of the stage that was started last. *)
Lemma cli_stages
    (p : platform) (environ : gmap string string) (script_dir : list string)
    (anchor : string) (expanduser : string -> string)
    (join_text : string -> list string -> string)
    (proc : list string -> list string -> node -> Z * node)
    (clean : bool) (w : world) :
  let run := cli p environ script_dir anchor expanduser join_text proc None clean w in
  exists d sign_cmds,
    trace run.2 = trace w ++ d
    /\ (exists rest, invoked d = "libs" :: rest)
    /\ steps d `prefix_of` pipeline_steps p script_dir anchor environ sign_cmds
    /\ invoked d `prefix_of` pipeline_stages environ
    /\ ("sign" ∈ invoked d -> IS_BUILD_MACHINE environ = true)
    /\ (run.1 = Ok tt ->
        steps d = pipeline_steps p script_dir anchor environ sign_cmds
        /\ invoked d = pipeline_stages environ
        /\ last (invoked d) = Some "archive"
        /\ ("sign" ∈ invoked d <-> IS_BUILD_MACHINE environ = true)).
Proof.
  intros run.
  set (w0 := (log (Invoke "libs") w).2).
  destruct (yields_pipeline environ script_dir anchor expanduser join_text proc p
              clean w0) as (sign_cmds & d' & Htrace & Hsteps).
  assert (Hrun : run = (libs p environ script_dir anchor proc clean
                          false false false false ;;
                        (if IS_BUILD_MACHINE environ
                         then ctx_invoke "sign"
                                (sign p environ script_dir anchor
                                   expanduser join_text proc)
                         else mret tt) ;;
                        ctx_invoke "archive" (archive p script_dir anchor))
                       w0) by reflexivity.
  rewrite <- Hrun in Htrace, Hsteps.
  exists (Invoke "libs" :: d'), sign_cmds.
  assert (Hstages : forall cmds,
            invoked (pipeline_steps p script_dir anchor environ cmds)
            = pipeline_stages environ).
  { intros cmds. unfold pipeline_steps, pipeline_stages.
    rewrite !invoked_app, invoked_build_steps.
    destruct (IS_BUILD_MACHINE environ); [|done].
    simpl. by rewrite invoked_Exec. }
  assert (Hpre : steps (Invoke "libs" :: d')
                 `prefix_of` pipeline_steps p script_dir anchor environ
                               sign_cmds).
  { rewrite steps_Invoke. unfold pipeline_steps. cbn [app].
    apply prefix_cons.
    destruct (is_ok run.1); [by rewrite Hsteps | exact Hsteps]. }
  assert (Hinv : invoked (Invoke "libs" :: d') `prefix_of` pipeline_stages environ).
  { rewrite <- invoked_steps, <- (Hstages sign_cmds). by apply invoked_prefix. }
  assert (Hsign : "sign" ∈ invoked (Invoke "libs" :: d') ->
                  IS_BUILD_MACHINE environ = true).
  { intros Hin. destruct Hinv as [k Hk].
    assert (Hin' : "sign" ∈ pipeline_stages environ)
      by (rewrite Hk; apply elem_of_app; by left).
    unfold pipeline_stages in Hin'.
    destruct (IS_BUILD_MACHINE environ); [done|].
    simpl in Hin'. apply elem_of_cons in Hin' as [Hin' | Hin']; [done|].
    apply list_elem_of_singleton in Hin'. discriminate Hin'. }
  split; [rewrite Htrace; unfold w0; simpl; by rewrite <- app_assoc|].
  split; [by eexists|].
  split; [exact Hpre|]. split; [exact Hinv|]. split; [exact Hsign|].
  intros Hok. rewrite Hok in Hsteps. simpl in Hsteps.
  assert (Hall : steps (Invoke "libs" :: d')
                 = pipeline_steps p script_dir anchor environ sign_cmds).
  { rewrite steps_Invoke. unfold pipeline_steps. cbn [app].
    f_equal. exact Hsteps. }
  assert (Hinvall : invoked (Invoke "libs" :: d') = pipeline_stages environ)
    by (by rewrite <- invoked_steps, Hall, Hstages).
  split; [exact Hall|]. split; [exact Hinvall|].
  rewrite Hinvall. unfold pipeline_stages.
  destruct (IS_BUILD_MACHINE environ); simpl.
  - split; [done|]. split; [done|]. intros _.
    apply elem_of_cons. right. apply elem_of_cons. by left.
  - split; [done|]. split; [|discriminate]. intros Hin.
    apply elem_of_cons in Hin as [Hin | Hin]; [discriminate Hin|].
    apply list_elem_of_singleton in Hin. discriminate Hin.
Qed.

(** C3.  A run of the default entry point in which no stage raises starts
    [libs] first, with no flag but [clean], so for the full matrix of the
    platform, then [sign] if and only if the run is unattended, and then,
    in every case, [archive], which is the last stage; the commands it runs
    are those of the builds, then those of the signing, in this order. *)
Theorem default_entry_point_sequence
    (p : platform) (environ : gmap string string) (script_dir : list string)
    (anchor : string) (expanduser : string -> string)
    (join_text : string -> list string -> string)
    (proc : list string -> list string -> node -> Z * node)
    (clean : bool) (w : world) :
  let run := cli p environ script_dir anchor expanduser join_text proc None clean w in
  run.1 = Ok tt ->
  exists d sign_cmds,
    trace run.2 = trace w ++ d
    /\ steps d = pipeline_steps p script_dir anchor environ sign_cmds
    /\ invoked d = ["libs"] ++ (if IS_BUILD_MACHINE environ then ["sign"] else [])
                   ++ ["archive"]
    /\ head (invoked d) = Some "libs"
    /\ last (invoked d) = Some "archive"
    /\ ("sign" ∈ invoked d <-> IS_BUILD_MACHINE environ = true).
Proof.
  intros run Hok.
  destruct (cli_stages p environ script_dir anchor expanduser join_text proc clean w)
    as (d & sign_cmds & Htrace & [rest Hfirst] & _ & _ & _ & Hfull).
  destruct (Hfull Hok) as (Hsteps & Hinv & Hlast & Hsign).
  exists d, sign_cmds. split; [exact Htrace|]. split; [exact Hsteps|].
  split; [exact Hinv|]. split; [by rewrite Hfirst|].
  split; [exact Hlast | exact Hsign].
Qed.

Lemma default_entry_point_sequence_witness :
  let environ := Sample.ci in
  let run := cli linux environ Sample.script_dir "/" Sample.expanduser Sample.join_text
                 Sample.proc_ok None false Sample.w_fresh in
  run.1 = Ok tt
  /\ exists d sign_cmds,
    trace run.2 = trace Sample.w_fresh ++ d
    /\ steps d = pipeline_steps linux Sample.script_dir "/" environ sign_cmds
    /\ invoked d = ["libs"] ++ (if IS_BUILD_MACHINE environ then ["sign"] else [])
                   ++ ["archive"]
    /\ head (invoked d) = Some "libs"
    /\ last (invoked d) = Some "archive"
    /\ ("sign" ∈ invoked d <-> IS_BUILD_MACHINE environ = true).
Proof.
  split; [by vm_compute|].
  apply (default_entry_point_sequence linux Sample.ci Sample.script_dir "/"
           Sample.expanduser Sample.join_text Sample.proc_ok false Sample.w_fresh).
  by vm_compute.
Defined.

(** ** Paths, normalised *)

Lemma valid_name_plain s : valid_name s = true -> plain s.
Proof.
  unfold valid_name, plain. rewrite !andb_true_iff, !negb_true_iff.
  intros [[[H1 H2] H3] _]. by rewrite <- !String.eqb_neq.
Qed.

Lemma normpath_step_plain a acc s :
  plain s -> normpath_step a acc s = acc ++ [s].
Proof.
  intros (H1 & H2 & H3). unfold normpath_step.
  apply String.eqb_neq in H1, H2, H3. by rewrite H1, H2, H3.
Qed.

Lemma normpath_step_dot a acc : normpath_step a acc "." = acc.
Proof. reflexivity. Qed.

Lemma normparts_app a xs ys :
  normparts a (xs ++ ys) = foldl (normpath_step a) (normparts a xs) ys.
Proof. unfold normparts. apply foldl_app. Qed.

Lemma foldl_normpath_step_plain a acc names :
  Forall plain names -> foldl (normpath_step a) acc names = acc ++ names.
Proof.
  intros H. revert acc. induction H as [|s names Hs _ IH]; intros acc; simpl.
  - by rewrite app_nil_r.
  - rewrite normpath_step_plain, IH by done. by rewrite <- app_assoc.
Qed.

Lemma normparts_plain a names : Forall plain names -> normparts a names = names.
Proof. intros H. unfold normparts. by rewrite foldl_normpath_step_plain. Qed.

(** From the root, what [normpath] leaves has plain parts only. *)
Lemma normparts_abs_plain xs : Forall plain (normparts true xs).
Proof.
  induction xs as [|x xs IH] using rev_ind; [constructor|].
  rewrite normparts_app. simpl. unfold normpath_step.
  destruct (String.eqb x "") eqn:H1; [done|].
  destruct (String.eqb x ".") eqn:H2; [done|]. simpl.
  destruct (String.eqb x "..") eqn:H3; simpl.
  - assert (Hlast : String.eqb (List.last (normparts true xs) "") ".." = false).
    { clear -IH. induction IH as [|y ys Hy _ IHys]; [done|].
      destruct ys as [|y' ys]; [|exact IHys].
      simpl. apply String.eqb_neq. by destruct Hy as (_ & _ & Hne). }
    rewrite Hlast, andb_false_r.
    apply Forall_forall. intros y Hy. rewrite Forall_forall in IH. apply IH.
    apply list_elem_of_In. apply list_elem_of_In in Hy.
    clear -Hy. induction (normparts true xs) as [|z zs IHz]; [done|].
    destruct zs as [|z' zs]; [done|].
    simpl in Hy. destruct Hy as [-> | Hy]; [by left|]. right. by apply IHz.
  - apply Forall_app. split; [done|]. constructor; [|constructor].
    apply String.eqb_neq in H1, H2, H3. by repeat split.
Qed.

Lemma normparts_abs_idem xs :
  normparts true (normparts true xs) = normparts true xs.
Proof. apply normparts_plain, normparts_abs_plain. Qed.

(** Below a normalised directory, plain names lead where they say, and a
    leading [.] changes nothing. *)
Lemma normparts_below xs names :
  Forall plain names ->
  normparts true (normparts true xs ++ names) = normparts true xs ++ names.
Proof.
  intros H. rewrite normparts_app, normparts_abs_idem.
  by apply foldl_normpath_step_plain.
Qed.

Lemma normparts_below_dot xs names :
  Forall plain names ->
  normparts true (normparts true xs ++ "." :: names)
  = normparts true xs ++ names.
Proof.
  intros H. rewrite normparts_app, normparts_abs_idem. simpl.
  rewrite normpath_step_dot. by apply foldl_normpath_step_plain.
Qed.

(** ** Directories: lookup after an update *)

Lemma dir_lookup_set_eq name x es : dir_lookup name (dir_set name x es) = Some x.
Proof.
  induction es as [|[n y] es IH]; simpl.
  - by rewrite String.eqb_refl.
  - destruct (String.eqb n name) eqn:E; simpl; by rewrite E.
Qed.

Lemma dir_lookup_set_ne name q x es :
  name <> q -> dir_lookup q (dir_set name x es) = dir_lookup q es.
Proof.
  intros Hne. induction es as [|[n y] es IH]; simpl.
  - apply String.eqb_neq in Hne. by rewrite Hne.
  - destruct (String.eqb n name) eqn:E; simpl.
    + apply String.eqb_eq in E as ->.
      apply String.eqb_neq in Hne. by rewrite Hne.
    + by rewrite IH.
Qed.

Lemma node_at_app n ps qs :
  node_at n (ps ++ qs) = node_at n ps ≫= fun m => node_at m qs.
Proof.
  revert n. induction ps as [|p ps IH]; intros n; [done|].
  simpl. destruct n as [|es]; [done|].
  destruct (dir_lookup p es); [apply IH | done].
Qed.

(** Writing a node under an existing directory succeeds, and the node is
    then there. *)
Lemma node_put_under n ps name es x :
  node_at n ps = Some (Dir es) ->
  exists n', node_put n (ps ++ [name]) x = Some n'
             /\ node_at n' (ps ++ [name]) = Some x.
Proof.
  revert n. induction ps as [|p ps IH]; intros n Hat; simpl in *.
  - injection Hat as ->. eexists. split; [done|]. simpl.
    by rewrite dir_lookup_set_eq.
  - destruct n as [|es']; [done|].
    destruct (dir_lookup p es') as [c|] eqn:Hc; [|done].
    destruct (IH c Hat) as (c' & Hput & Hget).
    destruct (ps ++ [name]) as [|q qs] eqn:Hq; [by destruct ps|].
    rewrite Hput. eexists. split; [done|]. simpl.
    by rewrite dir_lookup_set_eq.
Qed.

(** It leaves alone what lies beside it. *)
Lemma node_put_beside n n' ps name other rest x :
  name <> other ->
  node_put n (ps ++ [name]) x = Some n' ->
  node_at n' (ps ++ other :: rest) = node_at n (ps ++ other :: rest).
Proof.
  intros Hne. revert n n'. induction ps as [|p ps IH]; intros n n' Hput.
  - simpl in *. destruct n as [|es]; [done|]. injection Hput as <-.
    simpl. by rewrite dir_lookup_set_ne.
  - simpl in Hput. destruct n as [|es]; [done|].
    destruct (ps ++ [name]) as [|q qs] eqn:Hq; [by destruct ps|].
    destruct (dir_lookup p es) as [c|] eqn:Hc; [|done].
    destruct (node_put c (q :: qs) x) as [c'|] eqn:Hc'; [|done].
    injection Hput as <-. simpl. rewrite dir_lookup_set_eq, Hc.
    by apply IH.
Qed.

(** ** Well-formed trees *)

Lemma wf_node_Dir es :
  wf_node (Dir es) = true
  <-> Forall (fun e => valid_name e.1 = true /\ wf_node e.2 = true) es
      /\ NoDup es.*1.
Proof.
  simpl. rewrite andb_true_iff, bool_decide_eq_true, forallb_forall.
  rewrite Forall_forall. split; intros [H1 H2]; (split; [|done]).
  - intros [name child] Hin. apply list_elem_of_In, H1 in Hin.
    by apply andb_true_iff in Hin.
  - intros [name child] Hin. apply list_elem_of_In, H1 in Hin.
    by apply andb_true_iff.
Qed.

Lemma dir_lookup_NoDup name child es :
  NoDup es.*1 -> (name, child) ∈ es -> dir_lookup name es = Some child.
Proof.
  induction es as [|[n y] es IH]; intros Hnd Hin; [by apply elem_of_nil in Hin|].
  apply NoDup_cons in Hnd as [Hn Hnd]. simpl.
  apply elem_of_cons in Hin as [Heq | Hin].
  - injection Heq as <- <-. by rewrite String.eqb_refl.
  - destruct (String.eqb n name) eqn:E; [|by apply IH].
    apply String.eqb_eq in E as ->. destruct Hn.
    apply list_elem_of_fmap. by exists (name, child).
Qed.

(** The files of a directory, entry by entry. *)
Lemma elem_of_tree_files d f c es :
  (d, f, c) ∈ tree_files (Dir es)
  <-> (d = [] /\ (f, File c) ∈ es)
      \/ (exists name sub d',
            d = name :: d' /\ (name, Dir sub) ∈ es
            /\ (d', f, c) ∈ tree_files (Dir sub)).
Proof.
  simpl tree_files. rewrite list_elem_of_In, in_flat_map. split.
  - intros ([name child] & Hin & Hx). apply list_elem_of_In in Hin.
    destruct child as [data | sub].
    + destruct Hx as [Hx | []]. injection Hx as <- <- <-. by left.
    + apply in_map_iff in Hx as ([[d' f'] c'] & Heq & Hx).
      injection Heq as <- <- <-. right. exists name, sub, d'.
      split; [done|]. split; [done|]. apply list_elem_of_In. exact Hx.
  - intros [[-> Hin] | (name & sub & d' & -> & Hin & Hx)].
    + exists (f, File c). rewrite <- list_elem_of_In. split; [done|]. by left.
    + exists (name, Dir sub). rewrite <- list_elem_of_In. split; [done|].
      apply in_map_iff. exists (d', f, c). split; [done|].
      apply list_elem_of_In. exact Hx.
Qed.

Lemma tree_files_valid n : forall d f c,
  wf_node n = true -> (d, f, c) ∈ tree_files n ->
  Forall (fun s => valid_name s = true) d /\ valid_name f = true.
Proof.
  induction n as [data | es IH] using node_ind'; intros d f c Hwf Hin.
  { by apply elem_of_nil in Hin. }
  apply wf_node_Dir in Hwf as [Hes _]. rewrite Forall_forall in Hes, IH.
  apply elem_of_tree_files in Hin
    as [[-> Hin] | (name & sub & d' & -> & Hin & Hx)].
  - split; [constructor|]. by destruct (Hes _ Hin).
  - destruct (Hes _ Hin) as [Hname Hsub].
    destruct (IH _ Hin d' f c Hsub Hx) as [Hd Hf].
    split; [by constructor | done].
Qed.

(** A file of the tree is found where the tree says it is. *)
Lemma tree_files_lookup n : forall d f c,
  wf_node n = true -> (d, f, c) ∈ tree_files n ->
  node_at n (d ++ [f]) = Some (File c).
Proof.
  induction n as [data | es IH] using node_ind'; intros d f c Hwf Hin.
  { by apply elem_of_nil in Hin. }
  apply wf_node_Dir in Hwf as [Hes Hnd]. rewrite Forall_forall in Hes, IH.
  apply elem_of_tree_files in Hin
    as [[-> Hin] | (name & sub & d' & -> & Hin & Hx)]; simpl.
  - by rewrite (dir_lookup_NoDup f (File c)).
  - rewrite (dir_lookup_NoDup name (Dir sub)) by done.
    destruct (Hes _ Hin) as [_ Hsub]. by apply (IH _ Hin).
Qed.

Lemma NoDup_under_name (name : string)
    (l : list (list string * string * content)) :
  NoDup ((fun x => x.1.1 ++ [x.1.2]) <$> l) ->
  NoDup ((fun x => x.1.1 ++ [x.1.2])
         <$> map (fun '(d, f, c) => (name :: d, f, c)) l).
Proof.
  intros Hl.
  replace ((fun x : list string * string * content => x.1.1 ++ [x.1.2])
           <$> map (fun '(d, f, c) => (name :: d, f, c)) l)
    with ((cons name) <$> ((fun x : list string * string * content =>
                              x.1.1 ++ [x.1.2]) <$> l)).
  - apply (NoDup_fmap_2 (cons name)); by try intros a b [= ->].
  - rewrite <- list_fmap_compose. change map with (@fmap list _) at 1.
    rewrite <- list_fmap_compose. apply list_fmap_ext.
    by intros i [[d f] c] _.
Qed.

(** No two files of a tree have the same path. *)
Lemma tree_files_NoDup n :
  wf_node n = true ->
  NoDup ((fun x => x.1.1 ++ [x.1.2]) <$> tree_files n).
Proof.
  induction n as [data | es IH] using node_ind'; intros Hwf; [constructor|].
  apply wf_node_Dir in Hwf as [Hes Hnd].
  simpl tree_files.
  induction es as [|[name child] es IHes]; [constructor|].
  apply Forall_cons_1 in IH as [IHchild IH].
  apply Forall_cons_1 in Hes as [[_ Hchild] Hes].
  simpl in Hnd. apply NoDup_cons in Hnd as [Hname Hnd].
  specialize (IHes IH Hes Hnd). cbn [flat_map]. rewrite fmap_app.
  apply NoDup_app. split; [|split; [|exact IHes]].
  - destruct child as [data | sub]; [apply NoDup_singleton|].
    apply NoDup_under_name, IHchild, Hchild.
  - intros ps Hin1 Hin2. apply Hname.
    assert (Hhead : exists rest, ps = name :: rest).
    { destruct child as [data | sub].
      - simpl in Hin1. apply list_elem_of_singleton in Hin1. by eexists.
      - apply list_elem_of_fmap in Hin1 as (x & -> & Hin1).
        apply list_elem_of_In, in_map_iff in Hin1 as ([[d f] c] & <- & _).
        by eexists. }
    destruct Hhead as [rest ->].
    apply list_elem_of_fmap in Hin2 as ([[d f] c] & Heq & Hin2).
    simpl in Heq.
    change (flat_map ?F es) with (tree_files (Dir es)) in Hin2.
    apply elem_of_tree_files in Hin2
      as [[-> Hin2] | (name' & sub' & d' & -> & Hin2 & _)].
    + injection Heq as -> _. apply list_elem_of_fmap. by exists (f, File c).
    + injection Heq as -> _. apply list_elem_of_fmap.
      by exists (name', Dir sub').
Qed.

(** ** Member names: from the parts and back *)

Lemma append_String a s r : String a s +:+ r = String a (s +:+ r).
Proof. reflexivity. Qed.

Lemma split_without c s : has_char c s = false -> Str.split c s = [s].
Proof.
  induction s as [|a s IH]; [done|]. simpl. intros H.
  apply orb_false_iff in H as [Ha Hs]. by rewrite Ha, IH.
Qed.

Lemma split_append c s r :
  has_char c s = false -> Str.split c (s +:+ String c r) = s :: Str.split c r.
Proof.
  induction s as [|a s IH]; intros H.
  - change ("" +:+ String c r) with (String c r). simpl.
    by rewrite Ascii.eqb_refl.
  - simpl in H. apply orb_false_iff in H as [Ha Hs].
    rewrite append_String. simpl. by rewrite Ha, IH.
Qed.

Lemma split_join c (l : list string) :
  l <> [] -> Forall (fun s => has_char c s = false) l ->
  Str.split c (Str.join (String c "") l) = l.
Proof.
  intros Hne Hl. induction Hl as [|s l Hs Hl IH]; [done|].
  destruct l as [|s' l].
  - simpl. by apply split_without.
  - change (Str.join (String c "") (s :: s' :: l))
      with (s +:+ String c "" +:+ Str.join (String c "") (s' :: l)).
    rewrite append_String. change ("" +:+ ?x) with x.
    rewrite split_append by done. f_equal. by apply IH.
Qed.

Lemma join_inj c (l1 l2 : list string) :
  l1 <> [] -> l2 <> [] ->
  Forall (fun s => has_char c s = false) l1 ->
  Forall (fun s => has_char c s = false) l2 ->
  Str.join (String c "") l1 = Str.join (String c "") l2 -> l1 = l2.
Proof.
  intros Hn1 Hn2 H1 H2 Heq.
  rewrite <- (split_join c l1), <- (split_join c l2) by done.
  by rewrite Heq.
Qed.

Lemma valid_name_no_slash s : valid_name s = true -> has_char "/" s = false.
Proof.
  unfold valid_name. rewrite !andb_true_iff, !negb_true_iff. by intros [_ H].
Qed.

(** ** Running step by step *)

Lemma bind_Ok {A B} (m : M A) (k : A -> M B) w a w' :
  m w = (Ok a, w') -> (m ≫= k) w = k a w'.
Proof. intros H. unfold mbind, M_bind. by rewrite H. Qed.

Lemma bind_Raise {A B} (m : M A) (k : A -> M B) w e w' :
  m w = (Raise e, w') -> (m ≫= k) w = (Raise e, w').
Proof. intros H. unfold mbind, M_bind. by rewrite H. Qed.

Lemma for_app {A} (xs ys : list A) (body : A -> M unit) w :
  for_ (xs ++ ys) body w = (for_ xs body ;; for_ ys body) w.
Proof.
  revert w. induction xs as [|x xs IH]; intros w; [done|].
  simpl. unfold mbind, M_bind in *.
  destruct (body x w) as [[[]|e] w1]; [apply IH | done].
Qed.

Lemma for_map {A B} (g : A -> B) (xs : list A) (body : B -> M unit) w :
  for_ (map g xs) body w = for_ xs (fun x => body (g x)) w.
Proof.
  revert w. induction xs as [|x xs IH]; intros w; [done|].
  simpl. unfold mbind, M_bind. destruct (body (g x) w) as [[[]|e] w1]; [apply IH | done].
Qed.

(** The two nested loops over an [os.walk] listing are one loop over the
    files it lists. *)
Lemma for_listing (body : path -> string -> M unit) listing w :
  for_ listing (fun '(path, _, filenames) =>
    for_ filenames (fun fname => body path fname)) w
  = for_ (listed_files listing) (fun x => body x.1 x.2) w.
Proof.
  revert w. induction listing as [|[[path dirs] filenames] listing IH];
    intros w; [done|].
  unfold listed_files. cbn [flat_map]. fold (listed_files listing).
  rewrite for_app. simpl. unfold mbind, M_bind.
  rewrite for_map. simpl.
  destruct (for_ filenames _ w) as [[[]|e] w1]; [apply IH | done].
Qed.

(** Writing a file where no directory is keeps every directory. *)
Lemma node_put_file_keeps_dirs ps : forall n n' x q es,
  node_put n ps (File x) = Some n' ->
  (forall es', node_at n ps <> Some (Dir es')) ->
  node_at n q = Some (Dir es) ->
  exists es', node_at n' q = Some (Dir es').
Proof.
  induction ps as [|p ps IH]; intros n n' x q es Hput Hnot Hq.
  - simpl in Hnot. destruct n as [data | es0]; [|by destruct (Hnot es0)].
    destruct q; simpl in Hq; discriminate Hq.
  - simpl in Hput. destruct n as [data | es0]; [done|].
    destruct q as [|q1 qs]; [destruct ps; [|destruct (dir_lookup p es0);
      [destruct (node_put _ _ _)|]]; simplify_eq; by eexists|].
    destruct (decide (p = q1)) as [<- | Hne].
    + simpl in Hq, Hnot.
      destruct (dir_lookup p es0) as [c|] eqn:Hc; [|done].
      destruct ps as [|p2 ps].
      * exfalso. destruct c as [data | es1]; [by destruct qs|].
        by destruct (Hnot es1).
      * destruct (node_put c (p2 :: ps) (File x)) as [c'|] eqn:Hc'; [|done].
        injection Hput as <-. simpl. rewrite dir_lookup_set_eq.
        by apply (IH c c' x qs es).
    + assert (Hsame : forall c',
                node_at (Dir (dir_set p c' es0)) (q1 :: qs)
                = node_at (Dir es0) (q1 :: qs)).
      { intros c'. simpl. by rewrite dir_lookup_set_ne. }
      destruct ps as [|p2 ps].
      * injection Hput as <-. rewrite Hsame. by eexists.
      * destruct (dir_lookup p es0) as [c|]; [|done].
        destruct (node_put c (p2 :: ps) (File x)) as [c'|]; [|done].
        injection Hput as <-. rewrite Hsame. by eexists.
Qed.

(** ** [archive] *)

Section Archive.

Variable p : platform.
Variable script_dir : list string.
Variable anchor : string.

Lemma zip_name_plain : plain (zip_name p).
Proof. unfold zip_name. by destruct p. Qed.

Lemma zip_name_not_install : zip_name p <> "install".
Proof. unfold zip_name. by destruct p. Qed.

Lemma resolve_INSTALL_ROOT w :
  resolve w (INSTALL_ROOT script_dir) = install_parts script_dir.
Proof.
  unfold resolve, install_parts. simpl.
  rewrite <- (app_assoc script_dir ["builds"] ["install"]).
  rewrite normparts_app. by apply foldl_normpath_step_plain; repeat constructor.
Qed.

Lemma resolve_archive_file_path w :
  resolve w (archive_file_path p script_dir) = archive_parts p script_dir.
Proof.
  unfold resolve, archive_parts. simpl. fold (zip_name p).
  rewrite <- (app_assoc script_dir ["builds"] [zip_name p]).
  rewrite normparts_app. apply foldl_normpath_step_plain.
  constructor; [done|]. constructor; [apply zip_name_plain | constructor].
Qed.

Lemma archive_parts_split :
  archive_parts p script_dir
  = (normparts true script_dir ++ ["builds"]) ++ [zip_name p].
Proof. unfold archive_parts. by rewrite <- app_assoc. Qed.

Lemma install_parts_split :
  install_parts script_dir
  = (normparts true script_dir ++ ["builds"]) ++ ["install"].
Proof. unfold install_parts. by rewrite <- app_assoc. Qed.

Lemma install_parts_normal :
  normparts true (install_parts script_dir) = install_parts script_dir.
Proof. unfold install_parts. by apply normparts_below; repeat constructor. Qed.

(** The install tree sits in a directory, [builds]. *)
Lemma builds_is_dir n t :
  node_at n (install_parts script_dir) = Some (Dir t) ->
  exists es, node_at n (normparts true script_dir ++ ["builds"]) = Some (Dir es).
Proof.
  rewrite install_parts_split, node_at_app. intros H.
  destruct (node_at n (normparts true script_dir ++ ["builds"]))
    as [[data | es]|]; [done | by eexists | done].
Qed.

Variable t : list (string * node).
Variable fs0 : node.

Lemma add_file_step ms w x :
  archiving p script_dir t fs0 ms w -> readable script_dir t x ->
  exists w',
    add_file p anchor (archive_parts p script_dir) x.1.1 x.1.2 w = (Ok tt, w')
    /\ archiving p script_dir t fs0 (ms ++ [written x]) w'.
Proof.
  intros (Hcwd & Hzip & Htree & Hdirs) (Hrel & q & Hq & Hfile).
  destruct x as [[path fname] c]. simpl in *.
  destruct (builds_is_dir _ _ Htree) as [es Hbuilds].
  destruct (node_put_under (fs w) _ (zip_name p) es
              (File (Zip (ms ++ [written (path, fname, c)]))) Hbuilds)
    as (fs' & Hput & Hget).
  rewrite <- archive_parts_split in Hput, Hget.
  unfold add_file.
  erewrite bind_Ok by reflexivity.
  unfold ZipFile_write, resolve. cbn [fs cwd].
  change (absolute (os_path_join path [rel [fname]])) with (absolute path).
  change (parts (os_path_join path [rel [fname]])) with (parts path ++ [fname]).
  rewrite Hrel, Hcwd, Hq, node_at_app, Htree. cbn [mbind option_bind].
  rewrite Hfile, Hzip.
  unfold written in Hput, Hget. cbn [fst snd] in Hput, Hget.
  rewrite Hput. eexists. split; [reflexivity|].
  split; [done|]. cbn [fs]. split; [exact Hget|].
  split.
  - rewrite install_parts_split.
    rewrite archive_parts_split in Hput.
    rewrite (node_put_beside _ _ _ _ _ _ _ zip_name_not_install Hput).
    by rewrite <- install_parts_split.
  - intros q' es' Hq'. destruct (Hdirs q' es' Hq') as [es'' Hes''].
    eapply node_put_file_keeps_dirs; [exact Hput| |exact Hes''].
    intros es1. by rewrite Hzip.
Qed.

Lemma add_files_run items : forall ms w,
  archiving p script_dir t fs0 ms w -> Forall (readable script_dir t) items ->
  exists w',
    for_ (map (fun x => (x.1.1, x.1.2)) items)
         (fun y => add_file p anchor (archive_parts p script_dir) y.1 y.2) w
    = (Ok tt, w')
    /\ archiving p script_dir t fs0 (ms ++ map written items) w'.
Proof.
  induction items as [|x items IH]; intros ms w Hinv Hitems.
  - exists w. simpl. by rewrite app_nil_r.
  - apply Forall_cons_1 in Hitems as [Hx Hitems].
    destruct (add_file_step ms w x Hinv Hx) as (w1 & Hrun & Hinv1).
    destruct (IH _ _ Hinv1 Hitems) as (w2 & Hrun2 & Hinv2).
    exists w2. simpl. erewrite bind_Ok by exact Hrun.
    split; [exact Hrun2|]. by rewrite <- app_assoc in Hinv2.
Qed.

End Archive.

Lemma normparts_clean_dot b names :
  normparts true b = b -> Forall plain names ->
  normparts true (b ++ "." :: names) = b ++ names.
Proof.
  intros Hb H. rewrite normparts_app, Hb. simpl.
  rewrite normpath_step_dot. by apply foldl_normpath_step_plain.
Qed.

(** The member name [archive] computes for a file the walk lists. *)
Lemma written_member_of d f c :
  Forall plain d -> plain f ->
  written (Path false ("." :: d), f, c) = member_of (d, f, c).
Proof.
  intros Hd Hf. unfold written, member_of. cbn [fst snd]. f_equal.
  assert (Hall : Forall plain ("discord-rpc" :: d ++ [f])).
  { constructor; [done|]. apply Forall_app. split; [done|]. by constructor. }
  assert (Hnorm :
    normpath (os_path_join (rel ["discord-rpc"])
                [os_path_join (Path false ("." :: d)) [rel [f]]])
    = Path false ("discord-rpc" :: d ++ [f])).
  { unfold normpath. cbn [os_path_join foldl join2 rel absolute parts].
    cbn [app]. unfold normparts. cbn [foldl].
    rewrite (normpath_step_plain false [] "discord-rpc") by done.
    rewrite normpath_step_dot. cbn [app].
    rewrite foldl_normpath_step_plain
      by (apply Forall_app; split; [done | by constructor]).
    reflexivity. }
  rewrite Hnorm. unfold zip_member_name, normpath. cbn [absolute parts].
  by rewrite (normparts_plain false _ Hall).
Qed.

(** C1.  Run where [INSTALL_ROOT] is a directory [t] (of a file system:
    valid names, none twice in a directory), where the archive's place is
    not taken by a directory, and from an existing current directory,
    [archive] returns and leaves at [archive_file_path] an archive whose
    members are exactly the files of [t]: each file once, under the name
    [discord-rpc/<path below the install root>], holding what the file
    holds; no two members share a name, and there is no other member. *)
Theorem archive_holds_the_install_tree
    (p : platform) (script_dir : list string) (anchor : string)
    (w : world) (t : list (string * node)) :
  install_tree script_dir w = Some (Dir t) ->
  wf_node (Dir t) = true ->
  (forall es,
     node_at (fs w) (resolve w (archive_file_path p script_dir))
     <> Some (Dir es)) ->
  (exists es, node_at (fs w) (normparts true (cwd w)) = Some (Dir es)) ->
  let run := archive p script_dir anchor w in
  exists members,
    run.1 = Ok tt
    /\ node_at (fs run.2) (resolve w (archive_file_path p script_dir))
       = Some (File (Zip members))
    /\ members ≡ₚ member_of <$> tree_files (Dir t)
    /\ NoDup members.*1
    /\ install_tree script_dir run.2 = Some (Dir t).
Proof.
  intros Htree Hwf Hfree [es0 Hcwd] run.
  unfold install_tree in *.
  rewrite resolve_INSTALL_ROOT in *. rewrite resolve_archive_file_path in *.
  (* the files the walk lists, with what they hold *)
  pose proof (walk_lists_tree_files (Dir t) (rel ["."])) as Hwalk.
  apply Permutation_map_inv in Hwalk as (l3 & Hlisted & Hperm).
  set (K3 := fun x : list string * string * content =>
               (Path false ("." :: x.1.1), x.1.2, x.2)).
  assert (Hvalid : Forall (fun x => Forall plain x.1.1 /\ plain x.1.2
                                    /\ x ∈ tree_files (Dir t)) l3).
  { apply Forall_forall. intros [[d f] c] Hin.
    assert (Hin' : (d, f, c) ∈ tree_files (Dir t)) by (by rewrite Hperm).
    destruct (tree_files_valid _ d f c Hwf Hin') as [Hd Hf].
    split; [|split; [by apply valid_name_plain | done]].
    eapply Forall_impl; [exact Hd|]. intros s. apply valid_name_plain. }
  assert (Hitems : Forall (readable script_dir t) (map K3 l3)).
  { apply Forall_forall. intros x Hx.
    apply list_elem_of_In, in_map_iff in Hx as ([[d f] c] & <- & Hx).
    apply list_elem_of_In in Hx.
    rewrite Forall_forall in Hvalid.
    destruct (Hvalid _ Hx) as (Hd & Hf & Hin). cbn [fst snd] in *.
    split; [done|]. exists (d ++ [f]). unfold K3. cbn [fst snd parts].
    split.
    - change (("." :: d) ++ [f]) with ("." :: d ++ [f]).
      apply normparts_clean_dot; [apply install_parts_normal|].
      apply Forall_app. split; [done | by constructor].
    - by apply tree_files_lookup. }
  (* the archive is created *)
  destruct (builds_is_dir script_dir _ _ Htree) as [es Hbuilds].
  destruct (node_put_under (fs w) _ (zip_name p) es (File (Zip [])) Hbuilds)
    as (fs1 & Hput & Hget).
  rewrite <- archive_parts_split in Hput, Hget.
  assert (Htree1 : node_at fs1 (install_parts script_dir) = Some (Dir t)).
  { rewrite install_parts_split. rewrite archive_parts_split in Hput.
    rewrite (node_put_beside _ _ _ _ _ _ _ (zip_name_not_install p) Hput).
    by rewrite <- install_parts_split. }
  set (w3 := World fs1 (install_parts script_dir)
               (trace w ++ [Echo "--- Archiving"])).
  assert (Hinv : archiving p script_dir t (fs w) [] w3).
  { split; [done|]. split; [exact Hget|]. split; [exact Htree1|].
    intros q es' Hq. eapply node_put_file_keeps_dirs; [exact Hput|exact Hfree|exact Hq]. }
  destruct (add_files_run p script_dir anchor t (fs w) (map K3 l3) [] w3
              Hinv Hitems) as (w4 & Hloop & Hinv4).
  destruct Hinv4 as (Hcwd4 & Hzip4 & Htree4 & Hdirs4).
  destruct (Hdirs4 _ _ Hcwd) as [es4 Hcwd4'].
  (* the run, step by step *)
  assert (Hrun : run = (Ok tt, World (fs w4) (normparts true (cwd w))
                                 (trace w4))).
  { unfold run, archive.
    erewrite bind_Ok by reflexivity.
    erewrite bind_Ok; cycle 1.
    { unfold ZipFile_w. rewrite resolve_archive_file_path. cbn [fs cwd trace].
      destruct (node_at (fs w) (archive_parts p script_dir)) as [[data|es']|];
        [|by destruct (Hfree es')|]; by rewrite Hput. }
    unfold cd. change (nonempty (INSTALL_ROOT script_dir)) with true.
    cbv iota.
    erewrite bind_Ok by reflexivity.
    erewrite bind_Ok; cycle 1.
    { unfold chdir. rewrite resolve_INSTALL_ROOT. cbn [fs cwd trace].
      by rewrite Htree1. }
    fold w3.
    erewrite bind_Ok; cycle 1.
    { erewrite bind_Ok; cycle 1.
      { unfold walk, resolve. cbn [absolute rel parts fs cwd w3].
        rewrite normparts_app, install_parts_normal. cbn [foldl].
        rewrite normpath_step_dot, Htree1. reflexivity. }
      cbn [from_option].
      rewrite (for_listing (add_file p anchor (archive_parts p script_dir))).
      rewrite Hlisted.
      replace (map (fun '(d, f, _) =>
                      (Path (absolute (rel ["."])) (parts (rel ["."]) ++ d), f))
                   l3)
        with (map (fun x : path * string * content => (x.1.1, x.1.2))
                  (map K3 l3))
        by (rewrite map_map; apply map_ext; by intros [[d f] c]).
      exact Hloop. }
    cbn [cwd]. unfold chdir, resolve. cbn [absolute parts app].
    by rewrite Hcwd4'. }
  exists (map (written) (map K3 l3)).
  rewrite Hrun. cbn [fst snd fs].
  split; [done|]. split; [exact Hzip4|].
  assert (Hmembers : map written (map K3 l3) ≡ₚ member_of <$> tree_files (Dir t)).
  { rewrite map_map. rewrite Hperm.
    erewrite map_ext_in; [reflexivity|].
    intros [[d f] c] Hin. apply list_elem_of_In in Hin.
    rewrite Forall_forall in Hvalid. destruct (Hvalid _ Hin) as (Hd & Hf & _).
    by apply written_member_of. }
  split; [exact Hmembers|]. split; [|exact Htree4].
  rewrite Hmembers. rewrite <- list_fmap_compose.
  apply NoDup_fmap_2_strong.
  - intros [[d f] c] [[d' f'] c'] Hx Hy Heq. unfold member_of in Heq.
    cbn [compose fst snd] in Heq.
    destruct (tree_files_valid _ _ _ _ Hwf Hx) as [Hd Hf].
    destruct (tree_files_valid _ _ _ _ Hwf Hy) as [Hd' Hf'].
    apply (join_inj "/") in Heq; try done.
    + injection Heq as Heq.
      pose proof (tree_files_lookup _ _ _ _ Hwf Hx) as Hc.
      pose proof (tree_files_lookup _ _ _ _ Hwf Hy) as Hc'.
      apply app_inj_tail in Heq as [-> ->]. rewrite Hc in Hc'.
      by injection Hc' as ->.
    + constructor; [done|]. apply Forall_app. split.
      * eapply Forall_impl; [exact Hd|]. intros s. apply valid_name_no_slash.
      * constructor; [by apply valid_name_no_slash | constructor].
    + constructor; [done|]. apply Forall_app. split.
      * eapply Forall_impl; [exact Hd'|]. intros s. apply valid_name_no_slash.
      * constructor; [by apply valid_name_no_slash | constructor].
  - pose proof (tree_files_NoDup _ Hwf) as Hnd.
    eapply NoDup_fmap_1. exact Hnd.
Qed.

Lemma archive_holds_the_install_tree_witness :
  let w := Sample.w_built in
  let run := archive osx Sample.script_dir "/" w in
  length (tree_files (Dir Sample.install)) = 5
  /\ exists members,
    run.1 = Ok tt
    /\ node_at (fs run.2) (resolve w (archive_file_path osx Sample.script_dir))
       = Some (File (Zip members))
    /\ members ≡ₚ member_of <$> tree_files (Dir Sample.install)
    /\ NoDup members.*1
    /\ install_tree Sample.script_dir run.2 = Some (Dir Sample.install).
Proof.
  split; [by vm_compute|].
  apply (archive_holds_the_install_tree osx Sample.script_dir "/"
           Sample.w_built Sample.install).
  - by vm_compute.
  - by vm_compute.
  - intros es H. vm_compute in H. discriminate H.
  - eexists. by vm_compute.
Defined.

(** ** Further properties *)

(** X1.  Whatever happens in a run of the default entry point, [libs] is
    started first, the stages started are the first few of [libs], [sign]
    (unattended runs only), [archive], and [sign] is never started in an
    attended run. *)
Theorem stages_started_are_a_prefix
    (p : platform) (environ : gmap string string) (script_dir : list string)
    (anchor : string) (expanduser : string -> string)
    (join_text : string -> list string -> string)
    (proc : list string -> list string -> node -> Z * node)
    (clean : bool) (w : world) :
  exists d,
    trace (cli p environ script_dir anchor expanduser join_text proc None clean w).2
    = trace w ++ d
    /\ head (invoked d) = Some "libs"
    /\ invoked d `prefix_of` pipeline_stages environ
    /\ ("sign" ∉ invoked d \/ IS_BUILD_MACHINE environ = true).
Proof.
  destruct (cli_stages p environ script_dir anchor expanduser join_text proc clean w)
    as (d & sign_cmds & Htrace & [rest Hfirst] & _ & Hpre & Hsign & _).
  exists d. split; [exact Htrace|]. split; [by rewrite Hfirst|].
  split; [exact Hpre|].
  destruct (decide ("sign" ∈ invoked d)) as [Hin | Hout];
    [right; by apply Hsign | by left].
Qed.

(** X2.  The names of the variants of one matrix are pairwise distinct:
    no two builds share a build or install directory. *)
Theorem variant_names_unique (environ : gmap string string) (p : platform)
    (static shared skip rel_only : bool) :
  NoDup (map build_name (lib_builds p environ static shared skip rel_only)).
Proof.
  rewrite lib_builds_normalized.
  destruct (normalize_links static shared) as [s d]; simpl.
  unfold lib_builds.
  destruct (skip || IS_BUILD_MACHINE environ);
    destruct p, s, d; simpl; apply NoDup_ListNoDup;
    repeat constructor; simpl; intuition discriminate.
Qed.

(** X5.  [archive] runs no external command and starts no other stage. *)
Theorem archive_runs_no_command (p : platform) (script_dir : list string)
    (anchor : string) (w : world) :
  yields (archive p script_dir anchor) w [].
Proof. apply yields_archive. Qed.

(** X6.  [get_platform] knows three platforms and raises for any other
    value of [sys.platform]. *)
Theorem get_platform_recognises (sys_platform : string) :
  ((exists p, get_platform sys_platform = Ok p)
   <-> (Str.startswith sys_platform "win" = true
        \/ sys_platform = "darwin"
        \/ Str.startswith sys_platform "linux" = true))
  /\ get_platform "win32" = Ok win
  /\ get_platform "darwin" = Ok osx
  /\ get_platform "linux2" = Ok linux
  /\ get_platform "cygwin" = Raise (Exception "Unsupported platform cygwin").
Proof.
  split; [|by repeat split].
  unfold get_platform.
  destruct (Str.startswith sys_platform "win") eqn:Hwin.
  { split; [by left | by exists win]. }
  destruct (String.eqb sys_platform "darwin") eqn:Hmac.
  { apply String.eqb_eq in Hmac.
    split; [by right; left | by exists osx]. }
  apply String.eqb_neq in Hmac.
  destruct (Str.startswith sys_platform "linux") eqn:Hlin.
  { split; [by right; right | by exists linux]. }
  split; [by intros [p Hp] | by intros [H | [H | H]]].
Qed.

(** X7.  [for_unity] builds the shared variants only, release-only and
    with the formatter off, and starts neither [sign] nor [archive]. *)
Theorem for_unity_builds_shared_release_only
    (p : platform) (environ : gmap string string) (script_dir : list string)
    (anchor : string)
    (proc : list string -> list string -> node -> Z * node) (w : world) :
  yields (for_unity p environ script_dir anchor proc) w
         (Invoke "libs"
          :: flat_map (build_steps p script_dir anchor)
               (lib_builds p environ false true true true))
  /\ Forall (fun v => is_shared v = true /\ just_release v = true
                      /\ formatter_disabled v = true)
            (lib_builds p environ false true true true).
Proof.
  split.
  - unfold for_unity, ctx_invoke.
    apply (yields_seq _ _ _ [Invoke "libs"]);
      [apply (yields_log (Invoke "libs"))|].
    intros _ w1. apply yields_libs.
  - unfold lib_builds. simpl.
    destruct (IS_BUILD_MACHINE environ), p; repeat constructor.
Qed.


(** ** Directories made, files kept *)


Lemma mkdirs_is_dir ps : forall n n',
  mkdirs ps n = Some n' -> exists es, node_at n' ps = Some (Dir es).
Proof.
  induction ps as [|p ps IH]; intros n n' H; destruct n as [data | es];
    simpl in H; try done.
  - injection H as <-. by eexists.
  - destruct (mkdirs ps _) as [c|] eqn:Hc; [|done]. injection H as <-.
    simpl. rewrite dir_lookup_set_eq. by eapply IH.
Qed.


(** It makes directories only: the files are the ones there were. *)
Lemma mkdirs_files ps : forall n n' qs d,
  mkdirs ps n = Some n' ->
  node_at n' qs = Some (File d) <-> node_at n qs = Some (File d).
Proof.
  induction ps as [|p ps IH]; intros n n' qs d H; destruct n as [data | es];
    simpl in H; try done.
  - by injection H as <-.
  - destruct (mkdirs ps _) as [c|] eqn:Hc; [|done]. injection H as <-.
    destruct qs as [|q qs]; [done|]. simpl.
    destruct (decide (p = q)) as [<- | Hne].
    + rewrite dir_lookup_set_eq. rewrite (IH _ _ qs d Hc).
      destruct (dir_lookup p es); [done|]. simpl.
      split; [|done]. by destruct qs.
    + by rewrite dir_lookup_set_ne.
Qed.

Lemma mkdirs_dirs ps : forall n n' qs es,
  mkdirs ps n = Some n' -> node_at n qs = Some (Dir es) ->
  exists es', node_at n' qs = Some (Dir es').
Proof.
  induction ps as [|p ps IH]; intros n n' qs es0 H Hq;
    destruct n as [data | es]; simpl in H; try done.
  - injection H as <-. by eexists.
  - destruct (mkdirs ps _) as [c|] eqn:Hc; [|done]. injection H as <-.
    destruct qs as [|q qs]; [by eexists|]. simpl in *.
    destruct (decide (p = q)) as [<- | Hne].
    + rewrite dir_lookup_set_eq.
      destruct (dir_lookup p es) as [c0|]; [|done]. by eapply IH.
    + rewrite dir_lookup_set_ne by done. by eexists.
Qed.

Lemma node_put_get ps : forall n n' x,
  node_put n ps x = Some n' -> node_at n' ps = Some x.
Proof.
  induction ps as [|p ps IH]; intros n n' x H; simpl in H.
  - by injection H as <-.
  - destruct n as [data | es]; [done|].
    destruct ps as [|p2 ps].
    + injection H as <-. simpl. by rewrite dir_lookup_set_eq.
    + destruct (dir_lookup p es) as [c|]; [|done].
      destruct (node_put c (p2 :: ps) x) as [c'|] eqn:Hc'; [|done].
      injection H as <-. change (node_at (Dir ?e) (p :: ?r))
        with (match dir_lookup p e with Some c => node_at c r | None => None end).
      rewrite dir_lookup_set_eq. by eapply IH.
Qed.

(** Writing a file where no directory is changes no other file. *)
Lemma node_put_files ps : forall n n' x qs d,
  node_put n ps (File x) = Some n' ->
  (forall es, node_at n ps <> Some (Dir es)) ->
  qs <> ps ->
  node_at n' qs = Some (File d) <-> node_at n qs = Some (File d).
Proof.
  induction ps as [|p ps IH]; intros n n' x qs d Hput Hnot Hne.
  - simpl in *. injection Hput as <-.
    destruct n as [data | es]; [|by destruct (Hnot es)].
    destruct qs; [done|]. done.
  - simpl in Hput. destruct n as [data | es]; [done|].
    destruct qs as [|q qs].
    { destruct ps; [|destruct (dir_lookup p es); [destruct (node_put _ _ _)|]];
        by simplify_eq. }
    destruct (decide (p = q)) as [<- | Hpq].
    + simpl in Hnot. destruct ps as [|p2 ps].
      * injection Hput as <-. cbn [node_at]. rewrite dir_lookup_set_eq.
        destruct qs as [|q2 qs]; [done|].
        destruct (dir_lookup p es) as [[data | es1]|]; [done| |done].
        by destruct (Hnot es1).
      * destruct (dir_lookup p es) as [c|] eqn:Hc; [|done].
        destruct (node_put c (p2 :: ps) (File x)) as [c'|] eqn:Hc'; [|done].
        injection Hput as <-. cbn [node_at]. rewrite dir_lookup_set_eq, Hc.
        apply (IH c c' x qs d Hc' Hnot). congruence.
    + destruct ps as [|p2 ps].
      * injection Hput as <-. cbn [node_at]. by rewrite dir_lookup_set_ne.
      * destruct (dir_lookup p es) as [c|]; [|done].
        destruct (node_put c (p2 :: ps) (File x)) as [c'|]; [|done].
        injection Hput as <-. cbn [node_at]. by rewrite dir_lookup_set_ne.
Qed.


(** ** [mkdir_p] *)

(** [mkdir_p], case by case on what is at the path. *)
Lemma mkdir_p_run (p : platform) (anchor : string) (dir : path) (w : world) :
  mkdir_p p anchor dir w
  = let w1 := World (fs w) (cwd w)
                (trace w ++ [Echo ("Making " +:+ fspath p anchor dir)]) in
    match node_at (fs w) (resolve w dir) with
    | Some (Dir _) => (Ok tt, w)
    | Some (File _) => (Raise (OSError dir), w1)
    | None =>
        match mkdirs (resolve w dir) (fs w) with
        | Some fs' => (Ok tt, World fs' (cwd w) (trace w1))
        | None => (Raise (OSError dir), w1)
        end
    end.
Proof.
  unfold mkdir_p, isdir, mbind, M_bind, secho, log, makedirs, resolve.
  cbn [fs cwd trace].
  destruct (node_at (fs w) _) as [[data | es]|] eqn:Hat; cbn; try done.
  - by rewrite Hat.
  - rewrite Hat. by destruct (mkdirs _ _).
Qed.





(** ** [cd] *)



(** ** [build_lib]: where it runs its commands *)

Section BuildDir.

Variable p : platform.
Variable script_dir : list string.
Variable anchor : string.

Lemma resolve_build_path name w :
  plain name ->
  resolve w (os_path_join (SCRIPT_PATH script_dir) [rel ["builds"]; rel [name]])
  = build_dir script_dir name.
Proof.
  intros Hname. unfold resolve, build_dir. simpl.
  rewrite <- (app_assoc script_dir ["builds"] [name]).
  rewrite normparts_app. apply foldl_normpath_step_plain.
  constructor; [done|]. by constructor.
Qed.

Lemma resolve_install_path name w :
  plain name ->
  resolve w (os_path_join (INSTALL_ROOT script_dir) [rel [name]])
  = install_parts script_dir ++ [name].
Proof.
  intros Hname. unfold resolve, install_parts. simpl.
  rewrite <- !app_assoc. simpl.
  rewrite normparts_app. apply foldl_normpath_step_plain.
  constructor; [done|]. constructor; [done|]. by constructor.
Qed.

Lemma execs_echo tr line : execs (tr ++ [Echo line]) = execs tr.
Proof. unfold execs. rewrite omap_app. simpl. by rewrite app_nil_r. Qed.

Lemma mkdir_p_returns dir w w' :
  mkdir_p p anchor dir w = (Ok tt, w') ->
  (exists es, node_at (fs w') (resolve w dir) = Some (Dir es))
  /\ cwd w' = cwd w
  /\ (forall qs d, node_at (fs w') qs = Some (File d)
                   <-> node_at (fs w) qs = Some (File d))
  /\ (forall qs es, node_at (fs w) qs = Some (Dir es) ->
                    exists es', node_at (fs w') qs = Some (Dir es'))
  /\ execs (trace w') = execs (trace w).
Proof.
  rewrite mkdir_p_run. cbv zeta.
  destruct (node_at (fs w) (resolve w dir)) as [[data | es]|] eqn:Hat; [done| |].
  - intros [= <-]. split; [by eexists|]. repeat split; try done. by eexists.
  - destruct (mkdirs (resolve w dir) (fs w)) as [fs'|] eqn:Hmk; [|done].
    intros [= <-]. cbn [fs cwd trace].
    split; [by eapply mkdirs_is_dir|]. split; [done|].
    split; [intros qs d; by apply (mkdirs_files _ _ _ qs d Hmk)|].
    split; [intros qs es; by apply (mkdirs_dirs _ _ _ qs es Hmk)|]. apply execs_echo.
Qed.

Lemma mkdir_p_raises dir w e w' :
  mkdir_p p anchor dir w = (Raise e, w') ->
  e = OSError dir /\ fs w' = fs w /\ cwd w' = cwd w
  /\ execs (trace w') = execs (trace w).
Proof.
  rewrite mkdir_p_run. cbv zeta.
  destruct (node_at (fs w) (resolve w dir)) as [[data | es]|];
    [|done|destruct (mkdirs _ _); [done|]];
    intros [= <- <-]; cbn [fs cwd trace]; by rewrite execs_echo.
Qed.

(** [build_lib] either fails to make or enter its directories, or runs
    its commands from the build directory, both directories being there. *)
Lemma build_lib_enter proc name gen opts jr w :
  plain name ->
  (exists q w', build_lib p script_dir anchor proc name gen opts jr w
                = (Raise (OSError q), w')
                /\ cwd w' = cwd w /\ execs (trace w') = execs (trace w))
  \/ (exists w2,
        cwd w2 = build_dir script_dir name
        /\ (exists es, node_at (fs w2) (build_dir script_dir name) = Some (Dir es))
        /\ (exists es, node_at (fs w2) (install_parts script_dir ++ [name])
                       = Some (Dir es))
        /\ execs (trace w2) = execs (trace w)
        /\ build_lib p script_dir anchor proc name gen opts jr w
           = (build_body p script_dir anchor proc name gen opts jr ;;
              chdir (Path true (cwd w))) w2).
Proof.
  intros Hname. unfold build_lib.
  set (bp := os_path_join (SCRIPT_PATH script_dir) [rel ["builds"]; rel [name]]).
  set (ip := os_path_join (INSTALL_ROOT script_dir) [rel [name]]).
  destruct (mkdir_p p anchor bp w) as [[[]|e] w1] eqn:H1; cycle 1.
  { apply mkdir_p_raises in H1 as H1'. destruct H1' as (-> & _ & Hc & Ht).
    left. exists bp, w1. by erewrite bind_Raise by exact H1. }
  apply mkdir_p_returns in H1 as H1'.
  destruct H1' as ([es1 Hb1] & Hc1 & _ & _ & Ht1).
  erewrite bind_Ok by exact H1.
  destruct (mkdir_p p anchor ip w1) as [[[]|e] w2] eqn:H2; cycle 1.
  { apply mkdir_p_raises in H2 as H2'. destruct H2' as (-> & _ & Hc & Ht).
    left. exists ip, w2. erewrite bind_Raise by exact H2.
    split; [done|]. split; congruence. }
  apply mkdir_p_returns in H2 as H2'.
  destruct H2' as ([es2 Hi2] & Hc2 & _ & Hdirs & Ht2).
  erewrite bind_Ok by exact H2.
  unfold bp in Hb1. rewrite resolve_build_path in Hb1 by done.
  unfold ip in Hi2. rewrite resolve_install_path in Hi2 by done.
  destruct (Hdirs _ _ Hb1) as [es3 Hb2].
  right. exists (World (fs w2) (build_dir script_dir name) (trace w2)).
  cbn [fs cwd trace]. split; [done|]. split; [by eexists|].
  split; [by eexists|]. split; [congruence|].
  unfold cd. change (nonempty bp) with true. cbv iota.
  erewrite bind_Ok by reflexivity.
  erewrite bind_Ok; cycle 1.
  { unfold chdir. unfold bp at 1. rewrite resolve_build_path by done.
    by rewrite Hb2. }
  rewrite Hc2, Hc1. unfold bp. by rewrite resolve_build_path.
Qed.

Lemma check_call_cwd proc argv w : cwd (check_call proc argv w).2 = cwd w.
Proof.
  unfold check_call. destruct (proc argv (cwd w) (fs w)) as [rc files].
  by destruct (rc =? 0)%Z.
Qed.

Lemma check_call_raises proc argv w e w' :
  check_call proc argv w = (Raise e, w') ->
  exists returncode, e = CalledProcessError returncode argv.
Proof.
  unfold check_call. destruct (proc argv (cwd w) (fs w)) as [rc files].
  destruct (rc =? 0)%Z; [done|]. intros [= <- _]. by eexists.
Qed.

(** The commands leave the current directory alone, and a failure among
    them is the failure of one command. *)
Lemma build_body_cases proc name gen opts jr w :
  let run := build_body p script_dir anchor proc name gen opts jr w in
  cwd run.2 = cwd w
  /\ (run.1 = Ok tt
      \/ exists returncode argv,
           run.1 = Raise (CalledProcessError returncode argv)).
Proof.
  unfold build_body. cbv zeta.
  erewrite bind_Ok by reflexivity.
  set (w1 := World _ _ _). change (cwd w) with (cwd w1). clearbody w1.
  assert (Hstep : forall argv (k : M unit) w0,
    (forall w', cwd (k w').2 = cwd w'
       /\ ((k w').1 = Ok tt
           \/ exists rc a, (k w').1 = Raise (CalledProcessError rc a))) ->
    cwd ((check_call proc argv ;; k) w0).2 = cwd w0
    /\ (((check_call proc argv ;; k) w0).1 = Ok tt
        \/ exists rc a, ((check_call proc argv ;; k) w0).1
                        = Raise (CalledProcessError rc a))).
  { intros argv k w0 Hk. pose proof (check_call_cwd proc argv w0) as Hc.
    unfold mbind, M_bind.
    destruct (check_call proc argv w0) as [[[]|e] w'] eqn:Hcall.
    - destruct (Hk w') as [Hk1 Hk2]. split; [|done]. simpl in Hc. congruence.
    - destruct (check_call_raises _ _ _ _ _ Hcall) as [rc ->].
      split; [done|]. right. by eexists _, _. }
  assert (Hlast : forall w', cwd (check_call proc cmake_build_release w').2 = cwd w'
       /\ ((check_call proc cmake_build_release w').1 = Ok tt
           \/ exists rc a, (check_call proc cmake_build_release w').1
                           = Raise (CalledProcessError rc a))).
  { intros w'. split; [apply check_call_cwd|].
    destruct (check_call proc cmake_build_release w') as [[[]|e] w''] eqn:Hcall;
      [by left|].
    destruct (check_call_raises _ _ _ _ _ Hcall) as [rc ->].
    right. by eexists _, _. }
  apply Hstep. intros w'. destruct jr; cbn [negb].
  - erewrite bind_Ok by reflexivity. apply Hlast.
  - by apply Hstep.
Qed.

Lemma check_call_ext proc proc' argv w :
  proc argv (cwd w) (fs w) = proc' argv (cwd w) (fs w) ->
  check_call proc argv w = check_call proc' argv w.
Proof. unfold check_call. by intros ->. Qed.

Lemma bind_ext {A B} (m m' : M A) (k k' : A -> M B) w :
  m w = m' w ->
  (forall a w', m w = (Ok a, w') -> k a w' = k' a w') ->
  (m ≫= k) w = (m' ≫= k') w.
Proof.
  intros Hm Hk. unfold mbind, M_bind. rewrite <- Hm.
  destruct (m w) as [[a|e] w']; [by apply Hk | done].
Qed.

Lemma build_body_ext proc proc' name gen opts jr w :
  (forall argv files,
     Exec argv ∈ build_steps p script_dir anchor (Variant name gen opts jr) ->
     proc argv (cwd w) files = proc' argv (cwd w) files) ->
  build_body p script_dir anchor proc name gen opts jr w
  = build_body p script_dir anchor proc' name gen opts jr w.
Proof.
  intros Hagree. unfold build_body.
  assert (Hcall : forall argv w0 w',
    check_call proc argv w0 = (Ok tt, w') -> cwd w' = cwd w0).
  { intros argv w0 w' H. by rewrite <- (check_call_cwd proc argv w0), H. }
  unfold build_steps in Hagree. cbn [build_name generator options just_release] in Hagree.
  apply bind_ext; [done|]. intros [] w1 [= <-].
  apply bind_ext.
  { apply check_call_ext, Hagree. set_solver. }
  intros [] w2 H2. apply Hcall in H2. cbn [cwd] in H2.
  apply bind_ext.
  { destruct jr; [done|]. cbn [negb]. apply check_call_ext. rewrite H2.
    apply Hagree. set_solver. }
  intros [] w3 H3.
  assert (Hc3 : cwd w3 = cwd w2).
  { destruct jr; cbn [negb] in H3; [by injection H3 as <- | by apply Hcall in H3]. }
  apply check_call_ext. rewrite Hc3, H2. apply Hagree. set_solver.
Qed.

End BuildDir.

Lemma single_name_plain p s : single_name p s = true -> plain s.
Proof.
  unfold single_name, plain. rewrite !andb_true_iff, !negb_true_iff.
  intros [[[[H1 H2] H3] _] _]. by rewrite <- !String.eqb_neq.
Qed.

(** X10.  For a build name that is one part of a path, [build_lib] comes
    back to the directory it was started from when it returns, and stays
    in the build directory when one of its commands fails (nothing in
    [cd] undoes the change when the body raises). *)
Theorem build_lib_current_directory
    (p : platform) (script_dir : list string) (anchor : string)
    (proc : list string -> list string -> node -> Z * node)
    (name : string) (gen : option string) (opts : dict) (jr : bool)
    (w : world) :
  single_name p name = true ->
  let run := build_lib p script_dir anchor proc name gen opts jr w in
  (run.1 = Ok tt -> cwd run.2 = normparts true (cwd w))
  /\ (forall returncode argv,
        run.1 = Raise (CalledProcessError returncode argv) ->
        cwd run.2 = build_dir script_dir name).
Proof.
  intros Hname%single_name_plain run. subst run.
  destruct (build_lib_enter p script_dir anchor proc name gen opts jr w Hname)
    as [(q & w' & -> & _) | (w2 & Hc2 & _ & _ & _ & ->)]; [done|].
  destruct (build_body_cases p script_dir anchor proc name gen opts jr w2)
    as [Hcwd Hres].
  unfold mbind, M_bind.
  destruct (build_body p script_dir anchor proc name gen opts jr w2)
    as [[[]|e] w3]; cbn [fst snd] in *.
  - unfold chdir, resolve. cbn [absolute parts app].
    destruct (node_at (fs w3) (normparts true (cwd w))) as [[data | es]|]; done.
  - split; [done|]. intros rc argv _. congruence.
Qed.

Lemma build_lib_current_directory_witness :
  let run := build_lib linux Sample.script_dir "/" Sample.proc_ok
               "linux-static" None [] false Sample.w_fresh in
  run.1 = Ok tt
  /\ (run.1 = Ok tt -> cwd run.2 = normparts true (cwd Sample.w_fresh))
  /\ (forall returncode argv,
        run.1 = Raise (CalledProcessError returncode argv) ->
        cwd run.2 = build_dir Sample.script_dir "linux-static").
Proof.
  split; [by vm_compute|].
  apply (build_lib_current_directory linux Sample.script_dir "/" Sample.proc_ok
           "linux-static" None [] false Sample.w_fresh).
  reflexivity.
Defined.

(** X11.  For a build name that is one part of a path, each command of
    [build_lib] is started in the build directory [builds/<name>] of the
    checkout: what the commands would do when started anywhere else has no
    bearing on the run.  Two hosts whose commands do the same when the
    commands of the variant are started there give the same run. *)
Theorem build_lib_runs_in_the_build_directory
    (p : platform) (script_dir : list string) (anchor : string)
    (proc proc' : list string -> list string -> node -> Z * node)
    (name : string) (gen : option string) (opts : dict) (jr : bool)
    (w : world) :
  single_name p name = true ->
  (forall argv files,
     Exec argv ∈ build_steps p script_dir anchor (Variant name gen opts jr) ->
     proc argv (build_dir script_dir name) files
     = proc' argv (build_dir script_dir name) files) ->
  build_lib p script_dir anchor proc name gen opts jr w
  = build_lib p script_dir anchor proc' name gen opts jr w.
Proof.
  intros Hname%single_name_plain Hagree. unfold build_lib.
  apply bind_ext; [done|]. intros [] w1 _.
  apply bind_ext; [done|]. intros [] w2 _.
  unfold cd. change (nonempty _) with true. cbv iota.
  apply bind_ext; [done|]. intros old w3 [= <- <-].
  apply bind_ext; [done|]. intros [] w3 H3.
  assert (Hc3 : cwd w3 = build_dir script_dir name).
  { unfold chdir in H3. rewrite resolve_build_path in H3 by done.
    destruct (node_at (fs w2) _) as [[data | es]|]; by simplify_eq. }
  apply bind_ext; [|done].
  apply (build_body_ext p script_dir anchor proc proc' name gen opts jr w3).
  by rewrite Hc3.
Qed.


Lemma build_lib_runs_in_the_build_directory_witness :
  build_lib linux Sample.script_dir "/" Sample.proc_ok
    "linux-static" None [] false Sample.w_fresh
  = build_lib linux Sample.script_dir "/"
      (Sample.proc_in (build_dir Sample.script_dir "linux-static"))
      "linux-static" None [] false Sample.w_fresh.
Proof.
  apply (build_lib_runs_in_the_build_directory linux Sample.script_dir "/"
           Sample.proc_ok
           (Sample.proc_in (build_dir Sample.script_dir "linux-static"))
           "linux-static" None [] false Sample.w_fresh).
  - reflexivity.
  - intros argv files _. reflexivity.
Defined.

(** ** The configure command *)

Lemma foldl_snoc {A B} (f : B -> A) (acc : list A) (l : list B) :
  foldl (fun cmd x => cmd ++ [f x]) acc l = acc ++ map f l.
Proof.
  revert acc. induction l as [|x l IH]; intros acc; simpl.
  - by rewrite app_nil_r.
  - by rewrite IH, <- app_assoc.
Qed.

Lemma initial_cmake_tokens p script_dir anchor name gen opts :
  initial_cmake p script_dir anchor name gen opts
  = ["cmake"; fspath p anchor (SCRIPT_PATH script_dir);
     "-DCMAKE_INSTALL_PREFIX=" +:+ fspath p anchor (install_prefix name)]
    ++ generator_tokens gen ++ map define_token opts.
Proof.
  unfold initial_cmake. rewrite foldl_snoc. unfold generator_tokens.
  by destruct gen as [g|]; [destruct (String.eqb g "")|].
Qed.

(** X12.  For a build name that is one part of a path, the configure
    command is [cmake], the checkout and the install prefix
    [../install/<name>]; then [-G <generator>] when a generator is given
    and is not empty; then one [-D<key>=<value>] for each option, in the
    order of the dictionary, a boolean being written [ON] or [OFF]. *)
Theorem configure_command_layout
    (p : platform) (script_dir : list string) (anchor : string)
    (name : string) (gen : option string) (opts : dict) :
  single_name p name = true ->
  let cmd := initial_cmake p script_dir anchor name gen opts in
  take 3 cmd
  = ["cmake"; fspath p anchor (SCRIPT_PATH script_dir);
     "-DCMAKE_INSTALL_PREFIX=" +:+ fspath p anchor (install_prefix name)]
  /\ drop 3 cmd = generator_tokens gen ++ map define_token opts
  /\ (forall g, gen = Some g -> g <> "" -> generator_tokens gen = ["-G"; g])
  /\ (gen = None \/ gen = Some "" -> generator_tokens gen = [])
  /\ (forall i key val,
        opts !! i = Some (key, val) ->
        drop 3 cmd !! (length (generator_tokens gen) + i)
        = Some ("-D" +:+ key +:+ "="
                +:+ match val with
                    | VBool true => "ON"
                    | VBool false => "OFF"
                    | VStr s => s
                    end)).
Proof.
  intros _ cmd. subst cmd. rewrite initial_cmake_tokens.
  split; [done|]. split; [done|]. split; [|split].
  - intros g -> Hg. unfold generator_tokens.
    apply String.eqb_neq in Hg. by rewrite Hg.
  - by intros [-> | ->].
  - intros i key val Hi.
    change (drop 3 (?a ++ ?b)) with b.
    rewrite lookup_app_r by lia.
    replace (length (generator_tokens gen) + i - length (generator_tokens gen))
      with i by lia.
    change (map define_token opts) with (define_token <$> opts).
    rewrite list_lookup_fmap. unfold dict in *. rewrite Hi. simpl.
    unfold define_token. simpl. by destruct val as [[]|].
Qed.

Lemma configure_command_layout_witness :
  let opts := [("BUILD_SHARED_LIBS", VBool true);
               ("CLANG_FORMAT_SUFFIX", VStr "none")] in
  let cmd := initial_cmake win ["src"; "discord-rpc"] "C:\" "win64-dynamic"
               (Some generator64) opts in
  cmd = ["cmake"; "C:\src\discord-rpc";
         "-DCMAKE_INSTALL_PREFIX=..\install\win64-dynamic";
         "-G"; "Visual Studio 14 2015 Win64";
         "-DBUILD_SHARED_LIBS=ON"; "-DCLANG_FORMAT_SUFFIX=none"]
  /\ take 3 cmd
     = ["cmake"; fspath win "C:\" (SCRIPT_PATH ["src"; "discord-rpc"]);
        "-DCMAKE_INSTALL_PREFIX="
        +:+ fspath win "C:\" (install_prefix "win64-dynamic")]
  /\ drop 3 cmd
     = generator_tokens (Some generator64) ++ map define_token opts.
Proof.
  intros opts cmd. split; [reflexivity|].
  pose proof (configure_command_layout win ["src"; "discord-rpc"] "C:\"
                "win64-dynamic" (Some generator64) opts eq_refl)
    as (Hbase & Hrest & _).
  by split.
Defined.

(** ** The install prefix *)

Lemma last_snoc {A} (l : list A) (x d : A) : List.last (l ++ [x]) d = x.
Proof.
  induction l as [|y l IH]; [done|]. simpl.
  by destruct (l ++ [x]) eqn:E; [destruct l|].
Qed.




(** ** What the script reads of the environment *)

(** X14.  On Windows, without [WindowsSdkDir] in the environment,
    [get_signtool] raises [KeyError], and so does [sign], before it prints
    or runs anything. *)
Theorem sign_without_the_sdk_raises
    (environ : gmap string string) (script_dir : list string)
    (anchor : string) (expanduser : string -> string)
    (join_text : string -> list string -> string)
    (proc : list string -> list string -> node -> Z * node) (w : world) :
  environ !! "WindowsSdkDir" = None ->
  get_signtool win environ join_text w = (Raise (KeyError "WindowsSdkDir"), w)
  /\ sign win environ script_dir anchor expanduser join_text proc w
     = (Raise (KeyError "WindowsSdkDir"), w).
Proof.
  intros Hsdk.
  assert (Htool : get_signtool win environ join_text w
                  = (Raise (KeyError "WindowsSdkDir"), w)).
  { unfold get_signtool, environ_getitem. by rewrite Hsdk. }
  split; [exact Htool|]. unfold sign. by erewrite bind_Raise by exact Htool.
Qed.

Lemma sign_without_the_sdk_raises_witness :
  get_signtool win Sample.ci Sample.join_text Sample.w_built
  = (Raise (KeyError "WindowsSdkDir"), Sample.w_built)
  /\ sign win Sample.ci Sample.script_dir "C:\" Sample.expanduser Sample.join_text
       Sample.proc_ok Sample.w_built
     = (Raise (KeyError "WindowsSdkDir"), Sample.w_built).
Proof.
  apply (sign_without_the_sdk_raises Sample.ci Sample.script_dir "C:\"
           Sample.expanduser Sample.join_text Sample.proc_ok Sample.w_built).
  reflexivity.
Defined.

Section Environment.

Variable p : platform.
Variables environ environ' : gmap string string.
Variable script_dir : list string.
Variable anchor : string.
Variables expanduser expanduser' : string -> string.
Variable join_text : string -> list string -> string.
Variable proc : list string -> list string -> node -> Z * node.

Hypothesis same_CI : IS_BUILD_MACHINE environ = IS_BUILD_MACHINE environ'.

Lemma lib_builds_environ static shared skip jr :
  lib_builds p environ static shared skip jr
  = lib_builds p environ' static shared skip jr.
Proof. unfold lib_builds. by rewrite same_CI. Qed.

Lemma libs_environ clean static shared skip jr w :
  libs p environ script_dir anchor proc clean static shared skip jr w
  = libs p environ' script_dir anchor proc clean static shared skip jr w.
Proof. unfold libs. by rewrite lib_builds_environ. Qed.

Lemma sign_environ w :
  (p = win -> environ !! "WindowsSdkDir" = environ' !! "WindowsSdkDir") ->
  (p = osx ->
   expanduser "~/Library/Keychains/login.keychain"
   = expanduser' "~/Library/Keychains/login.keychain") ->
  sign p environ script_dir anchor expanduser join_text proc w
  = sign p environ' script_dir anchor expanduser' join_text proc w.
Proof.
  intros Hsdk Hhome. unfold sign, get_signtool, environ_getitem.
  destruct p; [|unfold sign_command_base_osx|done].
  - by rewrite Hsdk.
  - by rewrite Hhome.
Qed.

Lemma cli_environ sub clean w :
  (p = win -> IS_BUILD_MACHINE environ = true ->
   environ !! "WindowsSdkDir" = environ' !! "WindowsSdkDir") ->
  (p = osx -> IS_BUILD_MACHINE environ = true ->
   expanduser "~/Library/Keychains/login.keychain"
   = expanduser' "~/Library/Keychains/login.keychain") ->
  cli p environ script_dir anchor expanduser join_text proc sub clean w
  = cli p environ' script_dir anchor expanduser' join_text proc sub clean w.
Proof.
  intros Hsdk Hhome. unfold cli. destruct sub; [done|].
  unfold ctx_invoke.
  apply bind_ext; [apply bind_ext; [done|]; intros; apply libs_environ|].
  intros [] w1 _. rewrite <- same_CI.
  destruct (IS_BUILD_MACHINE environ) eqn:Hci; [|done].
  apply bind_ext; [|done].
  apply bind_ext; [done|]. intros [] w2 _.
  apply sign_environ; intros Hp; [by apply Hsdk | by apply Hhome].
Qed.

End Environment.

(** X15.  What the script itself reads of its environment: whether [CI]
    is [true]; on Windows, [WindowsSdkDir]; and on macOS, what
    [os.path.expanduser] makes of the path of the login keychain (it reads
    [HOME]).  Two hosts that agree on these (and whose external commands
    are the same) give the same run, whatever the command; and an attended
    default run reads nothing beyond [CI]. *)
Theorem program_reads_three_things
    (p : platform) (environ environ' : gmap string string)
    (script_dir : list string) (anchor : string)
    (expanduser expanduser' : string -> string)
    (join_text : string -> list string -> string)
    (proc : list string -> list string -> node -> Z * node)
    (clean : bool) (w : world) :
  IS_BUILD_MACHINE environ = IS_BUILD_MACHINE environ' ->
  ((p = win -> environ !! "WindowsSdkDir" = environ' !! "WindowsSdkDir") ->
   (p = osx ->
    expanduser "~/Library/Keychains/login.keychain"
    = expanduser' "~/Library/Keychains/login.keychain") ->
   forall subcommand,
     main p environ script_dir anchor expanduser join_text proc
       clean subcommand w
     = main p environ' script_dir anchor expanduser' join_text proc
         clean subcommand w)
  /\ (IS_BUILD_MACHINE environ = false ->
      main p environ script_dir anchor expanduser join_text proc clean None w
      = main p environ' script_dir anchor expanduser' join_text proc
          clean None w).
Proof.
  intros Hci. split.
  - intros Hsdk Hhome sub. unfold main.
    apply bind_ext; [done|]. intros [] w1 _.
    apply bind_ext.
    { apply cli_environ; [done| |]; intros Hp _; [by apply Hsdk|by apply Hhome]. }
    intros [] w2 _. destruct sub as [c|]; [|done]. cbn [from_option].
    destruct c; cbn [run_command]; try done.
    + unfold for_unity, ctx_invoke. apply bind_ext; [done|].
      intros. by apply libs_environ.
    + unfold unreal, ctx_invoke. apply bind_ext; [|done].
      apply bind_ext; [done|]. intros. by apply libs_environ.
    + by apply sign_environ.
    + by apply libs_environ.
  - intros Hoff. unfold main.
    apply bind_ext; [done|]. intros [] w1 _.
    apply bind_ext; [|done].
    apply cli_environ; [done| |]; intros _ Hon; congruence.
Qed.

Lemma program_reads_three_things_witness :
  let environ : gmap string string :=
    {[ "CI" := "true"; "HOME" := "/Users/dev" ]} in
  let environ' : gmap string string :=
    {[ "CI" := "true"; "HOME" := "/Users/dev"; "LANG" := "C" ]} in
  let run := main osx environ Sample.script_dir "/" Sample.expanduser
               Sample.join_text Sample.proc_ok false None Sample.w_built in
  (run.1 = Ok tt /\ invoked (trace run.2) = ["libs"; "sign"; "archive"])
  /\ run = main osx environ' Sample.script_dir "/" Sample.expanduser
             Sample.join_text Sample.proc_ok false None Sample.w_built.
Proof.
  intros environ environ' run. split; [split; by vm_compute|].
  destruct (program_reads_three_things osx environ environ' Sample.script_dir
              "/" Sample.expanduser Sample.expanduser Sample.join_text
              Sample.proc_ok false Sample.w_built) as [Hsame _];
    [reflexivity|].
  apply Hsame; [intros Hp; discriminate Hp | reflexivity].
Defined.

(** X16.  The program enters the checkout first.  Where [SCRIPT_PATH] is
    no directory it raises at once and changes nothing; otherwise the run
    is the same whatever directory the program is started from.  And the
    [--clean] of the group has no effect when a subcommand is named. *)
Theorem main_starts_from_the_checkout
    (p : platform) (environ : gmap string string)
    (script_dir : list string) (anchor : string)
    (expanduser : string -> string)
    (join_text : string -> list string -> string)
    (proc : list string -> list string -> node -> Z * node)
    (clean : bool) (subcommand : option command) (w : world) :
  let run := main p environ script_dir anchor expanduser join_text proc clean subcommand in
  ((forall es, node_at (fs w) (normparts true script_dir) <> Some (Dir es)) ->
   run w = (Raise (OSError (SCRIPT_PATH script_dir)), w))
  /\ ((exists es, node_at (fs w) (normparts true script_dir) = Some (Dir es)) ->
      forall elsewhere, run (World (fs w) elsewhere (trace w)) = run w)
  /\ (forall c,
        main p environ script_dir anchor expanduser join_text proc clean (Some c) w
        = main p environ script_dir anchor expanduser join_text proc (negb clean)
            (Some c) w).
Proof.
  intros run. subst run. unfold main.
  assert (Hres : forall w', resolve w' (SCRIPT_PATH script_dir)
                            = normparts true script_dir) by done.
  split; [|split].
  - intros Hnot. apply bind_Raise. unfold chdir. rewrite Hres.
    destruct (node_at (fs w) (normparts true script_dir)) as [[data | es]|];
      [done| |done]. by destruct (Hnot es).
  - intros [es Hes] c. unfold mbind, M_bind, chdir. rewrite !Hres.
    cbn [fs trace]. by rewrite Hes.
  - done.
Qed.


(** ** [archive]: a missing install tree, and a second run *)

(** X17.  Without an install tree, [archive] raises [OSError] after the
    line [--- Archiving], in the directory it was started in.  When
    [builds] is there (and the place of the archive is not taken by a
    directory), it fails on entering [INSTALL_ROOT], and by then the
    archive has been created empty: what an earlier run had archived is
    lost. *)
Theorem archive_fails_without_an_install_tree
    (p : platform) (script_dir : list string) (anchor : string) (w : world) :
  (forall es, install_tree script_dir w <> Some (Dir es)) ->
  let run := archive p script_dir anchor w in
  (exists q, run.1 = Raise (OSError q))
  /\ cwd run.2 = cwd w
  /\ trace run.2 = trace w ++ [Echo "--- Archiving"]
  /\ ((exists es, node_at (fs w) (normparts true script_dir ++ ["builds"])
                  = Some (Dir es)) ->
      (forall es, node_at (fs w) (archive_parts p script_dir) <> Some (Dir es)) ->
      run.1 = Raise (OSError (INSTALL_ROOT script_dir))
      /\ node_at (fs run.2) (archive_parts p script_dir) = Some (File (Zip []))).
Proof.
  intros Hnone run. subst run. unfold install_tree in Hnone.
  rewrite resolve_INSTALL_ROOT in Hnone.
  unfold archive. erewrite bind_Ok by reflexivity.
  set (w1 := World (fs w) (cwd w) (trace w ++ [Echo "--- Archiving"])).
  destruct (ZipFile_w (archive_file_path p script_dir) w1)
    as [[af | e] w2] eqn:Hrun; pose proof Hrun as Hzip;
    unfold ZipFile_w in Hzip;
    rewrite resolve_archive_file_path in Hzip; cbn [fs cwd trace w1] in Hzip.
  - (* the archive is created, and the install tree is not entered *)
    assert (Hput : node_put (fs w) (archive_parts p script_dir) (File (Zip []))
                   = Some (fs w2)
                   /\ cwd w2 = cwd w
                   /\ trace w2 = trace w ++ [Echo "--- Archiving"]).
    { destruct (node_at (fs w) (archive_parts p script_dir)) as [[data | es]|];
        [|done|]; destruct (node_put _ _ _); by simplify_eq. }
    destruct Hput as (Hput & Hc2 & Ht2).
    erewrite bind_Ok by exact Hrun.
    unfold cd. change (nonempty (INSTALL_ROOT script_dir)) with true.
    cbv iota. erewrite bind_Ok by reflexivity.
    erewrite bind_Raise; cycle 1.
    { unfold chdir. rewrite resolve_INSTALL_ROOT.
      rewrite install_parts_split. rewrite archive_parts_split in Hput.
      rewrite (node_put_beside _ _ _ _ _ _ _ (zip_name_not_install p) Hput).
      rewrite <- install_parts_split.
      destruct (node_at (fs w) (install_parts script_dir)) as [[d|es]|];
        [reflexivity | by destruct (Hnone es) | reflexivity]. }
    cbn [fst snd]. split; [by eexists|]. split; [done|]. split; [done|].
    intros _ _. split; [done|]. by apply node_put_get in Hput.
  - (* the archive cannot be created *)
    assert (Hw2 : e = OSError (archive_file_path p script_dir) /\ w2 = w1
                  /\ ((forall es, node_at (fs w) (archive_parts p script_dir)
                                  <> Some (Dir es)) ->
                      node_put (fs w) (archive_parts p script_dir)
                        (File (Zip [])) = None)).
    { destruct (node_at (fs w) (archive_parts p script_dir)) as [[data | es]|];
        [|injection Hzip as <- <-; split; [done|split; [done|]];
          intros Hfree; by destruct (Hfree es)|];
        destruct (node_put _ _ _); by simplify_eq. }
    destruct Hw2 as (-> & -> & Hfull).
    erewrite bind_Raise by exact Hrun. cbn [fst snd w1 cwd trace].
    split; [by eexists|]. split; [done|]. split; [done|].
    intros [es Hes] Hfree. exfalso.
    destruct (node_put_under (fs w) _ (zip_name p) es (File (Zip [])) Hes)
      as (fs1 & Hput' & _).
    rewrite <- archive_parts_split in Hput'. rewrite (Hfull Hfree) in Hput'.
    discriminate Hput'.
Qed.

Lemma archive_fails_without_an_install_tree_witness :
  let run := archive linux Sample.script_dir "/" Sample.w_stale in
  run.1 = Raise (OSError (INSTALL_ROOT Sample.script_dir))
  /\ node_at (fs run.2) (archive_parts linux Sample.script_dir)
     = Some (File (Zip [])).
Proof.
  apply (archive_fails_without_an_install_tree linux Sample.script_dir "/"
           Sample.w_stale).
  - intros es H. vm_compute in H. discriminate H.
  - eexists. by vm_compute.
  - intros es H. vm_compute in H. discriminate H.
Defined.

(** What [archive] leaves when the install tree is there: the members, in
    the order of the walk, and everything else as it was. *)
Lemma archive_result
    (p : platform) (script_dir : list string) (anchor : string)
    (w : world) (t : list (string * node)) :
  node_at (fs w) (install_parts script_dir) = Some (Dir t) ->
  wf_node (Dir t) = true ->
  (forall es, node_at (fs w) (archive_parts p script_dir) <> Some (Dir es)) ->
  (exists es, node_at (fs w) (normparts true (cwd w)) = Some (Dir es)) ->
  exists l w',
    archive p script_dir anchor w = (Ok tt, w')
    /\ cwd w' = normparts true (cwd w)
    /\ node_at (fs w') (archive_parts p script_dir)
       = Some (File (Zip (member_of <$> l)))
    /\ listed_files (walk_node (rel ["."]) (Dir t))
       = map (fun '(d, f, _) => (Path false ("." :: d), f)) l
    /\ l ≡ₚ tree_files (Dir t)
    /\ node_at (fs w') (install_parts script_dir) = Some (Dir t)
    /\ (forall q es, node_at (fs w) q = Some (Dir es) ->
                     exists es', node_at (fs w') q = Some (Dir es')).
Proof.
  intros Htree Hwf Hfree [es0 Hcwd].
  pose proof (walk_lists_tree_files (Dir t) (rel ["."])) as Hwalk.
  apply Permutation_map_inv in Hwalk as (l3 & Hlisted & Hperm).
  set (K3 := fun x : list string * string * content =>
               (Path false ("." :: x.1.1), x.1.2, x.2)).
  assert (Hvalid : Forall (fun x => Forall plain x.1.1 /\ plain x.1.2
                                    /\ x ∈ tree_files (Dir t)) l3).
  { apply Forall_forall. intros [[d f] c] Hin.
    assert (Hin' : (d, f, c) ∈ tree_files (Dir t)) by (by rewrite Hperm).
    destruct (tree_files_valid _ d f c Hwf Hin') as [Hd Hf].
    split; [|split; [by apply valid_name_plain | done]].
    eapply Forall_impl; [exact Hd|]. intros s. apply valid_name_plain. }
  assert (Hitems : Forall (readable script_dir t) (map K3 l3)).
  { apply Forall_forall. intros x Hx.
    apply list_elem_of_In, in_map_iff in Hx as ([[d f] c] & <- & Hx).
    apply list_elem_of_In in Hx.
    rewrite Forall_forall in Hvalid.
    destruct (Hvalid _ Hx) as (Hd & Hf & Hin). cbn [fst snd] in *.
    split; [done|]. exists (d ++ [f]). unfold K3. cbn [fst snd parts].
    split.
    - change (("." :: d) ++ [f]) with ("." :: d ++ [f]).
      apply normparts_clean_dot; [apply install_parts_normal|].
      apply Forall_app. split; [done | by constructor].
    - by apply tree_files_lookup. }
  destruct (builds_is_dir script_dir _ _ Htree) as [es Hbuilds].
  destruct (node_put_under (fs w) _ (zip_name p) es (File (Zip [])) Hbuilds)
    as (fs1 & Hput & Hget).
  rewrite <- archive_parts_split in Hput, Hget.
  assert (Htree1 : node_at fs1 (install_parts script_dir) = Some (Dir t)).
  { rewrite install_parts_split. rewrite archive_parts_split in Hput.
    rewrite (node_put_beside _ _ _ _ _ _ _ (zip_name_not_install p) Hput).
    by rewrite <- install_parts_split. }
  set (w3 := World fs1 (install_parts script_dir)
               (trace w ++ [Echo "--- Archiving"])).
  assert (Hinv : archiving p script_dir t (fs w) [] w3).
  { split; [done|]. split; [exact Hget|]. split; [exact Htree1|].
    intros q es' Hq.
    eapply node_put_file_keeps_dirs; [exact Hput|exact Hfree|exact Hq]. }
  destruct (add_files_run p script_dir anchor t (fs w) (map K3 l3) [] w3
              Hinv Hitems) as (w4 & Hloop & Hinv4).
  destruct Hinv4 as (Hcwd4 & Hzip4 & Htree4 & Hdirs4).
  destruct (Hdirs4 _ _ Hcwd) as [es4 Hcwd4'].
  exists l3, (World (fs w4) (normparts true (cwd w)) (trace w4)).
  cbn [fs cwd]. split; [|split; [done|split; [|split; [|split; [done|done]]]]].
  - unfold archive.
    erewrite bind_Ok by reflexivity.
    erewrite bind_Ok; cycle 1.
    { unfold ZipFile_w. rewrite resolve_archive_file_path. cbn [fs cwd trace].
      destruct (node_at (fs w) (archive_parts p script_dir)) as [[data|es']|];
        [|by destruct (Hfree es')|]; by rewrite Hput. }
    unfold cd. change (nonempty (INSTALL_ROOT script_dir)) with true.
    cbv iota.
    erewrite bind_Ok by reflexivity.
    erewrite bind_Ok; cycle 1.
    { unfold chdir. rewrite resolve_INSTALL_ROOT. cbn [fs cwd trace].
      by rewrite Htree1. }
    fold w3.
    erewrite bind_Ok; cycle 1.
    { erewrite bind_Ok; cycle 1.
      { unfold walk, resolve. cbn [absolute rel parts fs cwd w3].
        rewrite normparts_app, install_parts_normal. cbn [foldl].
        rewrite normpath_step_dot, Htree1. reflexivity. }
      cbn [from_option].
      rewrite (for_listing (add_file p anchor (archive_parts p script_dir))).
      rewrite Hlisted.
      replace (map (fun '(d, f, _) =>
                      (Path (absolute (rel ["."])) (parts (rel ["."]) ++ d), f))
                   l3)
        with (map (fun x : path * string * content => (x.1.1, x.1.2))
                  (map K3 l3))
        by (rewrite map_map; apply map_ext; by intros [[d f] c]).
      exact Hloop. }
    cbn [cwd]. unfold chdir, resolve. cbn [absolute parts app].
    by rewrite Hcwd4'.
  - rewrite Hzip4. do 3 f_equal. cbn [app]. rewrite map_map.
    apply map_ext_in. intros [[d f] c] Hin. apply list_elem_of_In in Hin.
    rewrite Forall_forall in Hvalid. destruct (Hvalid _ Hin) as (Hd & Hf & _).
    by apply written_member_of.
  - exact Hlisted.
Qed.

(** The files a walk lists determine the files of the tree they are. *)
Lemma listed_determines (t : list (string * node))
    (l l' : list (list string * string * content)) :
  wf_node (Dir t) = true ->
  Forall (fun x => x ∈ tree_files (Dir t)) l ->
  Forall (fun x => x ∈ tree_files (Dir t)) l' ->
  map (fun '(d, f, _) => (Path false ("." :: d), f)) l
  = map (fun '(d, f, _) => (Path false ("." :: d), f)) l' ->
  l = l'.
Proof.
  intros Hwf Hl. revert l'. induction Hl as [|[[d f] c] l Hx _ IH];
    intros [|[[d' f'] c'] l'] Hl' Heq; try done.
  apply Forall_cons_1 in Hl' as [Hx' Hl']. injection Heq as -> -> Heq.
  pose proof (tree_files_lookup _ _ _ _ Hwf Hx) as Hc.
  pose proof (tree_files_lookup _ _ _ _ Hwf Hx') as Hc'.
  rewrite Hc in Hc'. injection Hc' as ->. f_equal. by apply IH.
Qed.

(** X18.  Run twice in a row, [archive] returns both times and leaves the
    same archive: the second run replaces what the first wrote, member for
    member, and adds nothing to it. *)
Theorem archive_again_replaces_the_archive
    (p : platform) (script_dir : list string) (anchor : string)
    (w : world) (t : list (string * node)) :
  install_tree script_dir w = Some (Dir t) ->
  wf_node (Dir t) = true ->
  (forall es, node_at (fs w) (archive_parts p script_dir) <> Some (Dir es)) ->
  (exists es, node_at (fs w) (normparts true (cwd w)) = Some (Dir es)) ->
  let once := archive p script_dir anchor w in
  let twice := archive p script_dir anchor once.2 in
  exists members,
    once.1 = Ok tt /\ twice.1 = Ok tt
    /\ node_at (fs once.2) (archive_parts p script_dir)
       = Some (File (Zip members))
    /\ node_at (fs twice.2) (archive_parts p script_dir)
       = Some (File (Zip members))
    /\ members ≡ₚ member_of <$> tree_files (Dir t).
Proof.
  intros Htree Hwf Hfree Hcwd once twice.
  unfold install_tree in Htree. rewrite resolve_INSTALL_ROOT in Htree.
  destruct (archive_result p script_dir anchor w t Htree Hwf Hfree Hcwd)
    as (l1 & w1 & Hrun1 & Hcwd1 & Hzip1 & Hlist1 & Hperm1 & Htree1 & Hdirs1).
  subst once twice. rewrite Hrun1. cbn [fst snd].
  destruct (archive_result p script_dir anchor w1 t Htree1 Hwf)
    as (l2 & w2 & Hrun2 & Hcwd2 & Hzip2 & Hlist2 & Hperm2 & Htree2 & Hdirs2).
  { intros es. by rewrite Hzip1. }
  { rewrite Hcwd1, normparts_abs_idem. destruct Hcwd as [es Hes].
    by apply (Hdirs1 _ es). }
  rewrite Hrun2. cbn [fst snd].
  assert (Hsame : l1 = l2).
  { apply (listed_determines t); [done| | |congruence];
      apply Forall_forall; intros x Hx; [by rewrite <- Hperm1 | by rewrite <- Hperm2]. }
  subst l2. exists (member_of <$> l1).
  split; [done|]. split; [done|]. split; [done|]. split; [done|].
  by rewrite Hperm1.
Qed.

Lemma archive_again_replaces_the_archive_witness :
  let once := archive osx Sample.script_dir "/" Sample.w_built in
  let twice := archive osx Sample.script_dir "/" once.2 in
  exists members,
    once.1 = Ok tt /\ twice.1 = Ok tt
    /\ node_at (fs once.2) (archive_parts osx Sample.script_dir)
       = Some (File (Zip members))
    /\ node_at (fs twice.2) (archive_parts osx Sample.script_dir)
       = Some (File (Zip members))
    /\ members ≡ₚ member_of <$> tree_files (Dir Sample.install).
Proof.
  apply (archive_again_replaces_the_archive osx Sample.script_dir "/"
           Sample.w_built Sample.install).
  - by vm_compute.
  - by vm_compute.
  - intros es H. vm_compute in H. discriminate H.
  - eexists. by vm_compute.
Defined.


(** ** [unreal] *)

Lemma bind_Ok_inv {A B} (m : M A) (k : A -> M B) w b w' :
  (m ≫= k) w = (Ok b, w') ->
  exists a w1, m w = (Ok a, w1) /\ k a w1 = (Ok b, w').
Proof.
  unfold mbind, M_bind. destruct (m w) as [[a|e] w1]; [|done].
  intros H. by exists a, w1.
Qed.

Lemma shutil_copy_into src dst w w' :
  (exists es, node_at (fs w) (resolve w dst) = Some (Dir es)) ->
  shutil_copy src dst w = (Ok tt, w') ->
  let target := resolve w (os_path_join dst [rel [basename src]]) in
  exists data,
    node_at (fs w) (resolve w src) = Some (File data)
    /\ node_at (fs w') target = Some (File data)
    /\ (forall qs d, qs <> target ->
          node_at (fs w') qs = Some (File d)
          <-> node_at (fs w) qs = Some (File d))
    /\ cwd w' = cwd w /\ trace w' = trace w.
Proof.
  intros [es Hdir] Hrun target. unfold shutil_copy in Hrun.
  rewrite Hdir in Hrun. cbn [from_option is_dir] in Hrun. fold target in Hrun.
  destruct (node_at (fs w) (resolve w src)) as [[data | es1]|]; [|done|done].
  destruct (bool_decide _); [done|].
  destruct (node_put (fs w) target (File data)) as [fs'|] eqn:Hput;
    [|by destruct (node_at (fs w) target) as [[|]|]].
  assert (Hfree : forall es', node_at (fs w) target <> Some (Dir es')).
  { intros es' Heq. by rewrite Heq in Hrun. }
  assert (Hw' : w' = World fs' (cwd w) (trace w)).
  { destruct (node_at (fs w) target) as [[|]|]; by simplify_eq. }
  subst w'. exists data. cbn [fs cwd trace].
  split; [done|]. split; [by eapply node_put_get|].
  split; [|done]. intros qs d Hne. by eapply node_put_files.
Qed.

Ltac all_plain := repeat (constructor; [done|]); constructor.

Section Unreal.

Variable p : platform.
Variable script_dir : list string.
Variable anchor : string.

Lemma resolve_from_checkout names w :
  Forall plain names ->
  resolve w (Path true (script_dir ++ names)) = normparts true script_dir ++ names.
Proof.
  intros H. unfold resolve. cbn [absolute parts app].
  rewrite normparts_app. by apply foldl_normpath_step_plain.
Qed.

(** One [mkdir_p(dir)] and [shutil.copy(src, dir)] that both return. *)
Lemma copy_into_made sp dp name w w1 w2 :
  Forall plain sp -> Forall plain dp -> plain name ->
  mkdir_p p anchor (Path true (script_dir ++ dp)) w = (Ok tt, w1) ->
  shutil_copy (Path true (script_dir ++ sp ++ [name]))
              (Path true (script_dir ++ dp)) w1 = (Ok tt, w2) ->
  exists data,
    node_at (fs w) (normparts true script_dir ++ sp ++ [name])
    = Some (File data)
    /\ node_at (fs w2) (normparts true script_dir ++ dp ++ [name])
       = Some (File data)
    /\ (forall qs d, qs <> normparts true script_dir ++ dp ++ [name] ->
          node_at (fs w2) qs = Some (File d)
          <-> node_at (fs w) qs = Some (File d))
    /\ cwd w2 = cwd w /\ execs (trace w2) = execs (trace w).
Proof.
  intros Hsp Hdp Hname Hmk Hcp.
  apply (mkdir_p_returns p anchor) in Hmk
    as ([es Hes] & Hc1 & Hfiles1 & _ & Ht1).
  rewrite resolve_from_checkout in Hes by done.
  apply shutil_copy_into in Hcp; cycle 1.
  { rewrite resolve_from_checkout by done. by eexists. }
  destruct Hcp as (data & Hsrc & Hdst & Hfiles2 & Hc2 & Ht2).
  assert (Hbase : basename (Path true (script_dir ++ sp ++ [name])) = name).
  { unfold basename. cbn [parts]. rewrite !app_assoc. apply last_snoc. }
  rewrite Hbase in Hdst, Hfiles2.
  change (os_path_join (Path true (script_dir ++ dp)) [rel [name]])
    with (Path true ((script_dir ++ dp) ++ [name])) in Hdst, Hfiles2.
  rewrite <- app_assoc in Hdst, Hfiles2.
  rewrite resolve_from_checkout in Hsrc, Hdst, Hfiles2
    by (apply Forall_app; split; [done | by constructor]).
  exists data. split; [by apply Hfiles1|]. split; [done|].
  split; [|split; congruence].
  intros qs d Hne. rewrite <- Hfiles1. by apply Hfiles2.
Qed.

End Unreal.

(** X19.  When [unreal] returns, the build of [for_unity] has returned,
    and each of the three files (the DLL and the import library in
    [builds/win64-dynamic/src/Release], and the header) is in its
    directory of the example plugin, under its own name and holding what
    the source held after the build.  No other file has changed, no
    command was run for the copies, and the current directory is the one
    the build left. *)
Theorem unreal_copies_the_built_files
    (p : platform) (environ : gmap string string) (script_dir : list string)
    (anchor : string)
    (proc : list string -> list string -> node -> Z * node) (w : world) :
  let built := for_unity p environ script_dir anchor proc w in
  let run := unreal p environ script_dir anchor proc w in
  run.1 = Ok tt ->
  built.1 = Ok tt
  /\ Forall (fun c => exists data,
               node_at (fs built.2) c.1 = Some (File data)
               /\ node_at (fs run.2) c.2 = Some (File data))
            (unreal_copies script_dir)
  /\ (forall qs d, qs ∉ (unreal_copies script_dir).*2 ->
        node_at (fs run.2) qs = Some (File d)
        <-> node_at (fs built.2) qs = Some (File d))
  /\ execs (trace run.2) = execs (trace built.2)
  /\ cwd run.2 = cwd built.2.
Proof.
  intros built run. subst built run. unfold unreal.
  change (ctx_invoke "libs"
            (libs p environ script_dir anchor proc false false true true true))
    with (for_unity p environ script_dir anchor proc).
  destruct ((for_unity p environ script_dir anchor proc ;;
             unreal_copy_files p script_dir anchor) w) as [r wf] eqn:Hrun.
  cbn [fst snd]. intros ->.
  apply bind_Ok_inv in Hrun as ([] & wb & -> & Hcopy). cbn [fst snd].
  split; [done|].
  unfold unreal_copy_files in Hcopy.
  apply bind_Ok_inv in Hcopy as ([] & w0 & [= <-] & Hcopy).
  apply bind_Ok_inv in Hcopy as ([] & w1 & Hmk1 & Hcopy).
  apply bind_Ok_inv in Hcopy as ([] & w2 & Hcp1 & Hcopy).
  apply bind_Ok_inv in Hcopy as ([] & w3 & Hmk2 & Hcopy).
  apply bind_Ok_inv in Hcopy as ([] & w4 & Hcp2 & Hcopy).
  apply bind_Ok_inv in Hcopy as ([] & w5 & Hmk3 & Hcp3).
  assert (Hdll : UNREAL_DLL_PATH script_dir
                 = Path true (script_dir ++
                     ["examples"; "unrealstatus"; "plugins"; "discordrpc";
                      "Binaries"; "ThirdParty"; "discordrpcLibrary"; "Win64"])).
  { cbv -[app]. by rewrite <- !app_assoc. }
  assert (Hinc : UNREAL_INCLUDE_PATH script_dir
                 = Path true (script_dir ++
                     ["examples"; "unrealstatus"; "plugins"; "discordrpc";
                      "Source"; "ThirdParty"; "discordrpcLibrary"; "Include"])).
  { cbv -[app]. by rewrite <- !app_assoc. }
  assert (Hlib : UNREAL_LIB_PATH script_dir
                 = Path true (script_dir ++
                     ["examples"; "unrealstatus"; "plugins"; "discordrpc";
                      "Source"; "ThirdParty"; "discordrpcLibrary"; "x64";
                      "Release"])).
  { cbv -[app]. by rewrite <- !app_assoc. }
  assert (Hsrc1 : os_path_join (BUILD_BASE_PATH script_dir)
                    [rel ["discord-rpc.dll"]]
                  = Path true (script_dir ++
                      ["builds"; "win64-dynamic"; "src"; "Release"]
                      ++ ["discord-rpc.dll"])).
  { cbv -[app]. by rewrite <- !app_assoc. }
  assert (Hsrc2 : os_path_join (SCRIPT_PATH script_dir)
                    [rel ["include"]; rel ["discord-rpc.h"]]
                  = Path true (script_dir ++ ["include"] ++ ["discord-rpc.h"])).
  { cbv -[app]. by rewrite <- !app_assoc. }
  assert (Hsrc3 : os_path_join (BUILD_BASE_PATH script_dir)
                    [rel ["discord-rpc.lib"]]
                  = Path true (script_dir ++
                      ["builds"; "win64-dynamic"; "src"; "Release"]
                      ++ ["discord-rpc.lib"])).
  { cbv -[app]. by rewrite <- !app_assoc. }
  rewrite Hdll in Hmk1, Hcp1. rewrite Hinc in Hmk2, Hcp2.
  rewrite Hlib in Hmk3, Hcp3. rewrite Hsrc1 in Hcp1. rewrite Hsrc2 in Hcp2.
  rewrite Hsrc3 in Hcp3.
  eapply copy_into_made in Hcp1; [|all_plain|all_plain|done|exact Hmk1].
  eapply copy_into_made in Hcp2; [|all_plain|all_plain|done|exact Hmk2].
  eapply copy_into_made in Hcp3; [|all_plain|all_plain|done|exact Hmk3].
  destruct Hcp1 as (dll & Hs1 & Hd1 & Hf1 & Hc1 & Ht1).
  destruct Hcp2 as (header & Hs2 & Hd2 & Hf2 & Hc2 & Ht2).
  destruct Hcp3 as (lib & Hs3 & Hd3 & Hf3 & Hc3 & Ht3).
  cbn [fs cwd trace] in *. rewrite execs_echo in Ht1.
  set (S := normparts true script_dir) in *.
  assert (Hne : forall a b : list string, a <> b -> S ++ a <> S ++ b).
  { intros a b Hab Heq. by apply app_inv_head in Heq. }
  split; [|split; [|split; congruence]].
  - unfold unreal_copies. fold S. rewrite <- !app_assoc. cbn [app].
    repeat apply Forall_cons_2; [| | |constructor]; cbn [fst snd].
    + exists dll. split; [done|].
      apply Hf3; [by apply Hne|]. apply Hf2; [by apply Hne|]. done.
    + exists header. split; [by apply Hf1; [apply Hne|]|].
      apply Hf3; [by apply Hne|]. done.
    + exists lib. split; [|done].
      apply Hf1; [by apply Hne|]. apply Hf2; [by apply Hne|]. done.
  - intros qs d Hqs. unfold unreal_copies in Hqs. fold S in Hqs.
    rewrite <- !app_assoc in Hqs. cbn [app fmap list_fmap fst snd] in Hqs.
    rewrite !not_elem_of_cons in Hqs. destruct Hqs as (H1 & H2 & H3 & _).
    rewrite Hf3 by done. rewrite Hf2 by done. by rewrite Hf1.
Qed.


Lemma unreal_copies_the_built_files_witness :
  let built := for_unity win ∅ Sample.script_dir "C:\" Sample.proc_ok
                 Sample.w_windows in
  let run := unreal win ∅ Sample.script_dir "C:\" Sample.proc_ok
               Sample.w_windows in
  run.1 = Ok tt
  /\ built.1 = Ok tt
  /\ Forall (fun c => exists data,
               node_at (fs built.2) c.1 = Some (File data)
               /\ node_at (fs run.2) c.2 = Some (File data))
            (unreal_copies Sample.script_dir)
  /\ (forall qs d, qs ∉ (unreal_copies Sample.script_dir).*2 ->
        node_at (fs run.2) qs = Some (File d)
        <-> node_at (fs built.2) qs = Some (File d))
  /\ execs (trace run.2) = execs (trace built.2)
  /\ cwd run.2 = cwd built.2.
Proof.
  split; [by vm_compute|].
  apply (unreal_copies_the_built_files win ∅ Sample.script_dir "C:\"
           Sample.proc_ok Sample.w_windows).
  by vm_compute.
Defined.

(** ** What a run leaves of the files there were *)

Lemma dir_lookup_remove_ne name q es :
  name <> q -> dir_lookup q (dir_remove name es) = dir_lookup q es.
Proof.
  intros Hne. induction es as [|[n y] es IH]; [done|]. simpl.
  destruct (String.eqb n name) eqn:E; simpl.
  - apply String.eqb_eq in E as ->. apply String.eqb_neq in Hne.
    by rewrite Hne.
  - by rewrite IH.
Qed.

Lemma dir_lookup_remove_eq name es :
  NoDup es.*1 -> dir_lookup name (dir_remove name es) = None.
Proof.
  induction es as [|[n y] es IH]; intros Hnd; [done|]. simpl in *.
  apply NoDup_cons in Hnd as [Hn Hnd].
  destruct (String.eqb n name) eqn:E; simpl.
  - apply String.eqb_eq in E as ->. clear -Hn.
    induction es as [|[n y] es IH]; [done|]. simpl in *.
    apply not_elem_of_cons in Hn as [Hne Hn]. apply not_eq_sym in Hne.
    apply String.eqb_neq in Hne. rewrite Hne. by apply IH.
  - rewrite E. by apply IH.
Qed.

Lemma dir_lookup_elem name c es : dir_lookup name es = Some c -> (name, c) ∈ es.
Proof.
  induction es as [|[n y] es IH]; [done|]. simpl.
  destruct (String.eqb n name) eqn:E.
  - apply String.eqb_eq in E as ->. intros [= ->]. by left.
  - intros H. right. by apply IH.
Qed.

Lemma node_at_cons es p qs :
  node_at (Dir es) (p :: qs)
  = match dir_lookup p es with Some c => node_at c qs | None => None end.
Proof. reflexivity. Qed.

(** [rmtree] takes nothing that is not under the directory it removes. *)
Lemma rmdir_tree_files ps : forall n qs d,
  ~ ps `prefix_of` qs ->
  node_at n qs = Some (File d) ->
  node_at (rmdir_tree ps n) qs = Some (File d).
Proof.
  induction ps as [|p ps IH]; intros n qs d Hpre Hat.
  { by destruct n. }
  destruct n as [data | es]; [by destruct ps|].
  destruct qs as [|q qs]; [done|].
  assert (Hcase : p <> q \/ (p = q /\ ~ ps `prefix_of` qs)).
  { destruct (decide (p = q)) as [-> | Hne]; [|by left].
    right. split; [done|]. intros H. apply Hpre. by apply prefix_cons. }
  simpl in Hat. destruct ps as [|p2 ps].
  - destruct Hcase as [Hne | [_ Hn]]; [|destruct Hn; apply prefix_nil].
    simpl. destruct (dir_lookup p es) as [[data | es1]|]; simpl; try done.
    by rewrite dir_lookup_remove_ne.
  - change (rmdir_tree (p :: p2 :: ps) (Dir es))
      with (match dir_lookup p es with
            | Some c => Dir (dir_set p (rmdir_tree (p2 :: ps) c) es)
            | None => Dir es
            end).
    destruct (dir_lookup p es) as [c|] eqn:Hc; [|done]. simpl.
    destruct Hcase as [Hne | [<- Hn]].
    + by rewrite dir_lookup_set_ne.
    + rewrite dir_lookup_set_eq. rewrite Hc in Hat. by apply IH.
Qed.

(** And it takes everything under a directory of a well-formed tree. *)
Lemma rmdir_tree_gone ps : forall n es qs,
  wf_node n = true -> ps <> [] ->
  node_at n ps = Some (Dir es) ->
  ps `prefix_of` qs ->
  node_at (rmdir_tree ps n) qs = None.
Proof.
  induction ps as [|p ps IH]; intros n es0 qs Hwf Hne Hat [r ->]; [done|].
  destruct n as [data | es]; [done|].
  apply wf_node_Dir in Hwf as [Hes Hnd].
  cbn [node_at] in Hat. destruct (dir_lookup p es) as [c|] eqn:Hc; [|done].
  destruct ps as [|p2 ps].
  - simpl in Hat. injection Hat as ->. simpl. rewrite Hc. simpl.
    by rewrite dir_lookup_remove_eq.
  - change (rmdir_tree (p :: p2 :: ps) (Dir es))
      with (match dir_lookup p es with
            | Some c => Dir (dir_set p (rmdir_tree (p2 :: ps) c) es)
            | None => Dir es
            end).
    rewrite Hc. change ((p :: p2 :: ps) ++ r) with (p :: (p2 :: ps) ++ r).
    rewrite node_at_cons, dir_lookup_set_eq.
    apply (IH c es0); [|done|done|by eexists].
    rewrite Forall_forall in Hes.
    apply dir_lookup_elem in Hc. by destruct (Hes _ Hc).
Qed.

Section Preserves.

Variable P : node -> Prop.

Lemma preserves_bind {A B} (m : M A) (k : A -> M B) :
  preserves P m -> (forall a, preserves P (k a)) -> preserves P (m ≫= k).
Proof.
  intros Hm Hk w Hw. specialize (Hm w Hw). unfold mbind, M_bind.
  destruct (m w) as [[a|e] w']; [by apply Hk | done].
Qed.

Lemma preserves_same {A} (m : M A) :
  (forall w, fs (m w).2 = fs w) -> preserves P m.
Proof. intros H w Hw. by rewrite H. Qed.

Lemma preserves_for {A} (xs : list A) (body : A -> M unit) :
  (forall x, preserves P (body x)) -> preserves P (for_ xs body).
Proof.
  intros Hbody. induction xs as [|x xs IH]; [by apply preserves_same|].
  simpl. apply preserves_bind; [apply Hbody | by intros _].
Qed.

Lemma preserves_log e : preserves P (log e).
Proof. by apply preserves_same. Qed.

Lemma preserves_chdir q : preserves P (chdir q).
Proof.
  apply preserves_same. intros w. unfold chdir.
  by destruct (node_at _ _) as [[|]|].
Qed.

Lemma preserves_cd new_dir body :
  preserves P body -> preserves P (cd new_dir body).
Proof.
  intros Hbody. unfold cd. destruct (nonempty new_dir); [|done].
  apply preserves_bind; [by apply preserves_same|]. intros old.
  apply preserves_bind; [apply preserves_chdir|]. intros _.
  apply preserves_bind; [done|]. intros _. apply preserves_chdir.
Qed.

(** What making directories and running the commands keep, the builds
    keep. *)
Hypothesis P_mkdirs : forall ps n n', mkdirs ps n = Some n' -> P n -> P n'.

Variable proc : list string -> list string -> node -> Z * node.

Hypothesis P_proc : forall argv cwd files, P files -> P (proc argv cwd files).2.

Lemma preserves_mkdir_p p anchor dir : preserves P (mkdir_p p anchor dir).
Proof.
  intros w Hw. rewrite mkdir_p_run. cbv zeta.
  destruct (node_at (fs w) (resolve w dir)) as [[data | es]|]; try done.
  destruct (mkdirs _ _) as [fs'|] eqn:Hmk; [|done].
  by apply (P_mkdirs _ _ _ Hmk).
Qed.

Lemma preserves_check_call argv : preserves P (check_call proc argv).
Proof.
  intros w Hw. unfold check_call.
  specialize (P_proc argv (cwd w) (fs w) Hw).
  destruct (proc argv (cwd w) (fs w)) as [rc files].
  by destruct (rc =? 0)%Z.
Qed.

Lemma preserves_build_lib p script_dir anchor name gen opts jr :
  preserves P (build_lib p script_dir anchor proc name gen opts jr).
Proof.
  unfold build_lib.
  apply preserves_bind; [apply preserves_mkdir_p|]. intros _.
  apply preserves_bind; [apply preserves_mkdir_p|]. intros _.
  apply preserves_cd.
  apply preserves_bind; [apply preserves_log|]. intros _.
  apply preserves_bind; [by apply preserves_check_call|]. intros _.
  apply preserves_bind; [|intros _; by apply preserves_check_call].
  destruct jr; [by apply preserves_same | by apply preserves_check_call].
Qed.

(** [libs] after line 215. *)
Lemma preserves_builds p environ script_dir anchor static shared skip jr :
  preserves P
    (mkdir_p p anchor (rel ["builds"]) ;;
     for_ (lib_builds p environ static shared skip jr)
       (fun '(Variant name gen opts release_only) =>
          build_lib p script_dir anchor proc name gen opts release_only)).
Proof.
  apply preserves_bind; [apply preserves_mkdir_p|]. intros _.
  apply preserves_for. intros [name gen opts release_only].
  by apply preserves_build_lib.
Qed.

Lemma preserves_sign p environ script_dir anchor expanduser join_text :
  preserves P (sign p environ script_dir anchor expanduser join_text proc).
Proof.
  unfold sign. apply preserves_bind.
  { unfold get_signtool, environ_getitem.
    destruct p; [destruct (environ !! _)|..]; by apply preserves_same. }
  intros tool.
  assert (Hfiles : forall exts base,
            preserves P (sign_files p script_dir anchor proc exts base)).
  { intros exts base. unfold sign_files.
    apply preserves_bind; [apply preserves_log|]. intros _.
    apply preserves_bind; [by apply preserves_same|]. intros listing.
    apply preserves_for. intros [[path dirs] filenames].
    apply preserves_for. intros fname.
    destruct (bool_decide _); [by apply preserves_same|].
    apply preserves_bind; [apply preserves_log|]. intros _.
    by apply preserves_check_call. }
  destruct p; [apply Hfiles | apply Hfiles | apply preserves_log].
Qed.

End Preserves.

Lemma file_at_mkdirs qs d ps n n' :
  mkdirs ps n = Some n' -> file_at qs d n -> file_at qs d n'.
Proof. intros Hmk. by apply (mkdirs_files _ _ _ qs d Hmk). Qed.

Lemma no_file_at_mkdirs qs ps n n' :
  mkdirs ps n = Some n' -> no_file_at qs n -> no_file_at qs n'.
Proof.
  intros Hmk Hn d Hat. apply (Hn d). by apply (mkdirs_files _ _ _ qs d Hmk).
Qed.

Lemma preserves_ZipFile_write qs d af filename arcname :
  qs <> af -> preserves (file_at qs d) (ZipFile_write af filename arcname).
Proof.
  intros Hne w Hw. unfold ZipFile_write.
  destruct (node_at (fs w) (resolve w filename)) as [n|]; [|done].
  destruct (node_at (fs w) af) as [[[b | members]|]|] eqn:Haf; try done.
  destruct (node_put _ _ _) as [fs'|] eqn:Hput; [|done].
  cbn [snd fs]. eapply node_put_files; [exact Hput| |done|done].
  intros es. by rewrite Haf.
Qed.

Lemma preserves_archive qs d p script_dir anchor :
  qs <> archive_parts p script_dir ->
  preserves (file_at qs d) (archive p script_dir anchor).
Proof.
  intros Hne. unfold archive.
  apply preserves_bind; [apply preserves_log|]. intros _ w Hw.
  unfold mbind at 1, M_bind at 1.
  destruct (ZipFile_w (archive_file_path p script_dir) w)
    as [[af | e] w1] eqn:Hzip; unfold ZipFile_w in Hzip;
    rewrite resolve_archive_file_path in Hzip.
  - assert (Haf : af = archive_parts p script_dir /\ file_at qs d (fs w1)).
    { destruct (node_at (fs w) (archive_parts p script_dir))
        as [[data | es]|] eqn:Hat; [|done|];
        destruct (node_put _ _ _) as [fs'|] eqn:Hput; simplify_eq;
        (split; [done|]); cbn [fs];
        (eapply node_put_files; [exact Hput| |done|done]);
        intros es; by rewrite Hat. }
    destruct Haf as [-> Hw1].
    refine (preserves_cd (file_at qs d) _ _ _ w1 Hw1).
    apply preserves_bind; [by apply preserves_same|]. intros listing.
    apply preserves_for. intros [[path dirs] filenames].
    apply preserves_for. intros fname.
    apply preserves_bind; [apply preserves_log|]. intros _.
    by apply preserves_ZipFile_write.
  - cbn [snd].
    destruct (node_at (fs w) (archive_parts p script_dir)) as [[data | es]|];
      [|by simplify_eq|]; destruct (node_put _ _ _); by simplify_eq.
Qed.

Lemma libs_keeps_file
    (p : platform) (environ : gmap string string) (script_dir : list string)
    (anchor : string)
    (proc : list string -> list string -> node -> Z * node)
    (clean static shared skip jr : bool) (w : world)
    (qs : list string) (d : content) :
  keeps_files proc ->
  file_at qs d (fs w) ->
  clean = false \/ ~ resolve w (rel ["builds"]) `prefix_of` qs ->
  file_at qs d (fs (libs p environ script_dir anchor proc
                      clean static shared skip jr w).2).
Proof.
  intros Hproc Hw Hclean. unfold libs.
  pose proof (preserves_builds (file_at qs d) (file_at_mkdirs qs d) proc
                (fun argv cwd files => Hproc argv cwd files qs d)
                p environ script_dir anchor static shared skip jr) as Hrest.
  destruct clean.
  - destruct Hclean as [? | Hout]; [done|].
    erewrite bind_Ok by reflexivity. apply Hrest. cbn [fs].
    by apply rmdir_tree_files.
  - erewrite bind_Ok by reflexivity. by apply Hrest.
Qed.

(** X20.  With external commands that keep the files they find, [libs]
    keeps every file (where it is, with what it holds) unless [clean] is
    set and the file is under [builds]; and so does the default run of
    [cli], for every file but the archive. *)
Theorem default_run_keeps_the_files
    (p : platform) (environ : gmap string string) (script_dir : list string)
    (anchor : string) (expanduser : string -> string)
    (join_text : string -> list string -> string)
    (proc : list string -> list string -> node -> Z * node)
    (clean : bool) (w : world) (qs : list string) (d : content) :
  keeps_files proc ->
  file_at qs d (fs w) ->
  clean = false \/ ~ resolve w (rel ["builds"]) `prefix_of` qs ->
  let built :=
    libs p environ script_dir anchor proc clean false false false false w in
  let run := cli p environ script_dir anchor expanduser join_text proc None clean w in
  file_at qs d (fs built.2)
  /\ (qs <> archive_parts p script_dir -> file_at qs d (fs run.2)).
Proof.
  intros Hproc Hw Hclean built run. split; [by apply libs_keeps_file|].
  intros Hne. subst run. unfold cli, ctx_invoke.
  assert (Hstage : forall name (m : M unit),
            preserves (file_at qs d) m ->
            preserves (file_at qs d) (log (Invoke name) ;; m)).
  { intros name m Hm.
    apply preserves_bind; [apply preserves_log | by intros _]. }
  assert (Hrest : preserves (file_at qs d)
    ((if IS_BUILD_MACHINE environ
      then log (Invoke "sign") ;;
           sign p environ script_dir anchor expanduser join_text proc
      else mret tt) ;;
     log (Invoke "archive") ;; archive p script_dir anchor)).
  { apply preserves_bind.
    - destruct (IS_BUILD_MACHINE environ); [|by apply preserves_same].
      apply Hstage, preserves_sign. intros argv cwd files. apply Hproc.
    - intros _. by apply Hstage, preserves_archive. }
  unfold mbind at 1, M_bind at 1.
  erewrite bind_Ok by reflexivity.
  set (w0 := World (fs w) (cwd w) (trace w ++ [Invoke "libs"])).
  pose proof (libs_keeps_file p environ script_dir anchor proc clean
                false false false false w0 qs d Hproc Hw Hclean) as Hlibs.
  destruct (libs p environ script_dir anchor proc clean
              false false false false w0) as [[[]|e] w1]; [|done].
  by apply Hrest.
Qed.

Lemma default_run_keeps_the_files_witness :
  let qs := ["src"; "discord-rpc"; "builds"; "install"; "notes.txt"] in
  let run := cli linux ∅ Sample.script_dir "/" Sample.expanduser Sample.join_text
               Sample.proc_ok None false Sample.w_built in
  file_at qs (Sample.raw "notes") (fs run.2).
Proof.
  intros qs.
  apply (default_run_keeps_the_files linux ∅ Sample.script_dir "/"
           Sample.expanduser Sample.join_text Sample.proc_ok false Sample.w_built qs
           (Sample.raw "notes")).
  - by intros argv cwd files qs' d H.
  - reflexivity.
  - by left.
  - discriminate.
Defined.

Lemma resolve_builds w :
  resolve w (rel ["builds"]) = normparts true (cwd w) ++ ["builds"].
Proof.
  unfold resolve. cbn [absolute rel parts]. rewrite normparts_app.
  cbn [foldl]. by rewrite normpath_step_plain.
Qed.

(** X21.  [libs] with [clean], where [builds] is a directory (of a tree
    with no name twice in a directory): a file under [builds] that the
    external commands do not make again is not there when [libs] ends,
    however it ends. *)
Theorem clean_build_drops_stale_files
    (p : platform) (environ : gmap string string) (script_dir : list string)
    (anchor : string)
    (proc : list string -> list string -> node -> Z * node)
    (static shared skip jr : bool) (w : world) (qs : list string) :
  wf_node (fs w) = true ->
  (exists es, node_at (fs w) (resolve w (rel ["builds"])) = Some (Dir es)) ->
  resolve w (rel ["builds"]) `prefix_of` qs ->
  never_makes qs proc ->
  no_file_at qs (fs (libs p environ script_dir anchor proc
                       true static shared skip jr w).2).
Proof.
  intros Hwf [es Hes] Hpre Hproc. unfold libs.
  erewrite bind_Ok by reflexivity.
  apply (preserves_builds (no_file_at qs) (no_file_at_mkdirs qs) proc Hproc).
  cbn [fs]. intros d Hat.
  rewrite (rmdir_tree_gone _ _ es qs Hwf) in Hat; [done| |done|done].
  rewrite resolve_builds. by destruct (normparts true (cwd w)).
Qed.

Lemma clean_build_drops_stale_files_witness :
  let qs := ["src"; "discord-rpc"; "builds"; "install"; "notes.txt"] in
  let w := Sample.w_built in
  (exists d, node_at (fs w) qs = Some (File d))
  /\ no_file_at qs (fs (libs linux ∅ Sample.script_dir "/" Sample.proc_ok
                          true false false false false w).2).
Proof.
  intros qs w. split; [by eexists|].
  apply (clean_build_drops_stale_files linux ∅ Sample.script_dir "/"
           Sample.proc_ok false false false false w qs).
  - by vm_compute.
  - eexists. by vm_compute.
  - by exists ["install"; "notes.txt"].
  - by intros argv cwd files H.
Defined.


(** ** The names of the variants *)

(** X22.  The name of a variant tells the build: it starts with the name
    of the platform and ends with [-dynamic] or [-static] according to the
    link mode; a generator is given on Windows only, the 64-bit one for the
    [win64] names and the 32-bit one for the [win32] names; and no option
    is given twice. *)
Theorem variant_names_tell_the_build
    (p : platform) (environ : gmap string string)
    (static shared skip jr : bool) :
  Forall (fun v =>
            Str.startswith (build_name v) (platform_name p) = true
            /\ Str.endswith (build_name v)
                 (if is_shared v then "-dynamic" else "-static") = true
            /\ (is_Some (generator v) <-> p = win)
            /\ (generator v = Some generator64
                <-> Str.startswith (build_name v) "win64" = true)
            /\ (generator v = Some generator32
                <-> Str.startswith (build_name v) "win32" = true)
            /\ NoDup (options v).*1)
         (lib_builds p environ static shared skip jr).
Proof.
  unfold lib_builds.
  destruct (normalize_links static shared) as [s d].
  assert (Hnd : forall l : list string,
            bool_decide (NoDup l) = true -> NoDup l).
  { intros l. apply bool_decide_eq_true_1. }
  destruct (skip || IS_BUILD_MACHINE environ), p, s, d; cbn [app];
    repeat apply Forall_cons_2; try apply Forall_nil_2;
    cbn [build_name generator options];
    (split; [by vm_compute|]); (split; [by vm_compute|]);
    (split; [first [split; [done | by intros _; eexists]
                   | split; [by intros [g Hg] | done]]|]);
    (split; [by split|]); (split; [by split|]);
    apply Hnd; by vm_compute.
Qed.


(** ** Which names [os.path.splitext] gives an extension *)

Lemma rfind_from_without c s : forall i acc,
  has_char c s = false -> Str.rfind_from c s i acc = acc.
Proof.
  induction s as [|a s IH]; intros i acc H; [done|]. simpl in *.
  apply orb_false_iff in H as [Ha Hs]. by rewrite Ha, IH.
Qed.

Lemma rfind_from_last c s1 s2 : forall i acc,
  has_char c s2 = false ->
  Str.rfind_from c (s1 +:+ String c s2) i acc
  = (i + Z.of_nat (String.length s1))%Z.
Proof.
  induction s1 as [|a s1 IH]; intros i acc H.
  - change ("" +:+ String c s2) with (String c s2). simpl.
    rewrite Ascii.eqb_refl, rfind_from_without by done. lia.
  - rewrite append_String. cbn [Str.rfind_from String.length].
    rewrite IH by done. lia.
Qed.

Lemma only_dots_tail a p : forall n i,
  only_dots (String a p) (S i) n = only_dots p i n.
Proof. induction n as [|n IH]; intros i; [done|]. simpl. by rewrite IH. Qed.

Lemma only_dots_take p : forall n,
  only_dots p 0 n = all_dots (Str.take n p).
Proof.
  unfold Str.take. induction p as [|a p IH]; intros [|n]; try done.
  simpl. rewrite only_dots_tail, IH. by destruct (Ascii.eqb a ".").
Qed.

Lemma substring_all s : String.substring 0 (String.length s) s = s.
Proof. induction s as [|b s IH]; [done|]. simpl. by f_equal. Qed.

Lemma take_drop k : forall s, Str.take k s +:+ Str.drop k s = s.
Proof.
  unfold Str.take, Str.drop. induction k as [|k IH]; intros [|a s]; try done.
  - change (String.substring 0 0 (String a s)) with "".
    change ("" +:+ ?x) with x. rewrite Nat.sub_0_r. apply substring_all.
  - simpl. rewrite append_String. f_equal. apply IH.
Qed.

Lemma take_append s1 s2 : Str.take (String.length s1) (s1 +:+ s2) = s1.
Proof.
  unfold Str.take. induction s1 as [|a s1 IH]; [by destruct s2|].
  rewrite append_String. simpl. by rewrite IH.
Qed.

Lemma append_inv_head s : forall s1 s2, s +:+ s1 = s +:+ s2 -> s1 = s2.
Proof.
  induction s as [|a s IH]; intros s1 s2 H; [done|].
  rewrite !append_String in H. injection H as H. by apply IH.
Qed.

Lemma drop_append s1 s2 : Str.drop (String.length s1) (s1 +:+ s2) = s2.
Proof.
  apply (append_inv_head (Str.take (String.length s1) (s1 +:+ s2))).
  rewrite take_drop. by rewrite take_append.
Qed.

Section Splitext.

Variable sep : ascii.
Variable altsep : option ascii.
Variable fname : string.

Hypothesis no_sep : has_char sep fname = false.
Hypothesis no_altsep : forall a, altsep = Some a -> has_char a fname = false.

(** For a name without separators, only the last dot matters. *)
Lemma splitext_name :
  splitext sep altsep fname
  = let dotIndex := Str.rfind "." fname in
    if (-1 <? dotIndex)%Z then
      if only_dots fname 0 (Z.to_nat dotIndex) then (fname, "")
      else (Str.take (Z.to_nat dotIndex) fname,
            Str.drop (Z.to_nat dotIndex) fname)
    else (fname, "").
Proof.
  unfold splitext.
  assert (Hsep : Str.rfind sep fname = (-1)%Z)
    by (by apply rfind_from_without).
  assert (Hidx : match altsep with
                 | Some a => Z.max (Str.rfind sep fname) (Str.rfind a fname)
                 | None => Str.rfind sep fname
                 end = (-1)%Z).
  { destruct altsep as [a|]; [|done]. rewrite Hsep.
    unfold Str.rfind. by rewrite rfind_from_without by by apply no_altsep. }
  rewrite Hidx. cbv zeta. change (Z.to_nat (-1 + 1)) with 0.
  by rewrite Nat.sub_0_r.
Qed.

(** The name has the extension [.e] exactly when it ends with it and has
    something other than dots before it. *)
Lemma splitext_extension e :
  has_char "." e = false ->
  (splitext sep altsep fname).2 = String "." e
  <-> exists stem, fname = stem +:+ String "." e /\ all_dots stem = false.
Proof.
  intros He. rewrite splitext_name. cbv zeta. split.
  - destruct (-1 <? Str.rfind "." fname)%Z; [|done].
    rewrite only_dots_take.
    destruct (all_dots (Str.take _ fname)) eqn:Hdots; [done|].
    cbn [snd]. intros Hext. eexists. split; [|exact Hdots].
    by rewrite <- Hext, take_drop.
  - intros (stem & -> & Hdots).
    assert (Hdot : Str.rfind "." (stem +:+ String "." e)
                   = Z.of_nat (String.length stem)).
    { unfold Str.rfind. rewrite rfind_from_last by done. lia. }
    rewrite Hdot, Nat2Z.id.
    assert (Hlt : (-1 <? Z.of_nat (String.length stem))%Z = true)
      by (apply Z.ltb_lt; lia).
    rewrite Hlt, only_dots_take, take_append, Hdots. cbn [snd].
    apply drop_append.
Qed.

End Splitext.

(** X23.  [sign] picks the files by the extension [os.path.splitext] sees:
    a directory entry is signed exactly when its name is an extension the
    platform signs ([.dll] on Windows, [.dylib] on macOS) after a stem that
    holds something other than dots. *)
Theorem signed_files_by_name (p : platform) (fname : string) :
  has_char (os_sep p) fname = false ->
  (forall a, os_altsep p = Some a -> has_char a fname = false) ->
  signable p fname = true
  <-> exists stem ext,
        fname = stem +:+ ext /\ all_dots stem = false
        /\ ext ∈ signable_extensions p.
Proof.
  intros Hsep Halt. unfold signable. rewrite bool_decide_eq_true.
  unfold os_path_splitext.
  pose proof (splitext_extension (os_sep p) (os_altsep p) fname Hsep Halt)
    as Hext.
  destruct p; cbn [signable_extensions].
  - rewrite elem_of_singleton, (Hext "dll") by done.
    split.
    + intros (stem & Hname & Hdots). exists stem, ".dll".
      split; [done|]. split; [done|]. by apply elem_of_singleton.
    + intros (stem & ext & Hname & Hdots & Hin).
      apply elem_of_singleton in Hin as ->. by exists stem.
  - rewrite elem_of_singleton, (Hext "dylib") by done.
    split.
    + intros (stem & Hname & Hdots). exists stem, ".dylib".
      split; [done|]. split; [done|]. by apply elem_of_singleton.
    + intros (stem & ext & Hname & Hdots & Hin).
      apply elem_of_singleton in Hin as ->. by exists stem.
  - split; [by intros H%elem_of_empty|].
    by intros (stem & ext & _ & _ & H%elem_of_empty).
Qed.

Lemma signed_files_by_name_witness :
  signable win "discord-rpc.dll" = true
  <-> exists stem ext,
        "discord-rpc.dll" = stem +:+ ext /\ all_dots stem = false
        /\ ext ∈ signable_extensions win.
Proof.
  apply (signed_files_by_name win "discord-rpc.dll").
  - reflexivity.
  - intros a [= <-]. reflexivity.
Defined.

(** ** Stopping at the first command that fails *)

Section Stops.

Variable proc : list string -> list string -> node -> Z * node.


Lemma stops_from {A B} (m : M A) (m' : M B) w w' items :
  (m w).2 = (m' w').2 ->
  match (m w).1, (m' w').1 with
  | Ok _, Ok _ => True
  | Raise e, Raise e' => e = e'
  | _, _ => False
  end ->
  execs (trace w') = execs (trace w) ->
  stops_at_failure proc m' w' items -> stops_at_failure proc m w items.
Proof.
  unfold stops_at_failure. intros -> Hres ->.
  destruct (m w).1 as [a|e], (m' w').1 as [b|e']; try done. by subst e'.
Qed.





End Stops.



Section SignStops.

Variable environ : gmap string string.
Variable script_dir : list string.
Variable anchor : string.
Variable expanduser : string -> string.
Variable join_text : string -> list string -> string.
Variable proc : list string -> list string -> node -> Z * node.


End SignStops.


Section BuildStops.

Variable p : platform.
Variable script_dir : list string.
Variable anchor : string.
Variable proc : list string -> list string -> node -> Z * node.





End BuildStops.




